(** * MIDItoOBS: the event correlation and mapping engine of [main.py]

    A shallow embedding of [map_scale] and of the [MidiHandler] methods
    [__init__], [send_action], [handle_midi_button], [handle_midi_fader],
    [handle_obs_message], [handle_midi_input], [handle_obs_error], [close]
    and [__end__], with the properties of the dispatcher, the value scaler,
    the pending request tracker, start-up and shutdown.

    Conventions of the embedding.
    - Python values are the values [json] and TinyDB hand to the program:
      [None], booleans, integers, floats, strings, lists and objects.
    - Python integers are unbounded: [Z].  A finite Python float is the
      rational it stands for ([Q]); infinities, NaN and the sign of zero
      are not represented.
    - A Python exception is an outcome [Raise e]; the state reached when the
      exception left the method is kept, as the side effects before a
      [raise] are in Python.
    - Logging has no effect on the state; the texts it formats with [%s]
      never raise.
    - [handle_obs_message] starts from the payload [json.loads] returned.
    - The methods are given twice.  The first definitions are over an
      ideal platform: the websocket is an outbox, [obs_socket.send(m)]
      appends [m] to the list of transmitted messages and returns, and the
      scaler computes in exact arithmetic.  Module [Live] gives them over
      the platform as it is: [obs_socket.send] raises when the connection
      is not open, and the scaler computes in doubles, every operation
      rounded to the nearest one.  With the connection open the two agree
      on every path that does not scale a value. *)

From Stdlib Require Import ZArith QArith Qfield Qpower Qabs Qreduction String
  Ascii List Bool Lia DecimalString DecimalPos Sorted.
Import ListNotations.

Set Warnings "-register-all".

Open Scope string_scope.
Open Scope Z_scope.

(** ** Python values *)

Inductive pyvalue : Type :=
| VNone
| VBool (b : bool)
| VInt (n : Z)
| VFloat (q : Q)
| VStr (s : string)
| VList (l : list pyvalue)
| VDict (d : list (string * pyvalue)).

(** A JSON object, a TinyDB document: keys in stored order, a key looked up
    at its first occurrence. *)
Definition document : Type := list (string * pyvalue).

Inductive exn : Type :=
| KeyError | IndexError | TypeError | ValueError | ZeroDivisionError
| OverflowError | WebSocketConnectionClosedException.

(** [Unmodelled] marks the few dynamic paths whose Python result the
    embedding does not compute (a conversion of the [%] mini-language other
    than [%s], [%d] and [%%], the numeric remainder [number % number], an
    integer literal with blanks or underscores, a float operation whose
    result is infinite). *)
Inductive outcome (A : Type) : Type :=
| Ok (a : A)
| Raise (e : exn)
| Unmodelled.
Arguments Ok {A} a.
Arguments Raise {A} e.
Arguments Unmodelled {A}.

Definition obind {A B} (o : outcome A) (k : A -> outcome B) : outcome B :=
  match o with
  | Ok a => k a
  | Raise e => Raise e
  | Unmodelled => Unmodelled
  end.

(** ** Dictionaries and subscripts *)

Fixpoint lookup (k : string) (d : document) : option pyvalue :=
  match d with
  | [] => None
  | (k', v) :: d' => if String.eqb k' k then Some v else lookup k d'
  end.

(** [d.get(k)]: [None] when the key is absent. *)
Definition dict_get (d : document) (k : string) : pyvalue :=
  match lookup k d with
  | Some v => v
  | None => VNone
  end.

(** [d[k]] on a document. *)
Definition doc_item (d : document) (k : string) : outcome pyvalue :=
  match lookup k d with
  | Some v => Ok v
  | None => Raise KeyError
  end.

(** [v[k]] for a string key [k] on any value: only an object can be
    subscripted with a string. *)
Definition getitem (v : pyvalue) (k : string) : outcome pyvalue :=
  match v with
  | VDict d => doc_item d k
  | _ => Raise TypeError
  end.

(** Truth value of a Python object, as [if x] and [not x] take it. *)
Definition truthy (v : pyvalue) : bool :=
  match v with
  | VNone => false
  | VBool b => b
  | VInt n => negb (n =? 0)
  | VFloat q => negb (Qeq_bool q 0)
  | VStr s => negb (String.eqb s EmptyString)
  | VList l => match l with [] => false | _ => true end
  | VDict d => match d with [] => false | _ => true end
  end.

(** [v == s] for a string [s]. *)
Definition eq_str (v : pyvalue) (s : string) : bool :=
  match v with
  | VStr t => String.eqb t s
  | _ => false
  end.

(** [v == n] for an integer [n]: Python compares numbers across [bool],
    [int] and [float]. *)
Definition eq_int (v : pyvalue) (n : Z) : bool :=
  match v with
  | VInt m => m =? n
  | VBool b => (if b then 1 else 0) =? n
  | VFloat q => Qeq_bool q (inject_Z n)
  | _ => false
  end.

(** The value of a number, [None] for what is not a number. *)
Definition as_number (v : pyvalue) : option Q :=
  match v with
  | VInt n => Some (inject_Z n)
  | VFloat q => Some q
  | VBool b => Some (if b then 1%Q else 0%Q)
  | _ => None
  end.

(** Structural comparison of values.  [list.remove] compares the entries of
    the action buffer with [==], element by element and the ids first:
    entries with different ids are unequal whatever follows, and the source
    removes the first entry that carries its id, which is equal to itself.
    On these comparisons [==] and the structural comparison agree. *)
Fixpoint value_eqb (a b : pyvalue) {struct a} : bool :=
  match a, b with
  | VNone, VNone => true
  | VBool x, VBool y => Bool.eqb x y
  | VInt x, VInt y => x =? y
  | VFloat x, VFloat y => Qeq_bool x y
  | VStr x, VStr y => String.eqb x y
  | VList x, VList y =>
      (fix go (l1 l2 : list pyvalue) {struct l1} : bool :=
         match l1, l2 with
         | [], [] => true
         | h1 :: t1, h2 :: t2 => value_eqb h1 h2 && go t1 t2
         | _, _ => false
         end) x y
  | VDict x, VDict y =>
      (fix go (l1 l2 : list (string * pyvalue)) {struct l1} : bool :=
         match l1, l2 with
         | [], [] => true
         | (k1, h1) :: t1, (k2, h2) :: t2 =>
             String.eqb k1 k2 && value_eqb h1 h2 && go t1 t2
         | _, _ => false
         end) x y
  | _, _ => false
  end.

(** ** Numbers and text *)

(** [int(x)] of a float: truncation toward zero. *)
Definition Qtrunc (q : Q) : Z := Z.quot (Qnum q) (Zpos (Qden q)).

Definition decimal (n : Z) : string := NilZero.string_of_int (Z.to_int n).

Definition is_digit (c : ascii) : bool :=
  let n := nat_of_ascii c in (48 <=? n)%nat && (n <=? 57)%nat.

Definition digit_value (c : ascii) : Z := Z.of_nat (nat_of_ascii c) - 48.

(** Characters [int] treats specially in a literal and the embedding does
    not: blanks (stripped by Python), the underscore (a digit separator)
    and bytes outside ASCII. *)
Definition is_special (c : ascii) : bool :=
  let n := nat_of_ascii c in
  ((9 <=? n)%nat && (n <=? 13)%nat) || ((28 <=? n)%nat && (n <=? 32)%nat)
  || (n =? 95)%nat || (128 <=? n)%nat.

Fixpoint all_chars (p : ascii -> bool) (s : string) : bool :=
  match s with
  | EmptyString => true
  | String c s' => p c && all_chars p s'
  end.

Fixpoint any_char (p : ascii -> bool) (s : string) : bool :=
  match s with
  | EmptyString => false
  | String c s' => p c || any_char p s'
  end.

Fixpoint digits_value (acc : Z) (s : string) : Z :=
  match s with
  | EmptyString => acc
  | String c s' => digits_value (10 * acc + digit_value c) s'
  end.

Definition parse_digits (s : string) : option Z :=
  match s with
  | EmptyString => None
  | _ => if all_chars is_digit s then Some (digits_value 0 s) else None
  end.

(** [int(s)] for a string, base ten: an optional sign and at least one
    digit. *)
Definition int_of_str (s : string) : outcome Z :=
  let signed :=
    match s with
    | String "-"%char s' => option_map Z.opp (parse_digits s')
    | String "+"%char s' => parse_digits s'
    | _ => parse_digits s
    end in
  match signed with
  | Some n => Ok n
  | None => if any_char is_special s then Unmodelled else Raise ValueError
  end.

(** The builtin [int(v)]. *)
Definition py_int (v : pyvalue) : outcome Z :=
  match v with
  | VInt n => Ok n
  | VBool b => Ok (if b then 1 else 0)
  | VFloat q => Ok (Qtrunc q)
  | VStr s => int_of_str s
  | VNone | VList _ | VDict _ => Raise TypeError
  end.

(** ** Strings: last character, slices, search *)

Fixpoint str_last (s : string) : option ascii :=
  match s with
  | EmptyString => None
  | String c EmptyString => Some c
  | String _ s' => str_last s'
  end.

Fixpoint str_init (s : string) : string :=
  match s with
  | EmptyString => EmptyString
  | String _ EmptyString => EmptyString
  | String c s' => String c (str_init s')
  end.

Fixpoint starts_with (p s : string) : bool :=
  match p, s with
  | EmptyString, _ => true
  | String a p', String b s' => Ascii.eqb a b && starts_with p' s'
  | String _ _, EmptyString => false
  end.

Fixpoint contains (p s : string) : bool :=
  starts_with p s ||
  match s with
  | EmptyString => false
  | String _ s' => contains p s'
  end.

(** [k in v] for a string [k]: a key of an object, an element of a list,
    a substring of a string. *)
Definition py_in (k : string) (v : pyvalue) : outcome bool :=
  match v with
  | VDict d => Ok (match lookup k d with Some _ => true | None => false end)
  | VList l => Ok (existsb (fun x => eq_str x k) l)
  | VStr s => Ok (contains k s)
  | _ => Raise TypeError
  end.

(** [v[-1]]. *)
Definition last_item (v : pyvalue) : outcome pyvalue :=
  match v with
  | VStr s =>
      match str_last s with
      | Some c => Ok (VStr (String c EmptyString))
      | None => Raise IndexError
      end
  | VList l =>
      match l with
      | [] => Raise IndexError
      | _ => Ok (last l VNone)
      end
  | VDict _ => Raise KeyError
  | _ => Raise TypeError
  end.

(** [v[0:-1]]. *)
Definition slice_init (v : pyvalue) : outcome pyvalue :=
  match v with
  | VStr s => Ok (VStr (str_init s))
  | VList l => Ok (VList (removelast l))
  | _ => Raise TypeError
  end.

(** [v + s] for a string [s]. *)
Definition add_str (v : pyvalue) (s : string) : outcome pyvalue :=
  match v with
  | VStr t => Ok (VStr (t ++ s))
  | _ => Raise TypeError
  end.

(** ** The value scaler *)

(** [map_scale(inp, ista, isto, osta, osto)], under [from __future__ import
    division]: [/] is the true division, the result is a float.  An operand
    that is not a number makes [-] raise [TypeError]; equal input bounds
    make [/] raise [ZeroDivisionError].  Here the arithmetic is exact; the
    arithmetic of doubles is in [Live.map_scale]. *)
Definition map_scale (inp ista isto osta osto : pyvalue) : outcome pyvalue :=
  match as_number osta, as_number osto, as_number inp,
        as_number ista, as_number isto with
  | Some lo, Some hi, Some x, Some a, Some b =>
      if Qeq_bool (b - a) 0 then Raise ZeroDivisionError
      else Ok (VFloat (lo + (hi - lo) * ((x - a) / (b - a))))
  | _, _, _, _, _ => Raise TypeError
  end.

(** [scaled**3] on the float [map_scale] returns. *)
Definition cube (v : pyvalue) : outcome pyvalue :=
  match as_number v with
  | Some q => Ok (VFloat (q * q * q))
  | None => Raise TypeError
  end.

(** [int(scaled)] as a value. *)
Definition to_int (v : pyvalue) : outcome pyvalue :=
  match py_int v with
  | Ok n => Ok (VInt n)
  | Raise e => Raise e
  | Unmodelled => Unmodelled
  end.

(** ** The request templates *)

Definition dq : string := String "034"%char EmptyString.
Definition nl : string := String "010"%char EmptyString.

(** The envelope of a tracked request: [id] and [obj] are the two slots,
    [%d] and [%s] in [TEMPLATES]. *)
Definition envelope (request_type key id obj : string) : string :=
  "{" ++ nl ++
  "  " ++ dq ++ "request-type" ++ dq ++ ": " ++ dq ++ request_type ++ dq ++ "," ++ nl ++
  "  " ++ dq ++ "message-id" ++ dq ++ ": " ++ dq ++ id ++ dq ++ "," ++ nl ++
  "  " ++ dq ++ key ++ dq ++ ": " ++ dq ++ obj ++ dq ++ nl ++
  "}".

Definition TEMPLATES : list (string * string) :=
  [ ("ToggleSourceVisibility",
     envelope "GetSceneItemProperties" "item" "%d" "%s");
    ("ReloadBrowserSource",
     envelope "GetSourceSettings" "sourceName" "%d" "%s") ].

Fixpoint assoc (k : string) (l : list (string * string)) : option string :=
  match l with
  | [] => None
  | (k', v) :: l' => if String.eqb k' k then Some v else assoc k l'
  end.

(** [TEMPLATES.get(request)]: a list or an object is not hashable and cannot
    be looked up; a key of another type than [str] equals no key. *)
Definition TEMPLATES_get (request : pyvalue) : outcome pyvalue :=
  match request with
  | VList _ | VDict _ => Raise TypeError
  | VStr s =>
      match assoc s TEMPLATES with
      | Some t => Ok (VStr t)
      | None => Ok VNone
      end
  | _ => Ok VNone
  end.

(** ** Text formatting: the [%] operator *)

(** The right operand of [%]: one object, or the tuple the source writes. *)
Inductive operand : Type :=
| One (v : pyvalue)
| Tuple (vs : list pyvalue).

Section Formatting.

(** Python's [str] of a float, a list or an object: the printing of
    floats and of containers is left to this parameter. *)
Variable py_repr : pyvalue -> string.

Definition py_str (v : pyvalue) : string :=
  match v with
  | VStr s => s
  | VInt n => decimal n
  | VBool b => if b then "True" else "False"
  | VNone => "None"
  | VFloat _ | VList _ | VDict _ => py_repr v
  end.

(** The text of [%d] for one argument. *)
Definition format_d (v : pyvalue) : outcome string :=
  match v with
  | VInt n => Ok (decimal n)
  | VBool b => Ok (if b then "1" else "0")
  | VFloat q => Ok (decimal (Qtrunc q))
  | _ => Raise TypeError
  end.

(** One pass over the template, left to right: the text produced and the
    arguments left over.  [ValueError] is the incomplete format (a [%]
    that ends the template), [TypeError] the missing argument. *)
Fixpoint format_go (tpl : string) (args : list pyvalue)
  : outcome (string * list pyvalue) :=
  match tpl with
  | EmptyString => Ok (EmptyString, args)
  | String c rest =>
      if Ascii.eqb c "%" then
        match rest with
        | EmptyString => Raise ValueError
        | String conv rest' =>
            if Ascii.eqb conv "%" then
              match format_go rest' args with
              | Ok (text, unused) => Ok (String "%" text, unused)
              | other => other
              end
            else if Ascii.eqb conv "s" then
              match args with
              | [] => Raise TypeError
              | a :: args' =>
                  match format_go rest' args' with
                  | Ok (text, unused) => Ok (py_str a ++ text, unused)
                  | other => other
                  end
              end
            else if Ascii.eqb conv "d" then
              match args with
              | [] => Raise TypeError
              | a :: args' =>
                  match format_d a with
                  | Ok t =>
                      match format_go rest' args' with
                      | Ok (text, unused) => Ok (t ++ text, unused)
                      | other => other
                      end
                  | Raise e => Raise e
                  | Unmodelled => Unmodelled
                  end
              end
            else Unmodelled
        end
      else
        match format_go rest args with
        | Ok (text, unused) => Ok (String c text, unused)
        | other => other
        end
  end.

(** An operand that is a list or an object is taken as a mapping: Python
    then does not complain about an argument that no conversion used. *)
Definition is_mapping (rhs : operand) : bool :=
  match rhs with
  | One (VList _) | One (VDict _) => true
  | _ => false
  end.

Definition operand_args (rhs : operand) : list pyvalue :=
  match rhs with
  | One v => [v]
  | Tuple vs => vs
  end.

Definition is_numeric (rhs : operand) : bool :=
  match rhs with
  | One (VInt _) | One (VFloat _) | One (VBool _) => true
  | _ => false
  end.

(** [lhs % rhs]. *)
Definition py_mod (lhs : pyvalue) (rhs : operand) : outcome pyvalue :=
  match lhs with
  | VStr tpl =>
      match format_go tpl (operand_args rhs) with
      | Ok (text, unused) =>
          match unused with
          | [] => Ok (VStr text)
          | _ => if is_mapping rhs then Ok (VStr text) else Raise TypeError
          end
      | Raise e => Raise e
      | Unmodelled => Unmodelled
      end
  | VInt _ | VFloat _ | VBool _ =>
      if is_numeric rhs then Unmodelled else Raise TypeError
  | VNone | VList _ | VDict _ => Raise TypeError
  end.

End Formatting.

(** ** The handler object *)

(** An entry of [_action_buffer]: the list [[counter, action, request]]. *)
Definition entry : Type := (Z * pyvalue * pyvalue)%type.

Definition entry_id (e : entry) : Z := fst (fst e).

Definition entry_eqb (e1 e2 : entry) : bool :=
  let '(i1, a1, r1) := e1 in
  let '(i2, a2, r2) := e2 in
  (i1 =? i2) && value_eqb a1 a2 && value_eqb r1 r2.

(** The fields of [MidiHandler] the handlers use.  [obs_socket] is the
    outbox of the websocket: the arguments of [obs_socket.send], oldest
    first.  [history] is a ghost field the program does not read: every
    entry [_action_buffer.append] received, oldest first. *)
Record MidiHandler : Type := mkMidiHandler {
  db : list document;
  _action_buffer : list entry;
  _action_counter : Z;
  obs_socket : list pyvalue;
  history : list entry
}.

(** [__init__], once the config file is loaded and the ports are open. *)
Definition init (config : list document) : MidiHandler :=
  {| db := config;
     _action_buffer := [];
     _action_counter := 2;
     obs_socket := [];
     history := [] |}.

(** A method body: it reads and updates [self], and returns or raises. *)
Definition M (A : Type) : Type := MidiHandler -> outcome A * MidiHandler.

Definition ret {A} (a : A) : M A := fun self => (Ok a, self).

Definition bind {A B} (m : M A) (k : A -> M B) : M B :=
  fun self =>
    match m self with
    | (Ok a, self') => k a self'
    | (Raise e, self') => (Raise e, self')
    | (Unmodelled, self') => (Unmodelled, self')
    end.

(** An expression without effect on [self]. *)
Definition eval {A} (o : outcome A) : M A := fun self => (o, self).

Declare Scope method_scope.
Delimit Scope method_scope with method.
Notation "x <- c ;; k" := (bind c (fun x => k))
  (at level 61, c at next level, right associativity) : method_scope.
Notation "c ;;; k" := (bind c (fun _ => k))
  (at level 61, right associativity) : method_scope.
Open Scope method_scope.

(** [self.obs_socket.send(m)] while the connection is open; [Live.send]
    covers the closed connection. *)
Definition send (m : pyvalue) : M unit :=
  fun self =>
    (Ok tt,
     {| db := db self;
        _action_buffer := _action_buffer self;
        _action_counter := _action_counter self;
        obs_socket := obs_socket self ++ [m];
        history := history self |}).

(** [self._action_buffer.append(e)]. *)
Definition append (e : entry) : M unit :=
  fun self =>
    (Ok tt,
     {| db := db self;
        _action_buffer := _action_buffer self ++ [e];
        _action_counter := _action_counter self;
        obs_socket := obs_socket self;
        history := history self ++ [e] |}).

(** [self._action_counter += 1]. *)
Definition increment : M unit :=
  fun self =>
    (Ok tt,
     {| db := db self;
        _action_buffer := _action_buffer self;
        _action_counter := _action_counter self + 1;
        obs_socket := obs_socket self;
        history := history self |}).

(** [l.remove(e)]: the first element equal to [e] goes; [None] when no
    element is. *)
Fixpoint list_remove (e : entry) (l : list entry) : option (list entry) :=
  match l with
  | [] => None
  | x :: l' =>
      if entry_eqb x e then Some l'
      else option_map (cons x) (list_remove e l')
  end.

(** [self._action_buffer.remove(e)]. *)
Definition remove (e : entry) : M unit :=
  fun self =>
    match list_remove e (_action_buffer self) with
    | Some l =>
        (Ok tt,
         {| db := db self;
            _action_buffer := l;
            _action_counter := _action_counter self;
            obs_socket := obs_socket self;
            history := history self |})
    | None => (Raise ValueError, self)
    end.

(** [self.db.search((query.msg_type == type) & (query.msgNoC == note))]:
    the documents that have both fields with these values, in stored order.
    A document without one of the fields does not match. *)
Definition matches (type : string) (note : Z) (doc : document) : bool :=
  match lookup "msg_type" doc, lookup "msgNoC" doc with
  | Some t, Some n => eq_str t type && eq_int n note
  | _, _ => false
  end.

Definition search (type : string) (note : Z) (self : MidiHandler)
  : list document :=
  filter (matches type note) (db self).

Section Handlers.

Variable py_repr : pyvalue -> string.

(** *** [send_action] *)

Definition send_action (action_request : document) : M bool :=
  let action := dict_get action_request "action" in
  if negb (truthy action) then ret false
  else
    let request := dict_get action_request "request" in
    if negb (truthy request) then
      send action ;;; ret true
    else
      template <- eval (TEMPLATES_get request) ;;
      if negb (truthy template) then ret false
      else
        let target := dict_get action_request "target" in
        if negb (truthy target) then ret false
        else
          fun self =>
            let counter := _action_counter self in
            (append (counter, action, request) ;;;
             m <- eval (py_mod py_repr template
                          (Tuple [VInt counter; target])) ;;
             send m ;;;
             increment ;;;
             ret true) self.

(** *** [handle_midi_button] *)

(** The loop [for result in results: if self.send_action(result): break]. *)
Fixpoint button_loop (results : list document) : M unit :=
  match results with
  | [] => ret tt
  | result :: rest =>
      sent <- send_action result ;;
      if sent then ret tt else button_loop rest
  end.

Definition handle_midi_button (type : string) (note : Z) : M unit :=
  fun self =>
    match search type note self with
    | [] => ret tt self
    | results => button_loop results self
    end.

(** *** [handle_midi_fader] *)

(** The body of the loop for a binding with [input_type == "fader"]:
    [Some m] is the message to transmit before [break], [None] lets the
    loop go on to the next binding. *)
Definition fader_message (result : document) (action : pyvalue) (value : Z)
  : outcome (option pyvalue) :=
  match doc_item result "cmd" with
  | Ok command =>
      match doc_item result "scale_low" with
      | Ok scale_low =>
          match doc_item result "scale_high" with
          | Ok scale_high =>
              match map_scale (VInt value) (VInt 0) (VInt 127)
                      scale_low scale_high with
              | Ok scaled =>
                  if eq_str command "SetSourcePosition"
                     || eq_str command "SetSourceScale" then
                    obind (py_mod py_repr action (One scaled))
                      (fun m => Ok (Some m))
                  else if eq_str command "SetVolume" then
                    obind (cube scaled) (fun p =>
                    obind (py_mod py_repr action (One p))
                      (fun m => Ok (Some m)))
                  else if eq_str command "SetSourceRotation"
                          || eq_str command "SetTransitionDuration"
                          || eq_str command "SetSyncOffset" then
                    obind (to_int scaled) (fun n =>
                    obind (py_mod py_repr action (One n))
                      (fun m => Ok (Some m)))
                  else Ok None
              | Raise e => Raise e
              | Unmodelled => Unmodelled
              end
          | Raise e => Raise e
          | Unmodelled => Unmodelled
          end
      | Raise e => Raise e
      | Unmodelled => Unmodelled
      end
  | Raise e => Raise e
  | Unmodelled => Unmodelled
  end.

Fixpoint fader_loop (value : Z) (results : list document) : M unit :=
  match results with
  | [] => ret tt
  | result :: rest =>
      input_type <- eval (doc_item result "input_type") ;;
      action <- eval (doc_item result "action") ;;
      if eq_str input_type "button" then
        if value =? 127 then
          sent <- send_action result ;;
          if sent then ret tt else fader_loop value rest
        else ret tt
      else if eq_str input_type "fader" then
        found <- eval (fader_message result action value) ;;
        match found with
        | Some m => send m
        | None => fader_loop value rest
        end
      else fader_loop value rest
  end.

Definition handle_midi_fader (control value : Z) : M unit :=
  fun self =>
    match search "control_change" control self with
    | [] => ret tt self
    | results => fader_loop value results self
    end.

(** *** [handle_midi_input] *)

(** A decoded MIDI message, by its [type]. *)
Inductive message : Type :=
| note_on (note velocity : Z)
| program_change (program : Z)
| control_change (control value : Z)
| other_type (type : string).

Definition handle_midi_input (msg : message) : M unit :=
  match msg with
  | note_on note _ => handle_midi_button "note_on" note
  | program_change program => handle_midi_button "program_change" program
  | control_change control value => handle_midi_fader control value
  | other_type _ => ret tt
  end.

(** *** [handle_obs_message] *)

(** The follow-up of a matched entry: the message built from the reply,
    [None] for a kind without a rule. *)
Definition follow_up (payload template kind : pyvalue)
  : outcome (option pyvalue) :=
  if eq_str kind "ToggleSourceVisibility" then
    obind (getitem payload "visible") (fun visible =>
    let invisible := if truthy visible then "false" else "true" in
    obind (py_mod py_repr template (One (VStr invisible)))
      (fun m => Ok (Some m)))
  else if eq_str kind "ReloadBrowserSource" then
    obind (getitem payload "sourceSettings") (fun settings =>
    obind (getitem settings "url") (fun source =>
    obind (last_item source) (fun final =>
    obind (if eq_str final "#" then slice_init source
           else add_str source "#") (fun target =>
    obind (py_mod py_repr template (One target))
      (fun m => Ok (Some m))))))
  else Ok None.

(** The loop [for action in self._action_buffer], over the entries not yet
    visited. *)
Fixpoint resolve_loop (payload : pyvalue) (pending : list entry) : M unit :=
  match pending with
  | [] => ret tt
  | action :: rest =>
      let '(buffered_id, template, kind) := action in
      message_id <- eval (getitem payload "message-id") ;;
      n <- eval (py_int message_id) ;;
      if negb (buffered_id =? n) then resolve_loop payload rest
      else
        found <- eval (follow_up payload template kind) ;;
        match found with
        | Some m => send m
        | None => ret tt
        end ;;;
        remove action
  end.

(** [handle_obs_message], from the payload [json.loads] returns. *)
Definition handle_obs_message (payload : pyvalue) : M unit :=
  has_error <- eval (py_in "error" payload) ;;
  if has_error then
    reported <- eval (getitem payload "error") ;;
    ret tt
  else
    message_id <- eval (getitem payload "message-id") ;;
    fun self => resolve_loop payload (_action_buffer self) self.

(** ** The event loop *)

(** What the two callbacks receive. *)
Inductive input : Type :=
| Midi (msg : message)
| Reply (payload : pyvalue).

Definition dispatch (i : input) : M unit :=
  match i with
  | Midi msg => handle_midi_input msg
  | Reply payload => handle_obs_message payload
  end.

(** The handler after a sequence of callbacks.  An exception ends the
    callback that raised it, not the process: the next callback finds the
    state the exception left. *)
Fixpoint run (inputs : list input) (self : MidiHandler) : MidiHandler :=
  match inputs with
  | [] => self
  | i :: rest => run rest (snd (dispatch i self))
  end.

End Handlers.

(** ** Vocabulary of the statements *)

(** A template text without conversion. *)
Definition no_percent (s : string) : bool :=
  all_chars (fun c => negb (Ascii.eqb c "%")) s.

(** The envelope a tracked request transmits, by the name of the request. *)
Definition envelope_of (request id obj : string) : option string :=
  if String.eqb request "ToggleSourceVisibility" then
    Some (envelope "GetSceneItemProperties" "item" id obj)
  else if String.eqb request "ReloadBrowserSource" then
    Some (envelope "GetSourceSettings" "sourceName" id obj)
  else None.

(** The handler after one more transmission, nothing else changed. *)
Definition transmitted (self : MidiHandler) (m : pyvalue) : MidiHandler :=
  {| db := db self;
     _action_buffer := _action_buffer self;
     _action_counter := _action_counter self;
     obs_socket := (obs_socket self ++ [m])%list;
     history := history self |}.

(** The handler after a tracked request: the entry with the current counter
    appended, the envelope [m] transmitted, the counter advanced. *)
Definition tracked (self : MidiHandler) (action request m : pyvalue)
  : MidiHandler :=
  {| db := db self;
     _action_buffer :=
       (_action_buffer self ++ [(_action_counter self, action, request)])%list;
     _action_counter := _action_counter self + 1;
     obs_socket := (obs_socket self ++ [m])%list;
     history :=
       (history self ++ [(_action_counter self, action, request)])%list |}.

(** The handler with its buffer replaced. *)
Definition with_buffer (self : MidiHandler) (l : list entry) : MidiHandler :=
  {| db := db self;
     _action_buffer := l;
     _action_counter := _action_counter self;
     obs_socket := obs_socket self;
     history := history self |}.

(** What a dictionary accepts as a key. *)
Definition hashable (v : pyvalue) : bool :=
  match v with
  | VList _ | VDict _ => false
  | _ => true
  end.

(** A binding of kind button that carries an [action] field. *)
Definition button_binding (b : document) : Prop :=
  (exists kind, lookup "input_type" b = Some kind /\ eq_str kind "button" = true)
  /\ (exists action, lookup "action" b = Some action).

(** The ids of a list of entries. *)
Definition ids (l : list entry) : list Z := map entry_id l.

(** The ids [2, 3, ..., n + 1]. *)
Definition first_ids (n : nat) : list Z :=
  map (fun k => Z.of_nat k + 2) (seq 0 n).

(** The invariant of the tracker: the counter started at 2 and advanced
    with every append, the ids handed out are [2, 3, ...] in this order, and
    every pending entry carries one of them. *)
Definition tracker_invariant (self : MidiHandler) : Prop :=
  _action_counter self = Z.of_nat (length (history self)) + 2 /\
  ids (history self) = first_ids (length (history self)) /\
  Forall (fun e => In e (history self)) (_action_buffer self).

(** One handler state reached from another by the effects the methods
    have: a transmission, a tracked request, entries taken out of the
    buffer. *)
Inductive evolves : MidiHandler -> MidiHandler -> Prop :=
| evolves_refl self : evolves self self
| evolves_transmit self m : evolves self (transmitted self m)
| evolves_track self action request m :
    evolves self (tracked self action request m)
| evolves_discard self l :
    incl l (_action_buffer self) -> evolves self (with_buffer self l)
| evolves_trans s1 s2 s3 : evolves s1 s2 -> evolves s2 s3 -> evolves s1 s3.

(** A method whose effects are of these kinds only, whatever it returns or
    raises. *)
Definition steady {A} (m : M A) : Prop :=
  forall self, evolves self (snd (m self)).

(** ** Sample configuration

    Bindings and states the statements below are instantiated at. *)

(** A printer for the values [py_str] leaves open: a float is written as the
    fraction it stands for. *)
Definition sample_repr (v : pyvalue) : string :=
  match v with
  | VFloat q => decimal (Qnum q) ++ "/" ++ decimal (Zpos (Qden q))
  | _ => "..."
  end.

(** A pad bound to a scene switch, sent as it is. *)
Definition scene_button : document :=
  [ ("msg_type", VStr "note_on"); ("msgNoC", VInt 36);
    ("input_type", VStr "button"); ("action", VStr "scene") ].

(** The same pad with a binding that lost its action. *)
Definition broken_button : document :=
  [ ("msg_type", VStr "note_on"); ("msgNoC", VInt 36);
    ("input_type", VStr "button") ].

(** A pad bound to a browser reload, a tracked request. *)
Definition reload_button : document :=
  [ ("msg_type", VStr "note_on"); ("msgNoC", VInt 40);
    ("input_type", VStr "button"); ("action", VStr "tpl%s");
    ("request", VStr "ReloadBrowserSource"); ("target", VStr "cam") ].

(** A pad bound to a visibility toggle, a tracked request. *)
Definition toggle_button : document :=
  [ ("msg_type", VStr "note_on"); ("msgNoC", VInt 41);
    ("input_type", VStr "button"); ("action", VStr "show=%s");
    ("request", VStr "ToggleSourceVisibility"); ("target", VStr "logo") ].




(** A controller used as a button. *)
Definition mute_control : document :=
  [ ("msg_type", VStr "control_change"); ("msgNoC", VInt 7);
    ("input_type", VStr "button"); ("action", VStr "mute") ].





(** The handler once the reload pad was hit: one pending entry, id 2. *)
Definition reload_pending : MidiHandler :=
  run sample_repr [Midi (note_on 40 100)] (init [reload_button]).

(** Replies: the settings of a browser source, an event pushed by the
    remote side, an error. *)
Definition settings (id url : string) : document :=
  [ ("message-id", VStr id);
    ("sourceSettings", VDict [ ("url", VStr url) ]) ].

Definition settings_reply (id url : string) : pyvalue :=
  VDict (settings id url).

Definition scene_event : document :=
  [ ("update-type", VStr "SwitchScenes") ].

Definition error_reply : document :=
  [ ("message-id", VStr "2"); ("status", VStr "error");
    ("error", VStr "source not found") ].

(** ** Start-up and shutdown *)

(** How [__init__] ends: with a handler listening on a MIDI port, with
    [exit(code)], or with an exception it does not catch. *)
Inductive startup : Type :=
| Started (self : MidiHandler) (port_name : string)
| Exit (code : Z)
| Crashed (e : exn).

(** [Query().type.exists()]: the document has a [type] field. *)
Definition has_type (doc : document) : bool :=
  match lookup "type" doc with
  | Some _ => true
  | None => false
  end.

(** The exceptions [handle_obs_error] tells apart, with the text [str]
    gives for the others. *)
Inductive raised : Type :=
| KeyboardInterrupt
| SystemExit (code : Z)
| OtherError (text : string).

(** The first argument of [handle_obs_error]: the websocket application, or
    the exception itself when the library passes it first. *)
Inductive ws_argument : Type :=
| App
| Thrown (e : raised).

(** What [close] releases: the MIDI port, the websocket, the TinyDB file. *)
Record resources : Type := mkResources {
  port_open : bool;
  socket_open : bool;
  db_open : bool
}.

(** [close(teardown)]: the port and the config file are closed; the
    websocket is closed unless [teardown] is set. *)
Definition close (teardown : bool) (r : resources) : resources :=
  {| port_open := false;
     socket_open := if teardown then socket_open r else false;
     db_open := false |}.

(** [__end__]. *)
Definition __end__ (r : resources) : resources := close false r.

(** [isinstance(error, (KeyboardInterrupt, SystemExit))]. *)
Definition is_interrupt (error : option raised) : bool :=
  match error with
  | Some KeyboardInterrupt | Some (SystemExit _) => true
  | _ => false
  end.

(** [str(error)]. *)
Definition error_text (error : option raised) : string :=
  match error with
  | None => "None"
  | Some KeyboardInterrupt => EmptyString
  | Some (SystemExit code) => decimal code
  | Some (OtherError text) => text
  end.

Section Lifecycle.

Variable py_repr : pyvalue -> string.

(** [mido.open_input(name=port_name, ...)] returned, for the devices that
    are connected; it raised for the others. *)
Variable open_input : string -> bool.

(** [__init__]: the port name is [str(result[0]["value"])], from the first
    document with a [type] field; no such document is [exit(2)], a document
    without [value] is a [KeyError], a port that does not open is
    [exit(5)]. *)
Definition __init__ (config : list document) : startup :=
  match filter has_type config with
  | [] => Exit 2
  | first :: _ =>
      match lookup "value" first with
      | Some v =>
          let port_name := py_str py_repr v in
          if open_input port_name then Started (init config) port_name
          else Exit 5
      | None => Crashed KeyError
      end
  end.

(** [handle_obs_error(ws, error=None)]. *)
Definition handle_obs_error (ws : ws_argument) (error : option raised)
  (r : resources) : outcome unit * resources :=
  let error :=
    match error, ws with
    | None, Thrown e => Some e
    | _, _ => error
    end in
  if is_interrupt error then (Ok tt, close true r)
  else
    match py_mod py_repr (VStr "Websocket error: %")
            (One (VStr (error_text error))) with
    | Ok _ => (Ok tt, r)
    | Raise e => (Raise e, r)
    | Unmodelled => (Unmodelled, r)
    end.

End Lifecycle.

(** ** Vocabulary of the further statements *)

(** The action and the request of an entry. *)
Definition entry_action (e : entry) : pyvalue := snd (fst e).
Definition entry_kind (e : entry) : pyvalue := snd e.

(** An entry [send_action] can have registered: its action is not empty and
    its request is one of the two names with a template. *)
Definition registrable (e : entry) : Prop :=
  truthy (entry_action e) = true /\
  (entry_kind e = VStr "ToggleSourceVisibility" \/
   entry_kind e = VStr "ReloadBrowserSource").

(** The effect of one MIDI event: nothing, one transmission, or one tracked
    request, of an action that is not empty under a request that has a
    template. *)
Definition midi_effect (self self' : MidiHandler) : Prop :=
  self' = self \/
  (exists m, self' = transmitted self m) \/
  (exists action request template text,
     truthy action = true /\
     assoc request TEMPLATES = Some template /\
     self' = tracked self action (VStr request) (VStr text)).

(** The effect of one reply: nothing, or one pending entry taken out of
    the buffer, after one transmission or none. *)
Definition reply_effect (self self' : MidiHandler) : Prop :=
  self' = self \/
  (exists e l,
     list_remove e (_action_buffer self) = Some l /\
     (self' = with_buffer self l \/
      exists m, self' = with_buffer (transmitted self m) l)).

(** One state comes after another: the same bindings, a counter that did
    not go back, an outbox and a history that were only added to. *)
Definition succeeds (self self' : MidiHandler) : Prop :=
  db self' = db self /\
  _action_counter self <= _action_counter self' /\
  (exists sent, obs_socket self' = (obs_socket self ++ sent)%list) /\
  (exists added, history self' = (history self ++ added)%list).

(** ** Doubles

    A finite double is the rational it stands for.  The operations of a
    Python [float], the conversion [float(n)] of an integer and the true
    division of two integers return the double nearest to the exact result,
    ties going to the even mantissa: 53 bits of mantissa, exponents down to
    the subnormal step [2^-1074].  [round64] is this rounding; it has no
    result where the nearest double would be beyond the largest one. *)

(** The integer nearest to [a / b], ties to the even one. *)
Definition half_even (a : Z) (b : positive) : Z :=
  let f := a / Z.pos b in
  match 2 * (a mod Z.pos b) ?= Z.pos b with
  | Lt => f
  | Gt => f + 1
  | Eq => if Z.even f then f else f + 1
  end.

Definition Qnearest (q : Q) : Z := half_even (Qnum q) (Qden q).

(** [floor (log2 |q|)], for [q] other than zero. *)
Definition Qlog2 (q : Q) : Z :=
  let e := Z.log2 (Z.abs (Qnum q)) - Z.log2 (Z.pos (Qden q)) in
  if Qle_bool (2 ^ e) (Qabs q) then e else e - 1.

(** The exponent of the last place of the doubles around [q]. *)
Definition grid (q : Q) : Z := Z.max (Qlog2 q - 52) (-1074).

(** [q] rounded to the nearest multiple of [2^x]. *)
Definition on_grid (x : Z) (q : Q) : Q :=
  (inject_Z (Qnearest (q / 2 ^ x)) * 2 ^ x)%Q.

Definition nearest (q : Q) : Q := on_grid (grid q) q.

Definition round64 (q : Q) : option Q :=
  let r := nearest q in
  if Qle_bool (2 ^ 1024) (Qabs r) then None else Some (Qred r).

(** [q] is a double, written in lowest terms. *)
Definition is_double (q : Q) : Prop := round64 q = Some q.


(** ** The handlers on the platform as it is

    The definitions above take the websocket to accept every message and
    compute the scaler in exact arithmetic.  Module [Live] gives the same
    methods without these two idealisations: [obs_socket.send] raises when
    the connection is not open, and the scaler computes in doubles.  Each
    callback takes the state of the connection at its time: the MIDI port
    is opened, with [handle_midi_input] as its callback, before the
    websocket connects. *)

Module Live.

(** A Python number: an [int] (a [bool] is one) or a [float]. *)
Inductive number : Type :=
| Int (z : Z)
| Float (q : Q).

Definition number_of (v : pyvalue) : option number :=
  match v with
  | VInt n => Some (Int n)
  | VBool b => Some (Int (if b then 1 else 0))
  | VFloat q => Some (Float q)
  | _ => None
  end.

Definition value_of (n : number) : pyvalue :=
  match n with
  | Int z => VInt z
  | Float q => VFloat q
  end.

(** An operand of an arithmetic operator: what is not a number makes the
    operator raise [TypeError]. *)
Definition numeric (v : pyvalue) : outcome number :=
  match number_of v with
  | Some n => Ok n
  | None => Raise TypeError
  end.

(** [float(n)], as the operators convert an [int] that meets a [float]:
    an integer beyond the doubles raises [OverflowError]. *)
Definition to_float (n : number) : outcome Q :=
  match n with
  | Float q => Ok q
  | Int z =>
      match round64 (inject_Z z) with
      | Some r => Ok r
      | None => Raise OverflowError
      end
  end.

(** The result of an operation on floats.  Beyond the largest double the
    result is [inf], which the embedding does not follow. *)
Definition float_result (q : Q) : outcome number :=
  match round64 q with
  | Some r => Ok (Float r)
  | None => Unmodelled
  end.

Definition float_op (op : Q -> Q -> Q) (a b : number) : outcome number :=
  obind (to_float a) (fun x =>
  obind (to_float b) (fun y => float_result (op x y))).

(** [a - b], [a + b], [a * b]: exact on two integers. *)
Definition py_sub (a b : number) : outcome number :=
  match a, b with
  | Int x, Int y => Ok (Int (x - y))
  | _, _ => float_op Qminus a b
  end.

Definition py_add (a b : number) : outcome number :=
  match a, b with
  | Int x, Int y => Ok (Int (x + y))
  | _, _ => float_op Qplus a b
  end.

Definition py_mul (a b : number) : outcome number :=
  match a, b with
  | Int x, Int y => Ok (Int (x * y))
  | _, _ => float_op Qmult a b
  end.

(** [a / b], the true division: of two integers, the double nearest to the
    exact quotient. *)
Definition py_truediv (a b : number) : outcome number :=
  match a, b with
  | Int x, Int y =>
      if y =? 0 then Raise ZeroDivisionError
      else
        match round64 (inject_Z x / inject_Z y) with
        | Some r => Ok (Float r)
        | None => Raise OverflowError
        end
  | _, _ =>
      obind (to_float a) (fun x =>
      obind (to_float b) (fun y =>
      if Qeq_bool y 0 then Raise ZeroDivisionError
      else float_result (x / y)))
  end.

(** [map_scale]: [osta + (osto - osta) * ((inp - ista) / (isto - ista))],
    the operators in the order Python evaluates them. *)
Definition map_scale (inp ista isto osta osto : pyvalue) : outcome pyvalue :=
  obind (numeric osto) (fun hi =>
  obind (numeric osta) (fun lo =>
  obind (py_sub hi lo) (fun d =>
  obind (numeric inp) (fun x =>
  obind (numeric ista) (fun a =>
  obind (py_sub x a) (fun n =>
  obind (numeric isto) (fun b =>
  obind (py_sub b a) (fun m =>
  obind (py_truediv n m) (fun f =>
  obind (py_mul d f) (fun p =>
  obind (py_add lo p) (fun r => Ok (value_of r)))))))))))).

Section Handlers.

Variable py_repr : pyvalue -> string.

(** [x**3] on a float: the [pow] of the C library, whose last digit is the
    platform's; [OverflowError] when the result is out of range. *)
Variable float_pow3 : Q -> outcome Q.

(** [scaled**3]. *)
Definition cube (v : pyvalue) : outcome pyvalue :=
  match number_of v with
  | Some (Float q) => obind (float_pow3 q) (fun c => Ok (VFloat c))
  | Some (Int z) => Ok (VInt (z * z * z))
  | None => Raise TypeError
  end.

(** [int(scaled)] on the double the scaler returned: the truncation toward
    zero, exact on every finite double. *)
Definition to_int (v : pyvalue) : outcome pyvalue :=
  obind (py_int v) (fun n => Ok (VInt n)).

(** [self.obs_socket.send(m)]: [WebSocketApp.send] raises when the
    connection is not open.  On an open connection it transmits a text;
    what the library does with a value that is not a text is not
    followed. *)
Definition send (connected : bool) (m : pyvalue) : M unit :=
  fun self =>
    if connected then
      match m with
      | VStr _ => (Ok tt, transmitted self m)
      | _ => (Unmodelled, self)
      end
    else (Raise WebSocketConnectionClosedException, self).

Definition send_action (connected : bool) (action_request : document)
  : M bool :=
  let action := dict_get action_request "action" in
  if negb (truthy action) then ret false
  else
    let request := dict_get action_request "request" in
    if negb (truthy request) then
      send connected action ;;; ret true
    else
      template <- eval (TEMPLATES_get request) ;;
      if negb (truthy template) then ret false
      else
        let target := dict_get action_request "target" in
        if negb (truthy target) then ret false
        else
          fun self =>
            let counter := _action_counter self in
            (append (counter, action, request) ;;;
             m <- eval (py_mod py_repr template
                          (Tuple [VInt counter; target])) ;;
             send connected m ;;;
             increment ;;;
             ret true) self.

Fixpoint button_loop (connected : bool) (results : list document) : M unit :=
  match results with
  | [] => ret tt
  | result :: rest =>
      sent <- send_action connected result ;;
      if sent then ret tt else button_loop connected rest
  end.

Definition handle_midi_button (connected : bool) (type : string) (note : Z)
  : M unit :=
  fun self =>
    match search type note self with
    | [] => ret tt self
    | results => button_loop connected results self
    end.

Definition fader_message (result : document) (action : pyvalue) (value : Z)
  : outcome (option pyvalue) :=
  obind (doc_item result "cmd") (fun command =>
  obind (doc_item result "scale_low") (fun scale_low =>
  obind (doc_item result "scale_high") (fun scale_high =>
  obind (map_scale (VInt value) (VInt 0) (VInt 127) scale_low scale_high)
    (fun scaled =>
  if eq_str command "SetSourcePosition"
     || eq_str command "SetSourceScale" then
    obind (py_mod py_repr action (One scaled)) (fun m => Ok (Some m))
  else if eq_str command "SetVolume" then
    obind (cube scaled) (fun p =>
    obind (py_mod py_repr action (One p)) (fun m => Ok (Some m)))
  else if eq_str command "SetSourceRotation"
          || eq_str command "SetTransitionDuration"
          || eq_str command "SetSyncOffset" then
    obind (to_int scaled) (fun n =>
    obind (py_mod py_repr action (One n)) (fun m => Ok (Some m)))
  else Ok None)))).

Fixpoint fader_loop (connected : bool) (value : Z) (results : list document)
  : M unit :=
  match results with
  | [] => ret tt
  | result :: rest =>
      input_type <- eval (doc_item result "input_type") ;;
      action <- eval (doc_item result "action") ;;
      if eq_str input_type "button" then
        if value =? 127 then
          sent <- send_action connected result ;;
          if sent then ret tt else fader_loop connected value rest
        else ret tt
      else if eq_str input_type "fader" then
        found <- eval (fader_message result action value) ;;
        match found with
        | Some m => send connected m
        | None => fader_loop connected value rest
        end
      else fader_loop connected value rest
  end.

Definition handle_midi_fader (connected : bool) (control value : Z)
  : M unit :=
  fun self =>
    match search "control_change" control self with
    | [] => ret tt self
    | results => fader_loop connected value results self
    end.

Definition handle_midi_input (connected : bool) (msg : message) : M unit :=
  match msg with
  | note_on note _ => handle_midi_button connected "note_on" note
  | program_change program =>
      handle_midi_button connected "program_change" program
  | control_change control value => handle_midi_fader connected control value
  | other_type _ => ret tt
  end.

Fixpoint resolve_loop (connected : bool) (payload : pyvalue)
  (pending : list entry) : M unit :=
  match pending with
  | [] => ret tt
  | action :: rest =>
      let '(buffered_id, template, kind) := action in
      message_id <- eval (getitem payload "message-id") ;;
      n <- eval (py_int message_id) ;;
      if negb (buffered_id =? n) then resolve_loop connected payload rest
      else
        found <- eval (follow_up py_repr payload template kind) ;;
        match found with
        | Some m => send connected m
        | None => ret tt
        end ;;;
        remove action
  end.

Definition handle_obs_message (connected : bool) (payload : pyvalue)
  : M unit :=
  has_error <- eval (py_in "error" payload) ;;
  if has_error then
    reported <- eval (getitem payload "error") ;;
    ret tt
  else
    message_id <- eval (getitem payload "message-id") ;;
    fun self => resolve_loop connected payload (_action_buffer self) self.

(** One callback, with the state of the connection when it runs. *)
Definition dispatch (connected : bool) (i : input) : M unit :=
  match i with
  | Midi msg => handle_midi_input connected msg
  | Reply payload => handle_obs_message connected payload
  end.

(** The handler after a sequence of callbacks, each with the state of the
    connection at its time.  No handler is given where a callback took a
    path the embedding does not follow. *)
Fixpoint run (steps : list (bool * input)) (self : MidiHandler)
  : option MidiHandler :=
  match steps with
  | [] => Some self
  | (connected, i) :: rest =>
      match dispatch connected i self with
      | (Unmodelled, _) => None
      | (_, self') => run rest self'
      end
  end.

End Handlers.

End Live.

(** ** Vocabulary of the statements on doubles and on a closed connection *)

(** A number as the config file and the MIDI port deliver it: an integer,
    or a float that is a double. *)
Definition finite_number (v : pyvalue) : Prop :=
  match v with
  | VInt _ | VBool _ => True
  | VFloat q => is_double q
  | _ => False
  end.

(** A rational on the grid of the doubles: rounding leaves it as it is.
    Below [2^1024] in magnitude these are the values of the doubles. *)
Definition representable (q : Q) : Prop := (nearest q == q)%Q.

(** An action [send_action] can hand to the socket: a text, or a value it
    refuses as missing. *)
Definition textual (v : pyvalue) : bool :=
  match v with
  | VStr _ => true
  | _ => negb (truthy v)
  end.

(** The handler after an entry was registered and nothing else happened:
    no transmission, the counter as it was. *)
Definition stranded (self : MidiHandler) (action request : pyvalue)
  : MidiHandler :=
  {| db := db self;
     _action_buffer :=
       (_action_buffer self ++ [(_action_counter self, action, request)])%list;
     _action_counter := _action_counter self;
     obs_socket := obs_socket self;
     history :=
       (history self ++ [(_action_counter self, action, request)])%list |}.

(** The effect of one MIDI event while the connection is closed: nothing,
    or an entry registered for a request that was not transmitted. *)
Definition closed_effect (self self' : MidiHandler) : Prop :=
  self' = self \/
  exists action request template,
    truthy action = true /\
    assoc request TEMPLATES = Some template /\
    self' = stranded self action (VStr request).

(** The effect of one MIDI event, by the state of the connection. *)
Definition live_effect (connected : bool) (self self' : MidiHandler) : Prop :=
  if connected then midi_effect self self' else closed_effect self self'.

(** A [pow] that rounds to the nearest double. *)
Definition nearest_pow3 (q : Q) : outcome Q :=
  match round64 (q * q * q) with
  | Some r => Ok r
  | None => Raise OverflowError
  end.

(** A controller used as a button whose binding lost its action, before a
    working binding of the same controller. *)
Definition actionless_mute : document :=
  [ ("msg_type", VStr "control_change"); ("msgNoC", VInt 7);
    ("input_type", VStr "button") ].




(** * Properties *)

(** ** The value scaler *)



(** ** Equality of entries *)

Lemma value_eqb_refl (v : pyvalue) : value_eqb v v = true.
Proof.
  revert v. fix IH 1. intros [| b | n | q | s | l | d]; cbn [value_eqb].
  - reflexivity.
  - apply Bool.eqb_reflx.
  - apply Z.eqb_refl.
  - apply Qeq_bool_iff, Qeq_refl.
  - apply String.eqb_refl.
  - induction l as [|h t IHt]; [reflexivity|].
    rewrite (IH h), IHt. reflexivity.
  - induction d as [|[k h] t IHt]; [reflexivity|].
    rewrite String.eqb_refl, (IH h), IHt. reflexivity.
Qed.

Lemma entry_eqb_refl (e : entry) : entry_eqb e e = true.
Proof.
  destruct e as [[i a] r]. unfold entry_eqb.
  rewrite Z.eqb_refl, !value_eqb_refl. reflexivity.
Qed.

Lemma entry_eqb_id (e1 e2 : entry) :
  entry_id e1 <> entry_id e2 -> entry_eqb e1 e2 = false.
Proof.
  destruct e1 as [[i1 a1] r1], e2 as [[i2 a2] r2]. cbn. intros H.
  apply Z.eqb_neq in H. rewrite H. reflexivity.
Qed.

(** [remove] takes out the entry the scan stopped at when no earlier entry
    carries its id. *)
Lemma list_remove_middle (e : entry) (before after : list entry) :
  Forall (fun x => entry_id x <> entry_id e) before ->
  list_remove e (before ++ e :: after)%list = Some (before ++ after)%list.
Proof.
  induction 1 as [|x before Hx _ IH]; cbn.
  - rewrite entry_eqb_refl. reflexivity.
  - rewrite (entry_eqb_id x e Hx), IH. reflexivity.
Qed.

(** ** Formatting *)

Section FormattingFacts.

Variable py_repr : pyvalue -> string.

Lemma format_go_plain (s : string) (args : list pyvalue) :
  no_percent s = true -> format_go py_repr s args = Ok (s, args).
Proof.
  induction s as [|c s IH]; cbn; [reflexivity|].
  intros H. apply andb_prop in H as [Hc Hs].
  apply negb_true_iff in Hc. rewrite Hc, (IH Hs). reflexivity.
Qed.


Lemma TEMPLATES_envelope (request : string) :
  assoc request TEMPLATES = envelope_of request "%d" "%s".
Proof.
  unfold envelope_of. cbn [assoc TEMPLATES].
  rewrite (String.eqb_sym "ToggleSourceVisibility" request).
  rewrite (String.eqb_sym "ReloadBrowserSource" request).
  destruct (String.eqb request "ToggleSourceVisibility");
    [reflexivity|].
  destruct (String.eqb request "ReloadBrowserSource"); reflexivity.
Qed.

(** Both templates format with an integer and any target. *)
Lemma TEMPLATES_format (request template : string) (counter : Z)
  (target : pyvalue) :
  assoc request TEMPLATES = Some template ->
  exists text,
    envelope_of request (decimal counter) (py_str py_repr target) = Some text /\
    py_mod py_repr (VStr template) (Tuple [VInt counter; target]) =
    Ok (VStr text).
Proof.
  rewrite TEMPLATES_envelope. unfold envelope_of.
  destruct (String.eqb request "ToggleSourceVisibility").
  - intros [= <-]. eexists. split; reflexivity.
  - destruct (String.eqb request "ReloadBrowserSource"); [|discriminate].
    intros [= <-]. eexists. split; reflexivity.
Qed.

End FormattingFacts.

(** ** [send_action] *)

Section SendAction.

Variable py_repr : pyvalue -> string.

Lemma send_action_no_action (b : document) (self : MidiHandler) :
  truthy (dict_get b "action") = false ->
  send_action py_repr b self = (Ok false, self).
Proof. intros H. unfold send_action. rewrite H. reflexivity. Qed.

Lemma send_action_verbatim (b : document) (self : MidiHandler) :
  truthy (dict_get b "action") = true ->
  truthy (dict_get b "request") = false ->
  send_action py_repr b self =
  (Ok true, transmitted self (dict_get b "action")).
Proof. intros Ha Hr. unfold send_action. rewrite Ha, Hr. reflexivity. Qed.

Lemma send_action_no_template (b : document) (self : MidiHandler) :
  truthy (dict_get b "action") = true ->
  truthy (dict_get b "request") = true ->
  TEMPLATES_get (dict_get b "request") = Ok VNone ->
  send_action py_repr b self = (Ok false, self).
Proof.
  intros Ha Hr Ht. unfold send_action. rewrite Ha, Hr. cbn.
  unfold bind, eval. rewrite Ht. reflexivity.
Qed.

Lemma template_truthy (request template : string) :
  assoc request TEMPLATES = Some template ->
  truthy (VStr template) = true.
Proof.
  rewrite TEMPLATES_envelope. unfold envelope_of.
  destruct (String.eqb request "ToggleSourceVisibility").
  - intros [= <-]. reflexivity.
  - destruct (String.eqb request "ReloadBrowserSource"); [|discriminate].
    intros [= <-]. reflexivity.
Qed.

Lemma send_action_no_target (b : document) (self : MidiHandler)
  (request template : string) :
  truthy (dict_get b "action") = true ->
  dict_get b "request" = VStr request ->
  assoc request TEMPLATES = Some template ->
  truthy (dict_get b "target") = false ->
  send_action py_repr b self = (Ok false, self).
Proof.
  intros Ha Hr Ht Hg. unfold send_action. rewrite Ha, Hr.
  assert (Hreq : truthy (VStr request) = true).
  { destruct request; [discriminate Ht | reflexivity]. }
  rewrite Hreq. cbn [negb]. unfold bind, eval. cbn [TEMPLATES_get].
  rewrite Ht, (template_truthy _ _ Ht), Hg. reflexivity.
Qed.

Lemma send_action_tracked (b : document) (self : MidiHandler)
  (request template : string) :
  truthy (dict_get b "action") = true ->
  dict_get b "request" = VStr request ->
  assoc request TEMPLATES = Some template ->
  truthy (dict_get b "target") = true ->
  exists text,
    envelope_of request (decimal (_action_counter self))
      (py_str py_repr (dict_get b "target")) = Some text /\
    send_action py_repr b self =
    (Ok true,
     tracked self (dict_get b "action") (VStr request) (VStr text)).
Proof.
  intros Ha Hr Ht Hg.
  destruct (TEMPLATES_format py_repr request template
              (_action_counter self) (dict_get b "target") Ht)
    as [text [Henv Hfmt]].
  exists text. split; [exact Henv|].
  unfold send_action. rewrite Ha, Hr.
  assert (Hreq : truthy (VStr request) = true).
  { destruct request; [discriminate Ht | reflexivity]. }
  rewrite Hreq. cbn [negb]. unfold bind, eval. cbn [TEMPLATES_get].
  rewrite Ht, (template_truthy _ _ Ht), Hg. cbn [negb append send fst snd].
  cbn [_action_counter]. rewrite Hfmt. reflexivity.
Qed.

End SendAction.

(** ** The tracker invariant *)

Lemma first_ids_snoc (n : nat) :
  first_ids (S n) = (first_ids n ++ [Z.of_nat n + 2])%list.
Proof. unfold first_ids. rewrite seq_S, map_app. reflexivity. Qed.


Lemma increasing_NoDup (l : list Z) : StronglySorted Z.lt l -> NoDup l.
Proof.
  induction 1 as [|a l _ IH Ha]; constructor; [|exact IH].
  intros Hin. rewrite Forall_forall in Ha. specialize (Ha a Hin). lia.
Qed.

Lemma invariant_init (config : list document) :
  tracker_invariant (init config).
Proof. repeat split. constructor. Qed.

Lemma invariant_evolves (s s' : MidiHandler) :
  evolves s s' -> tracker_invariant s -> tracker_invariant s'.
Proof.
  induction 1 as [s|s m|s a r m|s l Hl|s1 s2 s3 _ IH1 _ IH2];
    [tauto | exact (fun H => H) | | | tauto].
  - intros (Hc & Hi & Hb). unfold tracker_invariant.
    cbn [tracked _action_counter history _action_buffer].
    rewrite length_app. cbn [length]. rewrite Nat.add_1_r.
    repeat split.
    + lia.
    + unfold ids in *. rewrite map_app, first_ids_snoc, Hi.
      cbn [map entry_id fst]. rewrite Hc. reflexivity.
    + apply Forall_app. split.
      * eapply Forall_impl; [|exact Hb]. intros e He.
        apply in_or_app. left. exact He.
      * repeat constructor. apply in_or_app. right. left. reflexivity.
  - intros (Hc & Hi & Hb). unfold tracker_invariant. cbn.
    split; [exact Hc|]. split; [exact Hi|].
    apply Forall_forall. intros e He.
    rewrite Forall_forall in Hb. apply Hb, Hl, He.
Qed.

(** ** Effects of the methods *)

Lemma steady_ret {A} (a : A) : steady (ret a).
Proof. intros self. apply evolves_refl. Qed.

Lemma steady_eval {A} (o : outcome A) : steady (eval o).
Proof. intros self. apply evolves_refl. Qed.

Lemma steady_bind {A B} (m : M A) (k : A -> M B) :
  steady m -> (forall a, steady (k a)) -> steady (bind m k).
Proof.
  intros Hm Hk self. unfold bind. specialize (Hm self).
  destruct (m self) as [[a | e |] s1]; cbn in *; try exact Hm.
  eapply evolves_trans; [exact Hm | apply Hk].
Qed.

Lemma steady_send (m : pyvalue) : steady (send m).
Proof. intros self. apply evolves_transmit. Qed.

Lemma list_remove_incl (e : entry) (l l' : list entry) :
  list_remove e l = Some l' -> incl l' l.
Proof.
  revert l'. induction l as [|x l IH]; cbn; [discriminate|].
  intros l'. destruct (entry_eqb x e).
  - intros [= <-]. apply incl_tl, incl_refl.
  - destruct (list_remove e l) as [r|]; [|discriminate].
    intros [= <-]. apply incl_cons; [left; reflexivity|].
    apply incl_tl, IH. reflexivity.
Qed.

Lemma steady_remove (e : entry) : steady (remove e).
Proof.
  intros self. unfold remove.
  destruct (list_remove e (_action_buffer self)) as [l|] eqn:E; cbn.
  - apply (evolves_discard self l), (list_remove_incl _ _ _ E).
  - apply evolves_refl.
Qed.

Section Dispatcher.

Variable py_repr : pyvalue -> string.

(** Every outcome of [send_action]: refused without effect, raised without
    effect, transmitted the action, or registered and transmitted a tracked
    request. *)
Lemma send_action_shape (b : document) (self : MidiHandler) :
  send_action py_repr b self = (Ok false, self) \/
  (send_action py_repr b self = (Raise TypeError, self) /\
   hashable (dict_get b "request") = false) \/
  (exists m, send_action py_repr b self = (Ok true, transmitted self m)) \/
  (exists action request m,
     send_action py_repr b self =
     (Ok true, tracked self action request m)).
Proof.
  destruct (truthy (dict_get b "action")) eqn:Ha;
    [|left; apply send_action_no_action; exact Ha].
  destruct (truthy (dict_get b "request")) eqn:Hr;
    [|right; right; left; eexists; apply send_action_verbatim; assumption].
  destruct (dict_get b "request") as [| x | n | q | request | l | d] eqn:Hreq;
    try (left; apply send_action_no_template;
         [exact Ha | rewrite Hreq; exact Hr | rewrite Hreq; reflexivity]).
  - destruct (assoc request TEMPLATES) as [template|] eqn:Ht.
    + destruct (truthy (dict_get b "target")) eqn:Hg.
      * right; right; right.
        destruct (send_action_tracked py_repr b self request template
                    Ha Hreq Ht Hg) as [text [_ H]].
        do 3 eexists. exact H.
      * left. eapply send_action_no_target; eassumption.
    + left. apply send_action_no_template;
        [exact Ha | rewrite Hreq; exact Hr |].
      rewrite Hreq. cbn [TEMPLATES_get]. rewrite Ht. reflexivity.
  - right; left. split; [|reflexivity].
    unfold send_action. rewrite Ha, Hreq, Hr. reflexivity.
  - right; left. split; [|reflexivity].
    unfold send_action. rewrite Ha, Hreq, Hr. reflexivity.
Qed.

Lemma send_action_refused (b : document) (self : MidiHandler) :
  fst (send_action py_repr b self) = Ok false ->
  send_action py_repr b self = (Ok false, self).
Proof.
  destruct (send_action_shape b self)
    as [H | [[H _] | [[m H] | [a [r [m H]]]]]];
    rewrite H; cbn; intros E; try discriminate E; reflexivity.
Qed.

Lemma send_action_accepted (b : document) (self : MidiHandler) :
  fst (send_action py_repr b self) = Ok true ->
  exists m,
    obs_socket (snd (send_action py_repr b self)) =
    (obs_socket self ++ [m])%list.
Proof.
  destruct (send_action_shape b self)
    as [H | [[H _] | [[m H] | [a [r [m H]]]]]];
    rewrite H; cbn; intros E; try discriminate E; exists m; reflexivity.
Qed.

Lemma steady_send_action (b : document) : steady (send_action py_repr b).
Proof.
  intros self.
  destruct (send_action_shape b self)
    as [H | [[H _] | [[m H] | [a [r [m H]]]]]]; rewrite H; cbn.
  - apply evolves_refl.
  - apply evolves_refl.
  - apply evolves_transmit.
  - apply evolves_track.
Qed.

Lemma steady_button_loop (results : list document) :
  steady (button_loop py_repr results).
Proof.
  induction results as [|b rest IH]; cbn [button_loop].
  - apply steady_ret.
  - apply steady_bind; [apply steady_send_action|].
    intros [|]; [apply steady_ret | exact IH].
Qed.

Lemma steady_fader_loop (value : Z) (results : list document) :
  steady (fader_loop py_repr value results).
Proof.
  induction results as [|b rest IH]; cbn [fader_loop].
  - apply steady_ret.
  - apply steady_bind; [apply steady_eval|]. intros input_type.
    apply steady_bind; [apply steady_eval|]. intros action.
    destruct (eq_str input_type "button").
    + destruct (value =? 127); [|apply steady_ret].
      apply steady_bind; [apply steady_send_action|].
      intros [|]; [apply steady_ret | exact IH].
    + destruct (eq_str input_type "fader"); [|exact IH].
      apply steady_bind; [apply steady_eval|].
      intros [m|]; [apply steady_send | exact IH].
Qed.

Lemma steady_resolve_loop (payload : pyvalue) (pending : list entry) :
  steady (resolve_loop py_repr payload pending).
Proof.
  induction pending as [|[[buffered_id template] kind] rest IH];
    cbn [resolve_loop].
  - apply steady_ret.
  - apply steady_bind; [apply steady_eval|]. intros message_id.
    apply steady_bind; [apply steady_eval|]. intros n.
    destruct (negb (buffered_id =? n)); [exact IH|].
    apply steady_bind; [apply steady_eval|]. intros found.
    apply steady_bind; [|intros _; apply steady_remove].
    destruct found as [m|]; [apply steady_send | apply steady_ret].
Qed.

Lemma steady_dispatch (i : input) : steady (dispatch py_repr i).
Proof.
  destruct i as [msg | payload]; cbn [dispatch].
  - destruct msg; cbn [handle_midi_input]; try apply steady_ret;
      intros self; unfold handle_midi_button, handle_midi_fader;
      match goal with
      | |- context [search ?t ?n self] => destruct (search t n self)
      end;
      first [ apply steady_ret
            | apply steady_button_loop
            | apply steady_fader_loop ].
  - unfold handle_obs_message.
    apply steady_bind; [apply steady_eval|]. intros [|].
    + apply steady_bind; [apply steady_eval|]. intros _. apply steady_ret.
    + apply steady_bind; [apply steady_eval|]. intros _ self.
      apply steady_resolve_loop.
Qed.

(** The invariant holds throughout the life of a handler. *)
Lemma run_invariant (inputs : list input) (self : MidiHandler) :
  tracker_invariant self -> tracker_invariant (run py_repr inputs self).
Proof.
  revert self. induction inputs as [|i rest IH]; intros self H; cbn [run].
  - exact H.
  - apply IH. eapply invariant_evolves; [apply steady_dispatch | exact H].
Qed.

End Dispatcher.

(** ** The dispatcher *)

Section Claims.

Variable py_repr : pyvalue -> string.



Lemma handle_midi_button_loop (type : string) (note : Z)
  (self : MidiHandler) :
  handle_midi_button py_repr type note self =
  button_loop py_repr (search type note self) self.
Proof.
  unfold handle_midi_button. destruct (search type note self); reflexivity.
Qed.

Lemma button_loop_chain (failing : list document) (b : document)
  (rest : list document) (self : MidiHandler) :
  Forall (fun x => fst (send_action py_repr x self) = Ok false) failing ->
  fst (send_action py_repr b self) = Ok true ->
  button_loop py_repr (failing ++ b :: rest)%list self =
  (Ok tt, snd (send_action py_repr b self)).
Proof.
  intros Hf Hb. induction Hf as [|x failing Hx _ IH]; cbn [app button_loop].
  - unfold bind. destruct (send_action py_repr b self) as [o s].
    cbn in Hb. subst o. reflexivity.
  - unfold bind at 1. rewrite (send_action_refused py_repr x self Hx).
    exact IH.
Qed.

Lemma button_loop_exhausted (results : list document) (self : MidiHandler) :
  Forall (fun x => fst (send_action py_repr x self) = Ok false) results ->
  button_loop py_repr results self = (Ok tt, self).
Proof.
  induction 1 as [|x results Hx _ IH]; cbn [button_loop]; [reflexivity|].
  unfold bind at 1. rewrite (send_action_refused py_repr x self Hx).
  exact IH.
Qed.

(** C2: a [note_on] or [program_change] event goes to [handle_midi_button]
    with its type and key.  Without a binding nothing is transmitted and
    nothing is raised.  Otherwise the candidates are tried in stored order:
    a candidate [send_action] refuses leaves the handler as it was and the
    scan goes on; at the first candidate it accepts the scan stops, and the
    outbox holds exactly one more message, that candidate's. *)
Theorem button_fallback_chain (type : string) (note : Z)
  (self : MidiHandler) :
  (forall velocity,
     handle_midi_input py_repr (note_on note velocity) =
     handle_midi_button py_repr "note_on" note) /\
  handle_midi_input py_repr (program_change note) =
  handle_midi_button py_repr "program_change" note /\
  (search type note self = [] ->
   handle_midi_button py_repr type note self = (Ok tt, self)) /\
  (forall failing b rest,
     search type note self = (failing ++ b :: rest)%list ->
     Forall (fun x => fst (send_action py_repr x self) = Ok false) failing ->
     fst (send_action py_repr b self) = Ok true ->
     handle_midi_button py_repr type note self =
     (Ok tt, snd (send_action py_repr b self)) /\
     exists m,
       obs_socket (snd (send_action py_repr b self)) =
       (obs_socket self ++ [m])%list) /\
  (Forall (fun x => fst (send_action py_repr x self) = Ok false)
     (search type note self) ->
   handle_midi_button py_repr type note self = (Ok tt, self)).
Proof.
  split; [reflexivity|]. split; [reflexivity|].
  rewrite handle_midi_button_loop.
  split; [intros ->; reflexivity|].
  split.
  - intros failing b rest -> Hf Hb.
    split; [apply button_loop_chain; assumption|].
    apply send_action_accepted. exact Hb.
  - apply button_loop_exhausted.
Qed.

Lemma fader_loop_button (b : document) (rest : list document) (value : Z)
  (self : MidiHandler) :
  button_binding b ->
  fader_loop py_repr value (b :: rest) self =
  if value =? 127 then
    (sent <- send_action py_repr b ;;
     if sent then ret tt else fader_loop py_repr value rest) self
  else (Ok tt, self).
Proof.
  intros [[kind [Hk Hkind]] [action Ha]]. cbn [fader_loop].
  unfold bind at 1, eval at 1, doc_item. rewrite Hk.
  unfold bind at 1, eval at 1. rewrite Ha, Hkind.
  destruct (value =? 127); reflexivity.
Qed.

Lemma eq_str_true (v : pyvalue) (s : string) :
  eq_str v s = true -> v = VStr s.
Proof.
  destruct v; cbn; try discriminate.
  intros H. apply String.eqb_eq in H. subst. reflexivity.
Qed.

(** ** The reply resolver *)

Lemma resolve_loop_unmatched (d : document) (message_id : pyvalue)
  (pending : list entry) (self : MidiHandler) :
  lookup "message-id" d = Some message_id ->
  Forall (fun e => exists n, py_int message_id = Ok n /\ entry_id e <> n)
    pending ->
  resolve_loop py_repr (VDict d) pending self = (Ok tt, self).
Proof.
  intros Hm. induction 1 as [|[[i template] kind] pending [n [Hn Hi]] _ IH];
    cbn [resolve_loop]; [reflexivity|].
  unfold bind at 1, eval at 1, getitem, doc_item. rewrite Hm.
  unfold bind at 1, eval at 1. rewrite Hn.
  cbn in Hi. apply Z.eqb_neq in Hi. rewrite Hi. exact IH.
Qed.

Lemma resolve_loop_matched (d : document) (message_id : pyvalue) (n : Z)
  (before after : list entry) (template kind : pyvalue)
  (self : MidiHandler) :
  lookup "message-id" d = Some message_id ->
  py_int message_id = Ok n ->
  Forall (fun e => entry_id e <> n) before ->
  resolve_loop py_repr (VDict d)
    (before ++ (n, template, kind) :: after)%list self =
  (found <- eval (follow_up py_repr (VDict d) template kind) ;;
   match found with
   | Some m => send m
   | None => ret tt
   end ;;;
   remove (n, template, kind)) self.
Proof.
  intros Hm Hn. induction 1 as [|[[i t] k] before Hi _ IH];
    cbn [app resolve_loop].
  - unfold bind at 1, eval at 1, getitem, doc_item. rewrite Hm.
    unfold bind at 1, eval at 1. rewrite Hn, Z.eqb_refl. reflexivity.
  - unfold bind at 1, eval at 1, getitem, doc_item. rewrite Hm.
    unfold bind at 1, eval at 1. rewrite Hn.
    cbn in Hi. apply Z.eqb_neq in Hi. rewrite Hi. exact IH.
Qed.

(** A reply without error field whose id is that of a pending entry, the
    first with this id: the follow-up is transmitted and this entry, and no
    other, leaves the buffer. *)
Lemma handle_obs_message_matched (d : document) (message_id : pyvalue)
  (n : Z) (before after : list entry) (template kind m : pyvalue)
  (self : MidiHandler) :
  lookup "error" d = None ->
  lookup "message-id" d = Some message_id ->
  py_int message_id = Ok n ->
  _action_buffer self = (before ++ (n, template, kind) :: after)%list ->
  Forall (fun e => entry_id e <> n) before ->
  follow_up py_repr (VDict d) template kind = Ok (Some m) ->
  handle_obs_message py_repr (VDict d) self =
  (Ok tt, with_buffer (transmitted self m) (before ++ after)%list).
Proof.
  intros He Hm Hn Hbuf Hbefore Hf. unfold handle_obs_message.
  unfold bind at 1, eval at 1, py_in. rewrite He.
  unfold bind at 1, eval at 1, getitem, doc_item. rewrite Hm, Hbuf.
  rewrite (resolve_loop_matched d message_id n before after template kind
             self Hm Hn Hbefore).
  unfold bind, eval. rewrite Hf. cbn [send fst snd]. unfold remove.
  cbn [_action_buffer]. rewrite Hbuf.
  pose proof (list_remove_middle (n, template, kind) before after Hbefore)
    as Hremove.
  unfold entry in *. rewrite Hremove. reflexivity.
Qed.

(** The follow-up of a visibility toggle: the inverse of [visible], as the
    literal [false] or [true], in the slot of the stored action. *)
Lemma follow_up_visibility (d : document) (template visible : pyvalue) :
  lookup "visible" d = Some visible ->
  follow_up py_repr (VDict d) template (VStr "ToggleSourceVisibility") =
  obind (py_mod py_repr template
           (One (VStr (if truthy visible then "false" else "true"))))
        (fun m => Ok (Some m)).
Proof.
  intros Hv. unfold follow_up.
  change (eq_str (VStr "ToggleSourceVisibility") "ToggleSourceVisibility")
    with true.
  cbv iota. unfold getitem, doc_item. rewrite Hv. reflexivity.
Qed.

Lemma str_last_snoc (s : string) (c : ascii) :
  str_last (s ++ String c EmptyString) = Some c.
Proof.
  induction s as [|a s IH]; [reflexivity|].
  change (String a s ++ String c EmptyString)
    with (String a (s ++ String c EmptyString)).
  destruct (s ++ String c EmptyString) as [|a' s'] eqn:E.
  - destruct s; discriminate E.
  - exact IH.
Qed.

Lemma str_init_snoc (s : string) (c : ascii) :
  str_init (s ++ String c EmptyString) = s.
Proof.
  induction s as [|a s IH]; [reflexivity|].
  change (String a s ++ String c EmptyString)
    with (String a (s ++ String c EmptyString)).
  destruct (s ++ String c EmptyString) as [|a' s'] eqn:E.
  - destruct s; discriminate E.
  - change (String a (str_init (String a' s')) = String a s).
    rewrite IH. reflexivity.
Qed.

(** The follow-up of a browser reload: the url without its final [#], or
    with a [#] added when its last character is another one. *)
Lemma follow_up_reload (d settings : document) (template : pyvalue)
  (url : string) :
  lookup "sourceSettings" d = Some (VDict settings) ->
  lookup "url" settings = Some (VStr url) ->
  (forall stem, url = stem ++ "#" ->
     follow_up py_repr (VDict d) template (VStr "ReloadBrowserSource") =
     obind (py_mod py_repr template (One (VStr stem)))
           (fun m => Ok (Some m))) /\
  (forall stem c, url = stem ++ String c EmptyString ->
     Ascii.eqb c "#" = false ->
     follow_up py_repr (VDict d) template (VStr "ReloadBrowserSource") =
     obind (py_mod py_repr template (One (VStr (url ++ "#"))))
           (fun m => Ok (Some m))).
Proof.
  intros Hs Hu. unfold follow_up.
  change (eq_str (VStr "ReloadBrowserSource") "ToggleSourceVisibility")
    with false.
  change (eq_str (VStr "ReloadBrowserSource") "ReloadBrowserSource")
    with true.
  cbv iota. unfold getitem, doc_item. rewrite Hs. cbn [obind].
  rewrite Hu. cbn [obind last_item].
  split.
  - intros stem ->. rewrite str_last_snoc. cbn [obind].
    change (eq_str (VStr "#") "#") with true. cbv iota.
    cbn [slice_init obind]. rewrite str_init_snoc. reflexivity.
  - intros stem c -> Hc. rewrite str_last_snoc. cbn [obind].
    assert (E : eq_str (VStr (String c EmptyString)) "#" = false).
    { cbn. rewrite Hc. reflexivity. }
    rewrite E. reflexivity.
Qed.

(** C7: a reply that carries a top-level [error] field, and a reply whose
    [message-id] is the id of no pending entry (it reads as an integer that
    differs from the id of every pending entry; with nothing pending it is
    not read at all), transmit nothing and leave the handler, its pending
    entries included, as it was. *)
Theorem unresolved_reply_ignored (d : document) (self : MidiHandler) :
  (forall reported,
     lookup "error" d = Some reported ->
     handle_obs_message py_repr (VDict d) self = (Ok tt, self)) /\
  (forall message_id,
     lookup "error" d = None ->
     lookup "message-id" d = Some message_id ->
     Forall (fun e => exists n, py_int message_id = Ok n /\ entry_id e <> n)
       (_action_buffer self) ->
     handle_obs_message py_repr (VDict d) self = (Ok tt, self)).
Proof.
  split.
  - intros reported He. unfold handle_obs_message.
    unfold bind, eval, py_in, getitem, doc_item. rewrite He. reflexivity.
  - intros message_id He Hm Hids. unfold handle_obs_message.
    unfold bind at 1, eval at 1, py_in. rewrite He.
    unfold bind at 1, eval at 1, getitem, doc_item. rewrite Hm.
    apply (resolve_loop_unmatched d message_id _ self Hm Hids).
Qed.

(** ** Ids of entries *)

Lemma ids_incl (l l' : list entry) :
  Forall (fun e => In e l') l -> incl (ids l) (ids l').
Proof.
  intros H x Hx. unfold ids in *.
  apply in_map_iff in Hx as [e [<- He]].
  apply in_map. rewrite Forall_forall in H. apply H, He.
Qed.

(** ** A scan that returns *)

Lemma button_loop_returns (results : list document) (self : MidiHandler) :
  Forall (fun b => hashable (dict_get b "request") = true) results ->
  exists self', button_loop py_repr results self = (Ok tt, self').
Proof.
  intros H. revert self.
  induction H as [|b rest Hb _ IH]; intros self; cbn [button_loop].
  - eexists. reflexivity.
  - unfold bind.
    destruct (send_action_shape py_repr b self)
      as [E | [[E F] | [[m E] | [a [r [m E]]]]]]; rewrite E.
    + apply IH.
    + congruence.
    + eexists. reflexivity.
    + eexists. reflexivity.
Qed.

End Claims.

(** * The statements at the sample configuration *)


(** The pad with a broken binding before a working one: the working one is
    transmitted, alone. *)
Lemma button_fallback_chain_witness :
  let self := init [broken_button; scene_button] in
  search "note_on" 36 self = ([broken_button] ++ scene_button :: [])%list /\
  Forall (fun x => fst (send_action sample_repr x self) = Ok false)
    [broken_button] /\
  fst (send_action sample_repr scene_button self) = Ok true /\
  handle_midi_button sample_repr "note_on" 36 self =
  (Ok tt, snd (send_action sample_repr scene_button self)) /\
  obs_socket (snd (send_action sample_repr scene_button self)) =
  [VStr "scene"] /\
  handle_midi_button sample_repr "note_on" 37 self = (Ok tt, self).
Proof.
  intros self.
  assert (Hsearch : search "note_on" 36 self =
                    ([broken_button] ++ scene_button :: [])%list)
    by reflexivity.
  assert (Hfail : Forall (fun x => fst (send_action sample_repr x self) =
                                   Ok false) [broken_button])
    by (repeat constructor).
  assert (Hok : fst (send_action sample_repr scene_button self) = Ok true)
    by reflexivity.
  destruct (button_fallback_chain sample_repr "note_on" 36 self)
    as (_ & _ & _ & Hchain & _).
  destruct (Hchain [broken_button] scene_button [] Hsearch Hfail Hok)
    as [Hrun _].
  destruct (button_fallback_chain sample_repr "note_on" 37 self)
    as (_ & _ & Hnone & _).
  split; [exact Hsearch|]. split; [exact Hfail|]. split; [exact Hok|].
  split; [exact Hrun|]. split; [reflexivity|].
  exact (Hnone eq_refl).
Defined.

(** An error reply and a reply with the id 1, with one entry pending. *)
Lemma unresolved_reply_ignored_witness :
  lookup "error" error_reply = Some (VStr "source not found") /\
  handle_obs_message sample_repr (VDict error_reply) reload_pending =
  (Ok tt, reload_pending) /\
  Forall (fun e => exists n, py_int (VStr "1") = Ok n /\ entry_id e <> n)
    (_action_buffer reload_pending) /\
  handle_obs_message sample_repr (settings_reply "1" "http://x")
    reload_pending = (Ok tt, reload_pending) /\
  handle_obs_message sample_repr (settings_reply "scene" "http://x")
    (init []) = (Ok tt, init []).
Proof.
  assert (Hids : Forall (fun e => exists n, py_int (VStr "1") = Ok n /\
                                            entry_id e <> n)
                   (_action_buffer reload_pending)).
  { constructor; [|constructor]. exists 1. split; [reflexivity|discriminate]. }
  split; [reflexivity|].
  split.
  - exact (proj1 (unresolved_reply_ignored sample_repr error_reply
                    reload_pending) (VStr "source not found") eq_refl).
  - split; [exact Hids|]. split.
    + exact (proj2 (unresolved_reply_ignored sample_repr
                      (settings "1" "http://x") reload_pending)
               (VStr "1") eq_refl eq_refl Hids).
    + exact (proj2 (unresolved_reply_ignored sample_repr
                      (settings "scene" "http://x") (init []))
               (VStr "scene") eq_refl eq_refl (Forall_nil _)).
Defined.


(** ** The round trip of a tracked request *)

(** The reload pad, then the settings of the source: the follow-up carries
    the url without its marker, and the pending entry is gone. *)
Example reload_round_trip :
  length (_action_buffer reload_pending) = 1%nat /\
  handle_obs_message sample_repr (settings_reply "2" "http://x#")
    reload_pending =
  (Ok tt, with_buffer (transmitted reload_pending (VStr "tplhttp://x")) []).
Proof. split; reflexivity. Qed.

(** A url without marker gets one. *)
Example reload_marker_added :
  handle_obs_message sample_repr (settings_reply "2" "http://x")
    reload_pending =
  (Ok tt, with_buffer (transmitted reload_pending (VStr "tplhttp://x#")) []).
Proof. reflexivity. Qed.

(** A visible item is hidden, a hidden one shown. *)
Example toggle_round_trip :
  let pending :=
    run sample_repr [Midi (note_on 41 100)] (init [toggle_button]) in
  handle_obs_message sample_repr
    (VDict [("message-id", VStr "2"); ("visible", VBool true)]) pending =
  (Ok tt, with_buffer (transmitted pending (VStr "show=false")) []) /\
  handle_obs_message sample_repr
    (VDict [("message-id", VStr "2"); ("visible", VBool false)]) pending =
  (Ok tt, with_buffer (transmitted pending (VStr "show=true")) []).
Proof. split; reflexivity. Qed.

(** C6, at the failing input: the settings of a browser source whose url is
    the empty string, in reply to the pending reload with id 2.  The marker
    is absent, so the specification has the follow-up carry the url with the
    marker added, [tpl#], and the entry removed; [source[-1]] raises
    [IndexError] instead, nothing is transmitted and the entry stays
    pending. *)
Theorem reload_empty_url_raises :
  _action_buffer reload_pending =
  [(2, VStr "tpl%s", VStr "ReloadBrowserSource")] /\
  handle_obs_message sample_repr (settings_reply "2" EmptyString)
    reload_pending = (Raise IndexError, reload_pending) /\
  handle_obs_message sample_repr (settings_reply "2" EmptyString)
    reload_pending <>
  (Ok tt, with_buffer (transmitted reload_pending (VStr "tpl#")) []) /\
  length (_action_buffer
            (snd (handle_obs_message sample_repr
                    (settings_reply "2" EmptyString) reload_pending))) = 1%nat.
Proof.
  split; [reflexivity|]. split; [reflexivity|].
  split; [discriminate|reflexivity].
Qed.

(** * Further properties *)

(** ** Integers as text *)

Lemma digit_chars (d : Decimal.uint) :
  all_chars is_digit (NilEmpty.string_of_uint d) = true.
Proof. induction d; cbn; auto. Qed.

Lemma digits_value_acc (d : Decimal.uint) (p : positive) :
  digits_value (Z.pos p) (NilEmpty.string_of_uint d) =
  Z.pos (Pos.of_uint_acc d p).
Proof.
  revert p. induction d; intros p; cbn [NilEmpty.string_of_uint digits_value
                                         Pos.of_uint_acc];
    [reflexivity| | | | | | | | | |];
    match goal with
    | |- digits_value ?a _ = Z.pos (Pos.of_uint_acc _ ?q) =>
        replace a with (Z.pos q)
          by (rewrite ?Pos2Z.inj_add, ?Pos2Z.inj_mul;
              unfold digit_value;
              match goal with
              | |- context [nat_of_ascii ?c] =>
                  let v := eval vm_compute in (nat_of_ascii c) in
                  change (nat_of_ascii c) with v
              end; lia)
    end; apply IHd.
Qed.

Lemma digits_value_uint (d : Decimal.uint) :
  digits_value 0 (NilEmpty.string_of_uint d) = Z.of_N (Pos.of_uint d).
Proof.
  induction d; cbn [NilEmpty.string_of_uint digits_value Pos.of_uint];
    [reflexivity | exact IHd | | | | | | | | |];
    match goal with
    | |- digits_value ?a _ = Z.of_N (N.pos (Pos.of_uint_acc _ ?q)) =>
        change a with (Z.pos q)
    end; apply digits_value_acc.
Qed.

Lemma parse_digits_uint (p : positive) :
  parse_digits (NilEmpty.string_of_uint (Pos.to_uint p)) = Some (Z.pos p).
Proof.
  unfold parse_digits.
  rewrite digit_chars, digits_value_uint, DecimalPos.Unsigned.of_to.
  destruct (NilEmpty.string_of_uint (Pos.to_uint p)) eqn:E; [|reflexivity].
  exfalso. apply (Unsigned.to_uint_nonnil p).
  destruct (Pos.to_uint p); cbn in E; try discriminate E. reflexivity.
Qed.

(** What [decimal] writes, [int] reads back. *)
Lemma int_of_str_decimal (n : Z) : int_of_str (decimal n) = Ok n.
Proof.
  unfold decimal. destruct n as [|p|p]; cbn [Z.to_int NilZero.string_of_int].
  - reflexivity.
  - assert (H : NilZero.string_of_uint (Pos.to_uint p) =
                NilEmpty.string_of_uint (Pos.to_uint p)).
    { pose proof (Unsigned.to_uint_nonnil p) as Hn.
      destruct (Pos.to_uint p); [contradiction|reflexivity..]. }
    rewrite H. pose proof (parse_digits_uint p) as Hp.
    unfold int_of_str.
    destruct (Pos.to_uint p); cbn [NilEmpty.string_of_uint] in *;
      first [discriminate Hp | rewrite Hp; reflexivity].
  - assert (H : NilZero.string_of_uint (Pos.to_uint p) =
                NilEmpty.string_of_uint (Pos.to_uint p)).
    { pose proof (Unsigned.to_uint_nonnil p) as Hn.
      destruct (Pos.to_uint p); [contradiction|reflexivity..]. }
    rewrite H. unfold int_of_str.
    rewrite (parse_digits_uint p). reflexivity.
Qed.

(** X1: the text [%d] writes for an integer, the counter in the envelope of
    a tracked request, is read back by [int] as the same integer. *)
Theorem counter_text_round_trip (n : Z) :
  exists text,
    format_d (VInt n) = Ok text /\ py_int (VStr text) = Ok n.
Proof.
  exists (decimal n). split; [reflexivity|]. apply int_of_str_decimal.
Qed.

(** ** Effects, one callback at a time *)

Section Effects.

Variable py_repr : pyvalue -> string.

(** [send_action] with what it registers: a refusal or an exception has no
    effect; a tracked request registers an action that is not empty under a
    request that has a template. *)
Lemma send_action_effect (b : document) (self : MidiHandler) :
  (fst (send_action py_repr b self) <> Ok true /\
   snd (send_action py_repr b self) = self) \/
  (fst (send_action py_repr b self) = Ok true /\
   exists m, snd (send_action py_repr b self) = transmitted self m) \/
  (fst (send_action py_repr b self) = Ok true /\
   exists action request template text,
     truthy action = true /\
     assoc request TEMPLATES = Some template /\
     snd (send_action py_repr b self) =
     tracked self action (VStr request) (VStr text)).
Proof.
  destruct (truthy (dict_get b "action")) eqn:Ha.
  2:{ left. rewrite (send_action_no_action py_repr b self Ha).
      split; [discriminate | reflexivity]. }
  destruct (truthy (dict_get b "request")) eqn:Hr.
  2:{ right; left. rewrite (send_action_verbatim py_repr b self Ha Hr).
      split; [reflexivity | eexists; reflexivity]. }
  destruct (dict_get b "request") as [| x | n | q | request | l | d] eqn:Hreq;
    try (left;
         rewrite (send_action_no_template py_repr b self Ha);
         [split; [discriminate | reflexivity]
         | rewrite Hreq; exact Hr | rewrite Hreq; reflexivity]).
  - destruct (assoc request TEMPLATES) as [template|] eqn:Ht.
    + destruct (truthy (dict_get b "target")) eqn:Hg.
      * right; right.
        destruct (send_action_tracked py_repr b self request template
                    Ha Hreq Ht Hg) as [text [_ H]].
        rewrite H. split; [reflexivity|].
        exists (dict_get b "action"), request, template, text. auto.
      * left.
        rewrite (send_action_no_target py_repr b self request template
                   Ha Hreq Ht Hg).
        split; [discriminate | reflexivity].
    + left. rewrite (send_action_no_template py_repr b self Ha);
        [split; [discriminate | reflexivity] | rewrite Hreq; exact Hr |].
      rewrite Hreq. cbn [TEMPLATES_get]. rewrite Ht. reflexivity.
  - left. unfold send_action. rewrite Ha, Hreq, Hr.
    split; [discriminate | reflexivity].
  - left. unfold send_action. rewrite Ha, Hreq, Hr.
    split; [discriminate | reflexivity].
Qed.

(** A scan of the button chain: an outcome other than a return leaves the
    handler as it was, and a return has had at most one effect. *)
Lemma button_loop_effect (results : list document) (self : MidiHandler) :
  (fst (button_loop py_repr results self) = Ok tt \/
   snd (button_loop py_repr results self) = self) /\
  midi_effect self (snd (button_loop py_repr results self)).
Proof.
  induction results as [|b rest IH]; cbn [button_loop].
  - split; [left; reflexivity | left; reflexivity].
  - unfold bind.
    destruct (send_action_effect b self)
      as [[Hf Hs] | [[Hf [m Hs]] | [Hf (a & r & t & x & Ha & Ht & Hs)]]];
      destruct (send_action py_repr b self) as [o s]; cbn in Hf, Hs; subst.
    + destruct o as [[|] | e |].
      * contradiction.
      * exact IH.
      * split; [right; reflexivity | left; reflexivity].
      * split; [right; reflexivity | left; reflexivity].
    + split; [left; reflexivity|]. right; left. exists m. reflexivity.
    + split; [left; reflexivity|]. right; right.
      exists a, r, t, x. auto.
Qed.

Lemma fader_loop_effect (value : Z) (results : list document)
  (self : MidiHandler) :
  (fst (fader_loop py_repr value results self) = Ok tt \/
   snd (fader_loop py_repr value results self) = self) /\
  midi_effect self (snd (fader_loop py_repr value results self)).
Proof.
  induction results as [|b rest IH]; cbn [fader_loop].
  - split; [left; reflexivity | left; reflexivity].
  - destruct (doc_item b "input_type") as [kind | e |]; cbn [bind eval];
      [| split; [right; reflexivity | left; reflexivity]..].
    destruct (doc_item b "action") as [action | e |]; cbn [bind eval];
      [| split; [right; reflexivity | left; reflexivity]..].
    destruct (eq_str kind "button").
    + destruct (value =? 127);
        [| split; [left; reflexivity | left; reflexivity]].
      unfold bind.
      destruct (send_action_effect b self)
        as [[Hf Hs] | [[Hf [m Hs]] | [Hf (a & r & t & x & Ha & Ht & Hs)]]];
        destruct (send_action py_repr b self) as [o s]; cbn in Hf, Hs; subst.
      * destruct o as [[|] | e |].
        -- contradiction.
        -- exact IH.
        -- split; [right; reflexivity | left; reflexivity].
        -- split; [right; reflexivity | left; reflexivity].
      * split; [left; reflexivity|]. right; left. exists m. reflexivity.
      * split; [left; reflexivity|]. right; right.
        exists a, r, t, x. auto.
    + destruct (eq_str kind "fader"); [|exact IH].
      destruct (fader_message py_repr b action value) as [[m|] | e |];
        cbn [bind eval].
      * split; [left; reflexivity|]. right; left. exists m. reflexivity.
      * exact IH.
      * split; [right; reflexivity | left; reflexivity].
      * split; [right; reflexivity | left; reflexivity].
Qed.

Lemma handle_midi_input_effect (msg : message) (self : MidiHandler) :
  (fst (handle_midi_input py_repr msg self) = Ok tt \/
   snd (handle_midi_input py_repr msg self) = self) /\
  midi_effect self (snd (handle_midi_input py_repr msg self)).
Proof.
  destruct msg as [note velocity | program | control value | type];
    cbn [handle_midi_input].
  - rewrite handle_midi_button_loop. apply button_loop_effect.
  - rewrite handle_midi_button_loop. apply button_loop_effect.
  - unfold handle_midi_fader.
    destruct (search "control_change" control self) as [|b rest].
    + split; [left; reflexivity | left; reflexivity].
    + apply fader_loop_effect.
  - split; [left; reflexivity | left; reflexivity].
Qed.

(** An entry of the list is always found by [remove]. *)
Lemma list_remove_present (e : entry) (l : list entry) :
  In e l -> exists l', list_remove e l = Some l'.
Proof.
  induction l as [|x l IH]; [contradiction|].
  intros [-> | Hin]; cbn [list_remove].
  - rewrite entry_eqb_refl. eexists. reflexivity.
  - destruct (entry_eqb x e); [eexists; reflexivity|].
    destruct (IH Hin) as [l' ->]. eexists. reflexivity.
Qed.

Lemma resolve_loop_effect (payload : pyvalue) (pending : list entry)
  (self : MidiHandler) :
  incl pending (_action_buffer self) ->
  (fst (resolve_loop py_repr payload pending self) = Ok tt \/
   snd (resolve_loop py_repr payload pending self) = self) /\
  reply_effect self (snd (resolve_loop py_repr payload pending self)).
Proof.
  induction pending as [|[[i template] kind] rest IH]; intros Hincl;
    cbn [resolve_loop].
  - split; [left; reflexivity | left; reflexivity].
  - destruct (getitem payload "message-id") as [message_id | e |];
      cbn [bind eval];
      [| split; [right; reflexivity | left; reflexivity]..].
    destruct (py_int message_id) as [n | e |]; cbn [bind eval];
      [| split; [right; reflexivity | left; reflexivity]..].
    destruct (negb (i =? n)).
    { apply IH. intros x Hx. apply Hincl. right. exact Hx. }
    assert (Hin : In (i, template, kind) (_action_buffer self))
      by (apply Hincl; left; reflexivity).
    destruct (list_remove_present _ _ Hin) as [l Hl].
    destruct (follow_up py_repr payload template kind) as [[m|] | e |];
      cbn [bind eval send ret remove _action_buffer].
    + unfold remove. cbn [_action_buffer].
      rewrite Hl. split; [left; reflexivity|].
      right. exists (i, template, kind), l. split; [exact Hl|].
      right. exists m. reflexivity.
    + unfold remove. rewrite Hl. split; [left; reflexivity|].
      right. exists (i, template, kind), l. split; [exact Hl|].
      left. reflexivity.
    + split; [right; reflexivity | left; reflexivity].
    + split; [right; reflexivity | left; reflexivity].
Qed.

Lemma handle_obs_message_effect (payload : pyvalue) (self : MidiHandler) :
  (fst (handle_obs_message py_repr payload self) = Ok tt \/
   snd (handle_obs_message py_repr payload self) = self) /\
  reply_effect self (snd (handle_obs_message py_repr payload self)).
Proof.
  unfold handle_obs_message.
  destruct (py_in "error" payload) as [[|] | e |]; cbn [bind eval];
    [| | split; [right; reflexivity | left; reflexivity]..].
  - destruct (getitem payload "error"); cbn [bind eval ret];
      split; first [left; reflexivity | right; reflexivity].
  - destruct (getitem payload "message-id") as [message_id | e |];
      cbn [bind eval];
      [| split; [right; reflexivity | left; reflexivity]..].
    apply resolve_loop_effect, incl_refl.
Qed.

End Effects.

(** A property kept by the three effects is kept by every callback, and
    along every run. *)
Section Stable.

Variable py_repr : pyvalue -> string.
Variable P : MidiHandler -> Prop.

Hypothesis P_transmitted : forall self m, P self -> P (transmitted self m).

Hypothesis P_tracked :
  forall self action request template text,
    P self ->
    truthy action = true ->
    assoc request TEMPLATES = Some template ->
    P (tracked self action (VStr request) (VStr text)).

Hypothesis P_removed :
  forall self e l,
    P self ->
    list_remove e (_action_buffer self) = Some l ->
    P (with_buffer self l).

Lemma stable_dispatch (i : input) (self : MidiHandler) :
  P self -> P (snd (dispatch py_repr i self)).
Proof.
  intros H. destruct i as [msg | payload]; cbn [dispatch].
  - destruct (handle_midi_input_effect py_repr msg self)
      as [_ [-> | [[m ->] | (a & r & t & x & Ha & Ht & ->)]]].
    + exact H.
    + apply P_transmitted, H.
    + eapply P_tracked; eassumption.
  - destruct (handle_obs_message_effect py_repr payload self)
      as [_ [-> | (e & l & Hl & [-> | [m ->]])]].
    + exact H.
    + eapply P_removed; eassumption.
    + apply (P_removed (transmitted self m) e l).
      * apply P_transmitted, H.
      * exact Hl.
Qed.

Lemma stable_run (inputs : list input) (self : MidiHandler) :
  P self -> P (run py_repr inputs self).
Proof.
  revert self. induction inputs as [|i rest IH]; intros self H; cbn [run].
  - exact H.
  - apply IH, stable_dispatch, H.
Qed.

End Stable.

Lemma list_remove_length (e : entry) (l l' : list entry) :
  list_remove e l = Some l' -> length l = S (length l').
Proof.
  revert l'. induction l as [|x l IH]; cbn [list_remove]; [discriminate|].
  intros l'. destruct (entry_eqb x e).
  - intros [= <-]. reflexivity.
  - destruct (list_remove e l) as [r|]; [|discriminate].
    intros [= <-]. cbn. rewrite (IH r eq_refl). reflexivity.
Qed.

Section Callbacks.

Variable py_repr : pyvalue -> string.

(** X3: a callback that raises has had no effect: when the handling of a
    MIDI event or of a reply ends in an exception, nothing was transmitted,
    registered or removed, and the handler is as it was before. *)
Theorem failed_callback_has_no_effect (i : input) (self : MidiHandler) :
  fst (dispatch py_repr i self) <> Ok tt ->
  snd (dispatch py_repr i self) = self.
Proof.
  intros H. destruct i as [msg | payload]; cbn [dispatch] in *.
  - destruct (handle_midi_input_effect py_repr msg self) as [[E | E] _];
      [contradiction | exact E].
  - destruct (handle_obs_message_effect py_repr payload self) as [[E | E] _];
      [contradiction | exact E].
Qed.

(** X5: one reply has at most one effect: it transmits at most one message
    and removes at most one pending entry; it never registers an entry and
    never changes the counter or the bindings. *)
Theorem reply_single_effect (payload : pyvalue) (self : MidiHandler) :
  let self' := snd (handle_obs_message py_repr payload self) in
  reply_effect self self' /\
  _action_counter self' = _action_counter self /\
  history self' = history self /\
  db self' = db self /\
  (obs_socket self' = obs_socket self \/
   exists m, obs_socket self' = (obs_socket self ++ [m])%list) /\
  (_action_buffer self' = _action_buffer self \/
   length (_action_buffer self) = S (length (_action_buffer self'))).
Proof.
  intros self'.
  destruct (handle_obs_message_effect py_repr payload self) as [_ H].
  fold self' in H. split; [exact H|].
  destruct H as [-> | (e & l & Hl & [-> | [m ->]])]; cbn.
  - repeat split; left; reflexivity.
  - repeat split; [left; reflexivity|].
    right. apply (list_remove_length e), Hl.
  - repeat split; [right; exists m; reflexivity|].
    right. apply (list_remove_length e), Hl.
Qed.

End Callbacks.

(** ** Invariants of the tracker *)

Lemma list_remove_ids_sorted (e : entry) (l l' : list entry) :
  StronglySorted Z.lt (ids l) ->
  list_remove e l = Some l' ->
  StronglySorted Z.lt (ids l').
Proof.
  revert l'. induction l as [|x l IH]; cbn [list_remove]; [discriminate|].
  intros l' Hs. cbn [ids map] in Hs. inversion Hs as [|? ? Hl Hx]; subst.
  destruct (entry_eqb x e).
  - intros [= <-]. exact Hl.
  - destruct (list_remove e l) as [r|] eqn:E; [|discriminate].
    intros [= <-]. cbn [ids map]. constructor.
    + apply IH; [exact Hl | reflexivity].
    + apply Forall_forall. intros y Hy.
      rewrite Forall_forall in Hx. apply Hx.
      apply (ids_incl r l); [|exact Hy].
      apply Forall_forall. intros z Hz.
      apply (list_remove_incl e l r E), Hz.
Qed.

Lemma sorted_snoc (l : list Z) (z : Z) :
  StronglySorted Z.lt l ->
  Forall (fun x => x < z) l ->
  StronglySorted Z.lt (l ++ [z])%list.
Proof.
  induction 1 as [|a l Hs IH Ha]; intros Hb; cbn.
  - repeat constructor.
  - inversion Hb; subst. constructor; [auto|].
    apply Forall_app. split; [exact Ha|]. repeat constructor. assumption.
Qed.

Section TrackerInvariants.

Variable py_repr : pyvalue -> string.

(** X7: whatever a handler receives, its bindings are never modified, its
    counter never goes back, and what was transmitted or registered stays:
    the outbox and the history of registrations only get longer. *)
Theorem run_succeeds (inputs : list input) (self : MidiHandler) :
  succeeds self (run py_repr inputs self).
Proof.
  apply (stable_run py_repr (succeeds self)).
  - intros s m (Hd & Hc & [sent Ho] & Hh).
    repeat split; cbn; try assumption.
    exists (sent ++ [m])%list. rewrite Ho, app_assoc. reflexivity.
  - intros s a r t x (Hd & Hc & [sent Ho] & [added Hh]) _ _.
    repeat split; cbn; try assumption; try lia.
    + exists (sent ++ [VStr x])%list. rewrite Ho, app_assoc. reflexivity.
    + eexists. rewrite Hh, <- app_assoc. reflexivity.
  - intros s e l H _. exact H.
  - repeat split; try reflexivity; try lia;
      exists []; rewrite app_nil_r; reflexivity.
Qed.

Lemma follow_up_has_rule (payload template kind : pyvalue) :
  kind = VStr "ToggleSourceVisibility" \/ kind = VStr "ReloadBrowserSource" ->
  follow_up py_repr payload template kind <> Ok None.
Proof.
  intros [-> | ->]; unfold follow_up.
  - change (eq_str (VStr "ToggleSourceVisibility") "ToggleSourceVisibility")
      with true. cbv iota.
    destruct (getitem payload "visible") as [v | e |]; cbn [obind];
      try discriminate.
    destruct (py_mod py_repr template _); cbn [obind]; discriminate.
  - change (eq_str (VStr "ReloadBrowserSource") "ToggleSourceVisibility")
      with false.
    change (eq_str (VStr "ReloadBrowserSource") "ReloadBrowserSource")
      with true. cbv iota.
    destruct (getitem payload "sourceSettings") as [ss | e |]; cbn [obind];
      try discriminate.
    destruct (getitem ss "url") as [source | e |]; cbn [obind];
      try discriminate.
    destruct (last_item source) as [final | e |]; cbn [obind];
      try discriminate.
    destruct (if eq_str final "#" then slice_init source
              else add_str source "#") as [target | e |]; cbn [obind];
      try discriminate.
    destruct (py_mod py_repr template _); cbn [obind]; discriminate.
Qed.

(** X8: every pending entry was registered by [send_action]: its action is
    not empty and its request is one of the two names with a template, so a
    reply that matches it always meets a follow-up rule: the entry is never
    removed without a transmission. *)
Theorem pending_entries_have_rule (config : list document)
  (inputs : list input) :
  Forall (fun e =>
            registrable e /\
            forall payload,
              follow_up py_repr payload (entry_action e) (entry_kind e) <>
              Ok None)
    (_action_buffer (run py_repr inputs (init config))).
Proof.
  assert (H : Forall registrable
                (_action_buffer (run py_repr inputs (init config)))).
  { apply (stable_run py_repr
             (fun s => Forall registrable (_action_buffer s))).
    - intros s m Hs. exact Hs.
    - intros s a r t x Hs Ha Ht. cbn [tracked _action_buffer].
      apply Forall_app. split; [exact Hs|].
      constructor; [|constructor]. split; [exact Ha|].
      unfold entry_kind. cbn [snd].
      rewrite TEMPLATES_envelope in Ht. unfold envelope_of in Ht.
      destruct (String.eqb r "ToggleSourceVisibility") eqn:E1.
      + apply String.eqb_eq in E1. subst. left. reflexivity.
      + destruct (String.eqb r "ReloadBrowserSource") eqn:E2;
          [|discriminate Ht].
        apply String.eqb_eq in E2. subst. right. reflexivity.
    - intros s e l Hs Hl. cbn [with_buffer _action_buffer].
      apply Forall_forall. intros y Hy. rewrite Forall_forall in Hs.
      apply Hs, (list_remove_incl e _ l Hl), Hy.
    - constructor. }
  eapply Forall_impl; [|exact H].
  intros e He. split; [exact He|].
  intros payload. apply follow_up_has_rule. apply He.
Qed.

End TrackerInvariants.

(** A pushed event, which has no [message-id], while a request is pending:
    [KeyError], and the pending entry stays. *)
Lemma failed_callback_has_no_effect_witness :
  fst (dispatch sample_repr (Reply (VDict scene_event)) reload_pending) <>
  Ok tt /\
  snd (dispatch sample_repr (Reply (VDict scene_event)) reload_pending) =
  reload_pending.
Proof.
  assert (H : fst (dispatch sample_repr (Reply (VDict scene_event))
                     reload_pending) <> Ok tt) by discriminate.
  split; [exact H|].
  exact (failed_callback_has_no_effect sample_repr _ _ H).
Defined.

(** ** Truncation toward zero *)

Lemma Qtrunc_between (q : Q) (lo hi : Z) :
  (inject_Z lo <= q)%Q -> (q <= inject_Z hi)%Q ->
  lo <= Qtrunc q <= hi.
Proof.
  destruct q as [a b]. unfold Qle, Qtrunc, inject_Z. cbn [Qnum Qden].
  rewrite !Z.mul_1_r. intros Hlo Hhi.
  pose proof (Pos2Z.is_pos b) as Hb.
  destruct (Z_le_gt_dec 0 a) as [Ha | Ha].
  - rewrite Z.quot_div_nonneg by lia. split.
    + apply Z.div_le_lower_bound; lia.
    + apply Z.div_le_upper_bound; lia.
  - assert (Hq : Z.quot a (Z.pos b) = - (- a / Z.pos b)).
    { rewrite <- Z.quot_div_nonneg by lia.
      rewrite Z.quot_opp_l by lia. lia. }
    rewrite Hq. split.
    + assert (- a / Z.pos b <= - lo); [|lia].
      apply Z.div_le_upper_bound; lia.
    + assert (- hi <= - a / Z.pos b); [|lia].
      apply Z.div_le_lower_bound; lia.
Qed.

(** ** Templates without a slot *)

Section Slotless.

Variable py_repr : pyvalue -> string.

(** A template without conversion refuses a number or a string: not all
    arguments are converted. *)
Lemma py_mod_slotless (tpl : string) (x : pyvalue) :
  no_percent tpl = true ->
  is_mapping (One x) = false ->
  py_mod py_repr (VStr tpl) (One x) = Raise TypeError.
Proof.
  intros Hp Hm. unfold py_mod. cbn [operand_args].
  rewrite (format_go_plain py_repr tpl [x] Hp), Hm. reflexivity.
Qed.

Lemma str_last_nonempty (c : ascii) (s : string) :
  str_last (String c s) <> None.
Proof.
  revert c. induction s as [|a s IH]; intros c; [discriminate|].
  exact (IH a).
Qed.


(** X13: a tracked request whose action has no slot is never resolved: the
    reply that matches it raises [TypeError], nothing is transmitted and
    the entry stays pending, for a visibility toggle whatever the reply
    says and for a reload whatever the url. *)
Theorem slotless_follow_up_raises (d : document) (message_id : pyvalue)
  (n : Z) (before after : list entry) (tpl : string) (kind : pyvalue)
  (self : MidiHandler) :
  lookup "error" d = None ->
  lookup "message-id" d = Some message_id ->
  py_int message_id = Ok n ->
  _action_buffer self = (before ++ (n, VStr tpl, kind) :: after)%list ->
  Forall (fun e => entry_id e <> n) before ->
  no_percent tpl = true ->
  (kind = VStr "ToggleSourceVisibility" /\
   exists visible, lookup "visible" d = Some visible) \/
  (kind = VStr "ReloadBrowserSource" /\
   exists settings url c,
     lookup "sourceSettings" d = Some (VDict settings) /\
     lookup "url" settings = Some (VStr (String c url))) ->
  handle_obs_message py_repr (VDict d) self = (Raise TypeError, self).
Proof.
  intros He Hm Hn Hbuf Hbefore Hp Hkind. unfold handle_obs_message.
  unfold bind at 1, eval at 1, py_in. rewrite He.
  unfold bind at 1, eval at 1, getitem, doc_item. rewrite Hm, Hbuf.
  rewrite (resolve_loop_matched py_repr d message_id n before after
             (VStr tpl) kind self Hm Hn Hbefore).
  assert (Hf : follow_up py_repr (VDict d) (VStr tpl) kind = Raise TypeError).
  { destruct Hkind as [[-> [visible Hv]] | [-> (ss & url & c & Hs & Hu)]].
    - rewrite (follow_up_visibility py_repr d (VStr tpl) visible Hv).
      rewrite (fun t => py_mod_slotless tpl (VStr t) Hp eq_refl).
      reflexivity.
    - unfold follow_up.
      change (eq_str (VStr "ReloadBrowserSource") "ToggleSourceVisibility")
        with false.
      change (eq_str (VStr "ReloadBrowserSource") "ReloadBrowserSource")
        with true.
      cbv iota. unfold getitem, doc_item. rewrite Hs. cbn [obind].
      rewrite Hu. cbn [obind last_item].
      destruct (str_last (String c url)) as [final|] eqn:E.
      + cbn [obind].
        destruct (eq_str (VStr (String final EmptyString)) "#");
          cbn [slice_init add_str obind];
          rewrite (fun t => py_mod_slotless tpl (VStr t) Hp eq_refl);
          reflexivity.
      + exfalso. exact (str_last_nonempty c url E). }
  unfold bind, eval. rewrite Hf. reflexivity.
Qed.

End Slotless.


Lemma slotless_follow_up_raises_witness :
  let pending :=
    run sample_repr [Midi (note_on 36 100)]
      (init [ [ ("msg_type", VStr "note_on"); ("msgNoC", VInt 36);
                ("action", VStr "reload");
                ("request", VStr "ReloadBrowserSource");
                ("target", VStr "cam") ] ]) in
  handle_obs_message sample_repr (settings_reply "2" "http://x") pending =
  (Raise TypeError, pending).
Proof.
  intros pending.
  apply (slotless_follow_up_raises sample_repr (settings "2" "http://x")
           (VStr "2") 2 [] [] "reload" (VStr "ReloadBrowserSource") pending);
    try reflexivity.
  - constructor.
  - right. split; [reflexivity|].
    exists [("url", VStr "http://x")], "ttp://x", "h"%char.
    split; reflexivity.
Defined.

(** ** Start-up, errors of the websocket, shutdown *)

Section LifecycleFacts.

Variable py_repr : pyvalue -> string.
Variable open_input : string -> bool.

(** X14: [__init__] ends in [exit(2)] exactly when no document of the
    config file has a [type] field; otherwise the first such document
    decides alone: without [value] it is a [KeyError], with a port that
    does not open it is [exit(5)], and only with a port that opens is there
    a handler, which starts with the counter 2, no pending entry, nothing
    transmitted and the config as bindings. *)
Theorem startup_outcomes (config : list document) :
  (__init__ py_repr open_input config = Exit 2 <->
   hd_error (filter has_type config) = None) /\
  (forall first,
     hd_error (filter has_type config) = Some first ->
     (lookup "value" first = None ->
      __init__ py_repr open_input config = Crashed KeyError) /\
     (forall v,
        lookup "value" first = Some v ->
        open_input (py_str py_repr v) = false ->
        __init__ py_repr open_input config = Exit 5) /\
     (forall v,
        lookup "value" first = Some v ->
        open_input (py_str py_repr v) = true ->
        __init__ py_repr open_input config =
        Started (init config) (py_str py_repr v))) /\
  (forall self port_name,
     __init__ py_repr open_input config = Started self port_name ->
     open_input port_name = true /\
     db self = config /\
     _action_counter self = 2 /\
     _action_buffer self = [] /\
     obs_socket self = []).
Proof.
  unfold __init__.
  destruct (filter has_type config) as [|first rest]; cbn [hd_error].
  - split; [split; reflexivity|].
    split; [discriminate | discriminate].
  - split.
    { split; [|discriminate].
      destruct (lookup "value" first) as [v|]; [|discriminate].
      destruct (open_input (py_str py_repr v)); discriminate. }
    split.
    + intros first' [= <-]. repeat split.
      * intros ->. reflexivity.
      * intros v -> ->. reflexivity.
      * intros v -> ->. reflexivity.
    + intros self port_name.
      destruct (lookup "value" first) as [v|]; [|discriminate].
      destruct (open_input (py_str py_repr v)) eqn:E; [|discriminate].
      intros [= <- <-]. repeat split. exact E.
Qed.

(** X15: [handle_obs_error] never logs a websocket error: the text it
    formats ends in a lone [%], so every error that is not an interrupt
    raises [ValueError] and releases nothing; an interrupt, passed as
    [error] or in place of the application, closes the MIDI port and the
    config file and leaves the websocket as it is. *)
Theorem obs_error_raises_or_tears_down (ws : ws_argument)
  (error : option raised) (r : resources) :
  (handle_obs_error py_repr ws error r = (Raise ValueError, r) \/
   handle_obs_error py_repr ws error r = (Ok tt, close true r)) /\
  (forall text,
     handle_obs_error py_repr ws (Some (OtherError text)) r =
     (Raise ValueError, r)) /\
  (forall text,
     handle_obs_error py_repr (Thrown (OtherError text)) None r =
     (Raise ValueError, r)) /\
  handle_obs_error py_repr App None r = (Raise ValueError, r) /\
  handle_obs_error py_repr ws (Some KeyboardInterrupt) r =
  (Ok tt, close true r) /\
  handle_obs_error py_repr (Thrown KeyboardInterrupt) None r =
  (Ok tt, close true r) /\
  port_open (close true r) = false /\
  db_open (close true r) = false /\
  socket_open (close true r) = socket_open r /\
  __end__ (close true r) = close false r.
Proof.
  split.
  { destruct error as [[| code | text]|], ws as [|[| code' | text']];
      first [left; reflexivity | right; reflexivity]. }
  split; [destruct ws; reflexivity|].
  split; [reflexivity|]. split; [reflexivity|].
  split; [destruct ws; reflexivity|].
  repeat split.
Qed.

End LifecycleFacts.

(** ** The lookup of bindings *)

Lemma eq_int_unique (v : pyvalue) (n1 n2 : Z) :
  eq_int v n1 = true -> eq_int v n2 = true -> n1 = n2.
Proof.
  destruct v as [| b | m | q | s | l | d]; cbn [eq_int]; try discriminate.
  - intros H1 H2. apply Z.eqb_eq in H1, H2. lia.
  - intros H1 H2. apply Z.eqb_eq in H1, H2. lia.
  - intros H1 H2. apply Qeq_bool_iff in H1, H2.
    rewrite H1 in H2. unfold Qeq, inject_Z in H2. cbn in H2. lia.
Qed.

(** X16: a binding answers to one event key only: the type and the number
    it is looked up under are determined by the binding, so no document is
    a candidate for two different MIDI events. *)
Theorem binding_answers_one_key (b : document) (type1 type2 : string)
  (note1 note2 : Z) :
  matches type1 note1 b = true ->
  matches type2 note2 b = true ->
  type1 = type2 /\ note1 = note2.
Proof.
  unfold matches.
  destruct (lookup "msg_type" b) as [t|]; [|discriminate].
  destruct (lookup "msgNoC" b) as [n|]; [|discriminate].
  intros H1 H2.
  apply andb_prop in H1 as [Ht1 Hn1]. apply andb_prop in H2 as [Ht2 Hn2].
  apply eq_str_true in Ht1, Ht2. split.
  - congruence.
  - exact (eq_int_unique n note1 note2 Hn1 Hn2).
Qed.

(** A binding whose number was stored as a float answers to the integer it
    equals. *)
Lemma binding_answers_one_key_witness :
  let b := [("msg_type", VStr "note_on"); ("msgNoC", VFloat (72 # 2))] in
  matches "note_on" 36 b = true /\
  ("note_on" = "note_on" /\ 36 = 36).
Proof.
  intros b. split; [reflexivity|].
  exact (binding_answers_one_key b "note_on" "note_on" 36 36
           eq_refl eq_refl).
Defined.

Section Skipped.

Variable py_repr : pyvalue -> string.


End Skipped.


(** A config file without port document, and one whose port is not
    connected. *)
Lemma startup_outcomes_witness :
  __init__ sample_repr (fun _ => false) [scene_button] = Exit 2 /\
  __init__ sample_repr (fun _ => false)
    [scene_button; [("type", VStr "device"); ("value", VStr "nanoKONTROL")]] =
  Exit 5 /\
  __init__ sample_repr (String.eqb "nanoKONTROL")
    [scene_button; [("type", VStr "device"); ("value", VStr "nanoKONTROL")]] =
  Started
    (init [scene_button;
           [("type", VStr "device"); ("value", VStr "nanoKONTROL")]])
    "nanoKONTROL" /\
  __init__ sample_repr (fun _ => true) [[("type", VStr "device")]] =
  Crashed KeyError.
Proof.
  split; [|split; [|split]].
  - exact (proj2 (proj1 (startup_outcomes sample_repr (fun _ => false)
                           [scene_button])) eq_refl).
  - destruct (startup_outcomes sample_repr (fun _ => false)
                [scene_button;
                 [("type", VStr "device"); ("value", VStr "nanoKONTROL")]])
      as (_ & H & _).
    destruct (H _ eq_refl) as (_ & H5 & _).
    exact (H5 (VStr "nanoKONTROL") eq_refl eq_refl).
  - destruct (startup_outcomes sample_repr (String.eqb "nanoKONTROL")
                [scene_button;
                 [("type", VStr "device"); ("value", VStr "nanoKONTROL")]])
      as (_ & H & _).
    destruct (H _ eq_refl) as (_ & _ & Hs).
    exact (Hs (VStr "nanoKONTROL") eq_refl eq_refl).
  - destruct (startup_outcomes sample_repr (fun _ => true)
                [[("type", VStr "device")]]) as (_ & H & _).
    destruct (H _ eq_refl) as (Hk & _).
    exact (Hk eq_refl).
Defined.
(** * The platform as it is *)

(** ** Doubles *)

(** *** Rounding a quotient to the nearest integer *)
Lemma half_even_mono (a1 a2 : Z) (b : positive) :
  a1 <= a2 -> half_even a1 b <= half_even a2 b.
Proof.
  intros Hle. unfold half_even.
  pose proof (Z.div_mod a1 (Z.pos b) ltac:(lia)) as E1.
  pose proof (Z.div_mod a2 (Z.pos b) ltac:(lia)) as E2.
  pose proof (Z.mod_pos_bound a1 (Z.pos b) ltac:(lia)) as B1.
  pose proof (Z.mod_pos_bound a2 (Z.pos b) ltac:(lia)) as B2.
  pose proof (Z.div_le_mono a1 a2 (Z.pos b) ltac:(lia) Hle) as D.
  set (f1 := a1 / Z.pos b) in *. set (f2 := a2 / Z.pos b) in *.
  set (r1 := a1 mod Z.pos b) in *. set (r2 := a2 mod Z.pos b) in *.
  destruct (Z.eq_dec f1 f2) as [E | N].
  - rewrite <- E in *. clearbody f1 r1 r2.
    destruct (Z.compare_spec (2 * r1) (Z.pos b));
      destruct (Z.compare_spec (2 * r2) (Z.pos b));
      destruct (Z.even f1); lia.
  - assert (f1 + 1 <= f2) by lia.
    destruct (Z.compare_spec (2 * r1) (Z.pos b));
      destruct (Z.compare_spec (2 * r2) (Z.pos b));
      destruct (Z.even f1); destruct (Z.even f2); lia.
Qed.

Lemma half_even_scale (a : Z) (b c : positive) :
  half_even (a * Z.pos c) (b * c) = half_even a b.
Proof.
  unfold half_even. rewrite Pos2Z.inj_mul.
  rewrite Z.div_mul_cancel_r by lia.
  rewrite Z.mul_mod_distr_r by lia.
  replace (2 * (a mod Z.pos b * Z.pos c)) with (2 * (a mod Z.pos b) * Z.pos c) by ring.
  rewrite <- Zmult_compare_compat_r by lia. reflexivity.
Qed.

Lemma half_even_exact (k : Z) (b : positive) : half_even (k * Z.pos b) b = k.
Proof.
  unfold half_even. rewrite Z.div_mul by lia. rewrite Z.mod_mul by lia.
  reflexivity.
Qed.

Lemma half_even_opp (a : Z) (b : positive) : half_even (- a) b = - half_even a b.
Proof.
  unfold half_even.
  pose proof (Z.div_mod a (Z.pos b) ltac:(lia)) as E.
  pose proof (Z.mod_pos_bound a (Z.pos b) ltac:(lia)) as B.
  set (f := a / Z.pos b) in *. set (r := a mod Z.pos b) in *.
  destruct (Z.eq_dec r 0) as [Z0 | NZ].
  - assert (Ea : - a = (- f) * Z.pos b) by (rewrite E, Z0; ring).
    rewrite Ea. rewrite Z.div_mul by lia. rewrite Z.mod_mul by lia.
    rewrite Z0. cbn. reflexivity.
  - assert (Hd : (- a) / Z.pos b = - f - 1).
    { symmetry. apply (Z.div_unique_pos _ _ _ (Z.pos b - r)); lia. }
    assert (Hm : (- a) mod Z.pos b = Z.pos b - r).
    { symmetry. apply (Z.mod_unique_pos _ _ (- f - 1)); lia. }
    rewrite Hd, Hm.
    replace (- f - 1) with (- (f + 1)) by ring. rewrite Z.even_opp.
    rewrite Z.even_add. cbn [Z.even].
    destruct (Z.compare_spec (2 * r) (Z.pos b));
      destruct (Z.compare_spec (2 * (Z.pos b - r)) (Z.pos b)); try lia;
      destruct (Z.even f); cbn; lia.
Qed.

Lemma Qnearest_comp (p q : Q) : (p == q)%Q -> Qnearest p = Qnearest q.
Proof.
  unfold Qeq, Qnearest. intros H.
  rewrite <- (half_even_scale (Qnum p) (Qden p) (Qden q)).
  rewrite <- (half_even_scale (Qnum q) (Qden q) (Qden p)).
  rewrite H. rewrite Pos.mul_comm. reflexivity.
Qed.

Lemma Qnearest_mono (p q : Q) : (p <= q)%Q -> Qnearest p <= Qnearest q.
Proof.
  unfold Qle, Qnearest. intros H.
  rewrite <- (half_even_scale (Qnum p) (Qden p) (Qden q)).
  rewrite <- (half_even_scale (Qnum q) (Qden q) (Qden p)).
  rewrite (Pos.mul_comm (Qden q)). apply half_even_mono. exact H.
Qed.

Lemma Qnearest_Z (k : Z) : Qnearest (inject_Z k) = k.
Proof.
  unfold Qnearest, inject_Z. cbn [Qnum Qden].
  rewrite <- (Z.mul_1_r k) at 1. apply half_even_exact.
Qed.

Lemma Qnearest_opp (q : Q) : Qnearest (- q) = - Qnearest q.
Proof. unfold Qnearest. destruct q. cbn. apply half_even_opp. Qed.

(** *** Powers of two *)
Lemma two_pos (x : Z) : (0 < 2 ^ x)%Q.
Proof. apply Qpower_0_lt. reflexivity. Qed.

Lemma two_plus (x y : Z) : (2 ^ (x + y) == 2 ^ x * 2 ^ y)%Q.
Proof. apply Qpower_plus. discriminate. Qed.

Lemma two_minus (x y : Z) : (2 ^ (x - y) == 2 ^ x / 2 ^ y)%Q.
Proof. apply Qpower_minus. discriminate. Qed.

Lemma two_inject (k : Z) : 0 <= k -> (2 ^ k == inject_Z (2 ^ k))%Q.
Proof. intros H. rewrite Zpower_Qpower by exact H. reflexivity. Qed.

Lemma two_le (x y : Z) : x <= y -> (2 ^ x <= 2 ^ y)%Q.
Proof. intros H. apply Qpower_le_compat_l; [exact H | discriminate]. Qed.

Lemma two_lt_inv (x y : Z) : (2 ^ x < 2 ^ y)%Q -> x < y.
Proof. intros H. apply (Qpower_lt_compat_l_inv 2); [exact H | reflexivity]. Qed.

(** *** The binary exponent *)
Lemma Qabs_fraction (q : Q) :
  (Qabs q * inject_Z (Z.pos (Qden q)) == inject_Z (Z.abs (Qnum q)))%Q.
Proof.
  destruct q as [n d]. cbn [Qabs Qnum Qden]. unfold Qeq, inject_Z, Qmult.
  cbn [Qnum Qden]. lia.
Qed.

Lemma Qabs_zero (q : Q) : ~ (q == 0)%Q -> 0 < Z.abs (Qnum q).
Proof.
  destruct q as [n d]. unfold Qeq. cbn [Qnum Qden]. lia.
Qed.

Lemma Qlog2_spec (q : Q) :
  ~ (q == 0)%Q -> (2 ^ Qlog2 q <= Qabs q /\ Qabs q < 2 ^ (Qlog2 q + 1))%Q.
Proof.
  intros Hq. pose proof (Qabs_zero q Hq) as Hn.
  pose proof (Qabs_fraction q) as Hf.
  pose proof (Qabs_nonneg q) as Ha.
  unfold Qlog2.
  set (n := Z.abs (Qnum q)) in *. set (d := Z.pos (Qden q)) in *.
  assert (Hd : 0 < d) by (unfold d; lia).
  destruct (Z.log2_spec n Hn) as [Ln Un].
  destruct (Z.log2_spec d Hd) as [Ld Ud].
  pose proof (Z.log2_nonneg n) as Nn. pose proof (Z.log2_nonneg d) as Nd.
  set (ln := Z.log2 n) in *. set (ld := Z.log2 d) in *.
  assert (Ln' : (2 ^ ln <= inject_Z n)%Q)
    by (rewrite two_inject by lia; rewrite <- Zle_Qle; exact Ln).
  assert (Un' : (inject_Z n < 2 ^ (ln + 1))%Q)
    by (rewrite two_inject by lia; rewrite <- Zlt_Qlt;
        replace (ln + 1) with (Z.succ ln) by lia; exact Un).
  assert (Ld' : (2 ^ ld <= inject_Z d)%Q)
    by (rewrite two_inject by lia; rewrite <- Zle_Qle; exact Ld).
  assert (Ud' : (inject_Z d <= 2 ^ (ld + 1))%Q).
  { rewrite two_inject by lia. rewrite <- Zle_Qle.
    replace (ld + 1) with (Z.succ ld) by lia. lia. }
  destruct (Qle_bool (2 ^ (ln - ld)) (Qabs q)) eqn:Hb.
  - split; [apply Qle_bool_iff; exact Hb |].
    replace (ln - ld + 1) with ((ln + 1) - ld) by ring.
    rewrite two_minus. apply Qlt_shift_div_l; [apply two_pos |].
    apply Qle_lt_trans with (Qabs q * inject_Z d)%Q.
    + rewrite !(Qmult_comm (Qabs q)).
      apply Qmult_le_compat_r; assumption.
    + rewrite Hf. exact Un'.
  - split.
    + replace (ln - ld - 1) with (ln - (ld + 1)) by ring.
      rewrite two_minus. apply Qle_shift_div_r; [apply two_pos |].
      apply Qle_trans with (Qabs q * inject_Z d)%Q.
      * rewrite Hf. exact Ln'.
      * rewrite !(Qmult_comm (Qabs q)).
        apply Qmult_le_compat_r; assumption.
    + replace (ln - ld - 1 + 1) with (ln - ld) by ring.
      apply Qnot_le_lt. intros H. apply Qle_bool_iff in H. congruence.
Qed.

Lemma Qlog2_unique (q : Q) (e : Z) :
  (2 ^ e <= Qabs q)%Q -> (Qabs q < 2 ^ (e + 1))%Q -> Qlog2 q = e.
Proof.
  intros L U.
  assert (Hq : ~ (q == 0)%Q).
  { intros H. rewrite H in L. cbn in L.
    pose proof (two_pos e) as P. apply (Qlt_irrefl 0).
    eapply Qlt_le_trans; [exact P | exact L]. }
  destruct (Qlog2_spec q Hq) as [L' U'].
  assert (e < Qlog2 q + 1)
    by (apply two_lt_inv; eapply Qle_lt_trans; [exact L | exact U']).
  assert (Qlog2 q < e + 1)
    by (apply two_lt_inv; eapply Qle_lt_trans; [exact L' | exact U]).
  lia.
Qed.

Lemma Qlog2_mono (p q : Q) :
  ~ (p == 0)%Q -> (Qabs p <= Qabs q)%Q -> Qlog2 p <= Qlog2 q.
Proof.
  intros Hp Hle.
  assert (Hq : ~ (q == 0)%Q).
  { intros H. rewrite H in Hle. cbn in Hle.
    apply Hp. pose proof (Qabs_nonneg p) as N.
    assert (E : (Qabs p == 0)%Q) by (apply Qle_antisym; assumption).
    destruct p as [n d]. revert E. unfold Qeq. cbn. lia. }
  destruct (Qlog2_spec p Hp) as [L _].
  destruct (Qlog2_spec q Hq) as [_ U].
  assert (Qlog2 p < Qlog2 q + 1).
  { apply two_lt_inv. eapply Qle_lt_trans; [exact L |].
    eapply Qle_lt_trans; [exact Hle | exact U]. }
  lia.
Qed.

Lemma Qlog2_comp (p q : Q) :
  ~ (p == 0)%Q -> (Qabs p == Qabs q)%Q -> Qlog2 p = Qlog2 q.
Proof.
  intros Hp E. destruct (Qlog2_spec p Hp) as [L U].
  symmetry. apply Qlog2_unique; rewrite <- E; assumption.
Qed.

(** *** Rounding on one grid *)
Lemma nearest_on_grid (q : Q) : nearest q = on_grid (grid q) q.
Proof. reflexivity. Qed.

Lemma on_grid_mono (x : Z) (p q : Q) :
  (p <= q)%Q -> (on_grid x p <= on_grid x q)%Q.
Proof.
  intros H. unfold on_grid. apply Qmult_le_compat_r.
  - rewrite <- Zle_Qle. apply Qnearest_mono. unfold Qdiv.
    apply Qmult_le_compat_r; [exact H |].
    apply Qlt_le_weak, Qinv_lt_0_compat, two_pos.
  - apply Qlt_le_weak, two_pos.
Qed.

Lemma on_grid_fixed (x m : Z) (q : Q) :
  (q == inject_Z m * 2 ^ x)%Q -> (on_grid x q == q)%Q.
Proof.
  intros E. unfold on_grid.
  assert (H : (q / 2 ^ x == inject_Z m)%Q).
  { rewrite E. field. apply Qpower_not_0. discriminate. }
  rewrite (Qnearest_comp _ _ H), Qnearest_Z. symmetry. exact E.
Qed.

Lemma on_grid_two (x b : Z) : x <= b -> (on_grid x (2 ^ b) == 2 ^ b)%Q.
Proof.
  intros H. apply (on_grid_fixed x (2 ^ (b - x))).
  rewrite <- two_inject by lia. rewrite <- two_plus.
  replace (b - x + x) with b by ring. reflexivity.
Qed.

Lemma on_grid_comp (x : Z) (p q : Q) :
  (p == q)%Q -> (on_grid x p == on_grid x q)%Q.
Proof.
  intros E. unfold on_grid.
  assert (H : (p / 2 ^ x == q / 2 ^ x)%Q) by (rewrite E; reflexivity).
  rewrite (Qnearest_comp _ _ H). reflexivity.
Qed.

Lemma on_grid_zero (x : Z) (q : Q) : (q == 0)%Q -> (on_grid x q == 0)%Q.
Proof.
  intros E. rewrite (on_grid_comp x q 0 E).
  apply (on_grid_fixed x 0). cbn. ring.
Qed.

Lemma on_grid_opp (x : Z) (q : Q) : (on_grid x (- q) == - on_grid x q)%Q.
Proof.
  unfold on_grid.
  assert (H : (- q / 2 ^ x == - (q / 2 ^ x))%Q).
  { field. apply Qpower_not_0. discriminate. }
  rewrite (Qnearest_comp _ _ H), Qnearest_opp.
  rewrite inject_Z_opp. ring.
Qed.

(** *** Rounding to the nearest double *)
Lemma Qlog2_opp (q : Q) : Qlog2 (- q) = Qlog2 q.
Proof.
  destruct q as [n d]. unfold Qlog2. cbn [Qopp Qnum Qden Qabs].
  rewrite Z.abs_opp. reflexivity.
Qed.

Lemma grid_opp (q : Q) : grid (- q) = grid q.
Proof. unfold grid. rewrite Qlog2_opp. reflexivity. Qed.

Lemma nearest_opp (q : Q) : (nearest (- q) == - nearest q)%Q.
Proof. rewrite !nearest_on_grid, grid_opp. apply on_grid_opp. Qed.

Lemma nearest_zero (q : Q) : (q == 0)%Q -> (nearest q == 0)%Q.
Proof. intros E. rewrite nearest_on_grid. apply on_grid_zero. exact E. Qed.

Lemma nearest_comp (p q : Q) : (p == q)%Q -> (nearest p == nearest q)%Q.
Proof.
  intros E. destruct (Qeq_dec p 0) as [Z0 | NZ].
  - rewrite (nearest_zero p Z0). rewrite (nearest_zero q); [reflexivity |].
    rewrite <- E. exact Z0.
  - rewrite !nearest_on_grid. unfold grid.
    rewrite (Qlog2_comp p q NZ) by (rewrite E; reflexivity).
    apply on_grid_comp. exact E.
Qed.

Lemma nearest_mono_pos (p q : Q) :
  (0 < p)%Q -> (p <= q)%Q -> (nearest p <= nearest q)%Q.
Proof.
  intros Hp Hle.
  assert (Hq : (0 < q)%Q) by (eapply Qlt_le_trans; eassumption).
  assert (Np : ~ (p == 0)%Q) by (intros E; rewrite E in Hp; discriminate).
  assert (Nq : ~ (q == 0)%Q) by (intros E; rewrite E in Hq; discriminate).
  assert (Ap : (Qabs p == p)%Q) by (apply Qabs_pos, Qlt_le_weak, Hp).
  assert (Aq : (Qabs q == q)%Q) by (apply Qabs_pos, Qlt_le_weak, Hq).
  assert (Hl : Qlog2 p <= Qlog2 q)
    by (apply Qlog2_mono; [exact Np | rewrite Ap, Aq; exact Hle]).
  destruct (Qlog2_spec p Np) as [_ Up]. destruct (Qlog2_spec q Nq) as [Lq _].
  rewrite Ap in Up. rewrite Aq in Lq.
  rewrite !nearest_on_grid.
  destruct (Z.eq_dec (grid p) (grid q)) as [E | N].
  - rewrite E. apply on_grid_mono. exact Hle.
  - assert (Hg : grid p < grid q /\ grid q = Qlog2 q - 52 /\ Qlog2 p < Qlog2 q)
      by (unfold grid in *; lia).
    destruct Hg as (G1 & G2 & G3).
    apply Qle_trans with (2 ^ Qlog2 q)%Q.
    + rewrite <- (on_grid_two (grid p) (Qlog2 q)) by lia.
      apply on_grid_mono. apply Qlt_le_weak.
      eapply Qlt_le_trans; [exact Up |]. apply two_le. lia.
    + rewrite <- (on_grid_two (grid q) (Qlog2 q)) at 1 by lia.
      apply on_grid_mono. exact Lq.
Qed.

Lemma nearest_nonneg (q : Q) : (0 <= q)%Q -> (0 <= nearest q)%Q.
Proof.
  intros H. rewrite nearest_on_grid.
  rewrite <- (on_grid_zero (grid q) 0) by reflexivity.
  apply on_grid_mono. exact H.
Qed.

Lemma nearest_nonpos (q : Q) : (q <= 0)%Q -> (nearest q <= 0)%Q.
Proof.
  intros H. rewrite nearest_on_grid.
  rewrite <- (on_grid_zero (grid q) 0) by reflexivity.
  apply on_grid_mono. exact H.
Qed.

Lemma nearest_mono (p q : Q) : (p <= q)%Q -> (nearest p <= nearest q)%Q.
Proof.
  intros Hle. destruct (Qlt_le_dec 0 p) as [Hp | Hp].
  - apply nearest_mono_pos; assumption.
  - destruct (Qlt_le_dec q 0) as [Hq | Hq].
    + assert (H : (nearest (- q) <= nearest (- p))%Q).
      { apply nearest_mono_pos.
        - rewrite <- (Qopp_opp q) in Hq. apply Qopp_lt_compat in Hq.
          rewrite Qopp_opp in Hq. exact Hq.
        - apply Qopp_le_compat. exact Hle. }
      rewrite !nearest_opp in H. apply Qopp_le_compat in H.
      rewrite !Qopp_opp in H. exact H.
    + eapply Qle_trans; [apply nearest_nonpos; exact Hp |].
      apply nearest_nonneg. exact Hq.
Qed.

(** *** Integers, and the results of [round64] *)
Lemma grid_small (n : Z) : Z.abs n < 2 ^ 53 -> grid (inject_Z n) <= 0.
Proof.
  intros H. unfold grid.
  destruct (Z.eq_dec n 0) as [-> | N]; [vm_compute; discriminate |].
  assert (Nq : ~ (inject_Z n == 0)%Q) by (unfold Qeq, inject_Z; cbn; lia).
  destruct (Qlog2_spec _ Nq) as [L _].
  assert (A : (Qabs (inject_Z n) == inject_Z (Z.abs n))%Q) by reflexivity.
  rewrite A in L.
  assert (Qlog2 (inject_Z n) < 53).
  { apply two_lt_inv. eapply Qle_lt_trans; [exact L |].
    rewrite (two_inject 53) by lia. rewrite <- Zlt_Qlt. exact H. }
  lia.
Qed.

Lemma nearest_Z (n : Z) :
  Z.abs n < 2 ^ 53 -> (nearest (inject_Z n) == inject_Z n)%Q.
Proof.
  intros H. pose proof (grid_small n H) as G.
  rewrite nearest_on_grid.
  apply (on_grid_fixed _ (n * 2 ^ (- grid (inject_Z n)))).
  rewrite inject_Z_mult. rewrite <- two_inject by lia.
  rewrite <- Qmult_assoc, <- two_plus.
  replace (- grid (inject_Z n) + grid (inject_Z n)) with 0 by ring.
  cbn. ring.
Qed.

Lemma Qred_inject_Z (n : Z) : Qred (inject_Z n) = inject_Z n.
Proof.
  unfold Qred, inject_Z.
  pose proof (Z.ggcd_gcd n 1) as G. pose proof (Z.ggcd_correct_divisors n 1) as D.
  destruct (Z.ggcd n 1) as [g [a b]]. cbn [fst snd] in *.
  rewrite Z.gcd_1_r in G. subst g. destruct D as [Da Db].
  assert (Ea : a = n) by lia. assert (Eb : b = 1) by lia.
  rewrite Ea, Eb. reflexivity.
Qed.


Lemma round64_nearest (q r : Q) : round64 q = Some r -> r = Qred (nearest q).
Proof.
  unfold round64. destruct (Qle_bool _ _); [discriminate |].
  intros H. injection H as <-. reflexivity.
Qed.

Lemma round64_value (q r : Q) : round64 q = Some r -> (r == nearest q)%Q.
Proof. intros H. rewrite (round64_nearest q r H). apply Qred_correct. Qed.

Lemma round64_mono (p q r s : Q) :
  round64 p = Some r -> round64 q = Some s -> (p <= q)%Q -> (r <= s)%Q.
Proof.
  intros Hp Hq Hle.
  rewrite (round64_value p r Hp), (round64_value q s Hq).
  apply nearest_mono. exact Hle.
Qed.

Lemma round64_comp (p q : Q) : (p == q)%Q -> round64 p = round64 q.
Proof.
  intros E. unfold round64. pose proof (nearest_comp p q E) as N.
  rewrite (Qred_complete _ _ N).
  assert (A : (Qabs (nearest p) == Qabs (nearest q))%Q) by (rewrite N; reflexivity).
  rewrite (Qleb_comp _ _ (Qeq_refl _) _ _ A). reflexivity.
Qed.

Lemma round64_fixed (q : Q) : is_double q -> (nearest q == q)%Q.
Proof. intros H. symmetry. apply round64_value. exact H. Qed.

Lemma round64_in_range (q : Q) :
  (Qabs (nearest q) < 2 ^ 1024)%Q -> round64 q = Some (Qred (nearest q)).
Proof.
  intros H. unfold round64.
  destruct (Qle_bool _ _) eqn:B; [| reflexivity].
  apply Qle_bool_iff in B. exfalso. apply (Qlt_irrefl (2 ^ 1024)%Q).
  eapply Qle_lt_trans; eassumption.
Qed.

Lemma round64_Z (n : Z) :
  Z.abs n < 2 ^ 53 -> round64 (inject_Z n) = Some (inject_Z n).
Proof.
  intros H. pose proof (nearest_Z n H) as N.
  rewrite round64_in_range.
  - rewrite (Qred_complete _ _ N), Qred_inject_Z. reflexivity.
  - rewrite N. change (Qabs (inject_Z n)) with (inject_Z (Z.abs n)).
    eapply Qlt_le_trans with (2 ^ 53)%Q.
    + rewrite (two_inject 53) by lia. rewrite <- Zlt_Qlt. exact H.
    + apply two_le. lia.
Qed.


(** *** A double rounds to itself *)
Lemma grid_floor (q : Q) : -1074 <= grid q.
Proof. unfold grid. lia. Qed.

Lemma nearest_coarse (q : Q) (m x : Z) :
  (q == inject_Z m * 2 ^ x)%Q -> grid q <= x -> (nearest q == q)%Q.
Proof.
  intros E G. rewrite nearest_on_grid.
  apply (on_grid_fixed _ (m * 2 ^ (x - grid q))).
  rewrite inject_Z_mult. rewrite <- two_inject by lia.
  rewrite <- Qmult_assoc, <- two_plus.
  replace (x - grid q + grid q) with x by ring. exact E.
Qed.

Lemma mantissa_bound (q : Q) :
  Z.abs (Qnearest (q / 2 ^ grid q)) <= 2 ^ 53.
Proof.
  destruct (Qeq_dec q 0) as [Z0 | NZ].
  - assert (E : (q / 2 ^ grid q == inject_Z 0)%Q).
    { assert (Hn : Qnum q = 0) by (unfold Qeq in Z0; cbn in Z0; lia).
      unfold Qeq, Qdiv, Qmult. cbn [Qnum Qden inject_Z]. rewrite Hn. lia. }
    rewrite (Qnearest_comp _ _ E), Qnearest_Z. cbn. lia.
  - destruct (Qlog2_spec q NZ) as [_ U].
    assert (B : (Qabs (q / 2 ^ grid q) <= inject_Z (2 ^ 53))%Q).
    { unfold Qdiv. rewrite Qabs_Qmult.
      rewrite (Qabs_pos (/ 2 ^ grid q))
        by (apply Qlt_le_weak, Qinv_lt_0_compat, two_pos).
      apply Qle_shift_div_r; [apply two_pos |].
      rewrite <- two_inject by lia. rewrite <- two_plus.
      apply Qlt_le_weak. eapply Qlt_le_trans; [exact U |].
      apply two_le. unfold grid. lia. }
    apply Qabs_Qle_condition in B. destruct B as [B1 B2].
    apply Qnearest_mono in B1. apply Qnearest_mono in B2.
    rewrite <- inject_Z_opp in B1.
    rewrite Qnearest_Z in B1, B2. lia.
Qed.

Lemma Qlog2_below (q : Q) (e : Z) :
  ~ (q == 0)%Q -> (Qabs q < 2 ^ e)%Q -> Qlog2 q < e.
Proof.
  intros NZ H. destruct (Qlog2_spec q NZ) as [L _].
  apply two_lt_inv. eapply Qle_lt_trans; eassumption.
Qed.

Lemma nearest_idem (q : Q) : (nearest (nearest q) == nearest q)%Q.
Proof.
  pose proof (mantissa_bound q) as B. pose proof (grid_floor q) as F.
  set (x := grid q) in *. set (m := Qnearest (q / 2 ^ x)) in *.
  assert (E : (nearest q == inject_Z m * 2 ^ x)%Q) by reflexivity.
  destruct (Qeq_dec (nearest q) 0) as [Z0 | NZ].
  - rewrite (nearest_zero _ Z0). symmetry. exact Z0.
  - assert (A : (Qabs (nearest q) == inject_Z (Z.abs m) * 2 ^ x)%Q).
    { rewrite E, Qabs_Qmult. rewrite (Qabs_pos (2 ^ x))
        by (apply Qlt_le_weak, two_pos). reflexivity. }
    destruct (Z.eq_dec (Z.abs m) (2 ^ 53)) as [Top | Below].
    + assert (P : (Qabs (nearest q) == 2 ^ (x + 53))%Q).
      { rewrite A, Top. rewrite <- two_inject by lia.
        rewrite <- two_plus. replace (53 + x) with (x + 53) by ring.
        reflexivity. }
      assert (L : Qlog2 (nearest q) = x + 53).
      { apply Qlog2_unique; rewrite P.
        - apply Qle_refl.
        - apply Qpower_lt_compat_l; [lia | reflexivity]. }
      apply (nearest_coarse _ (m / 2) (x + 1)).
      * rewrite E. rewrite two_plus.
        assert (M : m = (m / 2) * 2).
        { assert (Hm : m = 2 ^ 53 \/ m = - 2 ^ 53) by lia.
          destruct Hm as [-> | ->]; reflexivity. }
        rewrite M at 1. rewrite inject_Z_mult.
        change (2 ^ 1)%Q with (inject_Z 2). ring.
      * unfold grid. rewrite L. lia.
    + apply (nearest_coarse _ m x); [exact E |].
      assert (Qlog2 (nearest q) < x + 53).
      { apply Qlog2_below; [exact NZ |]. rewrite A.
        rewrite two_plus. rewrite (Qmult_comm (2 ^ x)).
        apply Qmult_lt_compat_r; [apply two_pos |].
        rewrite (two_inject 53) by lia. rewrite <- Zlt_Qlt. lia. }
      unfold grid. lia.
Qed.

(** What [round64] returns is a double. *)
Lemma round64_is_double (q r : Q) : round64 q = Some r -> is_double r.
Proof.
  intros H. pose proof (round64_nearest q r H) as E.
  unfold is_double. unfold round64 in *.
  assert (N : (nearest r == nearest q)%Q).
  { rewrite E. rewrite (nearest_comp _ _ (Qred_correct _)). apply nearest_idem. }
  assert (A : (Qabs (nearest r) == Qabs (nearest q))%Q) by (rewrite N; reflexivity).
  rewrite (Qleb_comp _ _ (Qeq_refl _) _ _ A).
  destruct (Qle_bool _ _); [discriminate |].
  rewrite (Qred_complete _ _ N). congruence.
Qed.

(** ** The scaler in doubles *)

(** A bound on the argument is a bound on the result. *)
Lemma round64_le (q b : Q) :
  (nearest b == b)%Q -> (b < 2 ^ 1024)%Q -> (Qabs q <= b)%Q ->
  exists r, round64 q = Some r /\ (Qabs r <= b)%Q.
Proof.
  intros Fb Rb H. apply Qabs_Qle_condition in H. destruct H as [H1 H2].
  apply nearest_mono in H1. apply nearest_mono in H2.
  rewrite nearest_opp, Fb in H1. rewrite Fb in H2.
  assert (A : (Qabs (nearest q) <= b)%Q)
    by (apply Qabs_Qle_condition; split; assumption).
  exists (Qred (nearest q)). split.
  - apply round64_in_range. eapply Qle_lt_trans; eassumption.
  - rewrite Qred_correct. exact A.
Qed.

Lemma nearest_two (k : Z) : -1074 <= k -> (nearest (2 ^ k) == 2 ^ k)%Q.
Proof.
  intros H. apply (nearest_coarse _ 1 k).
  - rewrite Qmult_1_l. reflexivity.
  - assert (L : Qlog2 (2 ^ k) = k).
    { apply Qlog2_unique.
      - rewrite Qabs_pos by (apply Qlt_le_weak, two_pos). apply Qle_refl.
      - rewrite Qabs_pos by (apply Qlt_le_weak, two_pos).
        apply Qpower_lt_compat_l; [lia | reflexivity]. }
    unfold grid. rewrite L. lia.
Qed.

Lemma round64_below (q : Q) (k : Z) :
  -1074 <= k < 1024 -> (Qabs q <= 2 ^ k)%Q ->
  exists r, round64 q = Some r /\ (Qabs r <= 2 ^ k)%Q.
Proof.
  intros Hk H. apply round64_le; [apply nearest_two; lia | | exact H].
  apply Qpower_lt_compat_l; [lia | reflexivity].
Qed.

Lemma py_mul_float (d : Live.number) (f : Q) :
  Live.py_mul d (Live.Float f) =
  obind (Live.to_float d) (fun x => Live.float_result (x * f)).
Proof. destruct d; reflexivity. Qed.

Lemma py_add_float (lo : Live.number) (p : Q) :
  Live.py_add lo (Live.Float p) =
  obind (Live.to_float lo) (fun x => Live.float_result (x + p)).
Proof. destruct lo; reflexivity. Qed.

(** [map_scale] on integer input bounds, operation by operation. *)
Lemma map_scale_steps (x a b : Z) (osta osto : pyvalue)
  (lo hi d : Live.number) (d' lo' f p q : Q) :
  Live.number_of osta = Some lo -> Live.number_of osto = Some hi ->
  Live.py_sub hi lo = Ok d -> Live.to_float d = Ok d' ->
  Live.to_float lo = Ok lo' ->
  b - a <> 0 ->
  round64 (inject_Z (x - a) / inject_Z (b - a)) = Some f ->
  round64 (d' * f) = Some p ->
  round64 (lo' + p) = Some q ->
  Live.map_scale (VInt x) (VInt a) (VInt b) osta osto = Ok (VFloat q).
Proof.
  intros Hlo Hhi Hd Hd' Hlo' Hm Hf Hp Hq.
  unfold Live.map_scale, Live.numeric. rewrite Hhi, Hlo. cbn [obind].
  rewrite Hd. cbn [obind Live.number_of Live.py_sub Live.py_truediv].
  destruct (b - a =? 0) eqn:E; [lia |]. rewrite Hf. cbn [obind].
  rewrite py_mul_float, Hd'. cbn [obind]. unfold Live.float_result.
  rewrite Hp. cbn [obind]. rewrite py_add_float, Hlo'. cbn [obind].
  unfold Live.float_result. rewrite Hq. reflexivity.
Qed.

Lemma map_scale_shape (x a b : Z) (osta osto r : pyvalue) :
  Live.map_scale (VInt x) (VInt a) (VInt b) osta osto = Ok r ->
  b - a <> 0 /\
  exists (lo hi d : Live.number) (d' lo' f p q : Q),
    Live.number_of osta = Some lo /\ Live.number_of osto = Some hi /\
    Live.py_sub hi lo = Ok d /\ Live.to_float d = Ok d' /\
    Live.to_float lo = Ok lo' /\
    round64 (inject_Z (x - a) / inject_Z (b - a)) = Some f /\
    round64 (d' * f) = Some p /\
    round64 (lo' + p) = Some q /\
    r = VFloat q.
Proof.
  unfold Live.map_scale, Live.numeric.
  destruct (Live.number_of osto) as [hi |]; [| discriminate].
  destruct (Live.number_of osta) as [lo |]; [| discriminate].
  cbn [obind]. destruct (Live.py_sub hi lo) as [d | |] eqn:Hd;
    [| discriminate | discriminate].
  cbn [obind Live.number_of Live.py_sub Live.py_truediv].
  destruct (b - a =? 0) eqn:E; [discriminate |].
  destruct (round64 (inject_Z (x - a) / inject_Z (b - a))) as [f |] eqn:Hf;
    [| discriminate].
  cbn [obind]. rewrite py_mul_float.
  destruct (Live.to_float d) as [d' | |] eqn:Hd'; [| discriminate | discriminate].
  cbn [obind]. unfold Live.float_result at 1.
  destruct (round64 (d' * f)) as [p |] eqn:Hp; [| discriminate].
  cbn [obind]. rewrite py_add_float.
  destruct (Live.to_float lo) as [lo' | |] eqn:Hlo'; [| discriminate | discriminate].
  cbn [obind]. unfold Live.float_result.
  destruct (round64 (lo' + p)) as [q |] eqn:Hq; [| discriminate].
  cbn [obind Live.value_of]. intros H. injection H as <-.
  split; [lia |]. exists lo, hi, d, d', lo', f, p, q. repeat split; assumption.
Qed.


(** The value a number has, and the double it converts to. *)
Lemma number_value (v : pyvalue) (n : Live.number) (q : Q) :
  Live.number_of v = Some n -> as_number v = Some q ->
  match n with Live.Int z => q = inject_Z z | Live.Float x => q = x end.
Proof.
  destruct v; cbn; try discriminate; intros H1 H2;
    injection H1 as <-; injection H2 as <-; try reflexivity.
  match goal with x : bool |- _ => destruct x end; reflexivity.
Qed.

Lemma to_float_nearest (v : pyvalue) (n : Live.number) (q q' : Q) :
  finite_number v ->
  Live.number_of v = Some n -> as_number v = Some q ->
  Live.to_float n = Ok q' ->
  is_double q' /\ (q' == nearest q)%Q.
Proof.
  intros F Hn Hq Hf. pose proof (number_value v n q Hn Hq) as V.
  destruct n as [z | x]; cbn in Hf.
  - subst q. destruct (round64 (inject_Z z)) as [r |] eqn:R; [| discriminate].
    injection Hf as <-. split; [eapply round64_is_double; exact R |].
    apply round64_value. exact R.
  - subst q. injection Hf as <-.
    destruct v; cbn in Hn; try discriminate.
    injection Hn as <-. cbn in F. split; [exact F |].
    symmetry. apply round64_fixed. exact F.
Qed.

(** The difference of the bounds, as a double: its sign is the sign of the
    exact difference, and it is the exact difference when that is a
    double. *)
Lemma span_sign (osta osto : pyvalue) (lo hi d : Live.number)
  (lo_q hi_q d' : Q) :
  finite_number osta -> finite_number osto ->
  Live.number_of osta = Some lo -> Live.number_of osto = Some hi ->
  as_number osta = Some lo_q -> as_number osto = Some hi_q ->
  Live.py_sub hi lo = Ok d -> Live.to_float d = Ok d' ->
  is_double d' /\
  ((lo_q <= hi_q)%Q -> (0 <= d')%Q) /\
  ((hi_q <= lo_q)%Q -> (d' <= 0)%Q) /\
  (representable lo_q -> representable hi_q -> representable (hi_q - lo_q) ->
   (d' == hi_q - lo_q)%Q).
Proof.
  intros Fa Fo Hlo Hhi Qlo Qhi Hd Hd'.
  assert (S : exists lo' hi' e,
             (lo' == nearest lo_q)%Q /\ (hi' == nearest hi_q)%Q /\
             (e == hi_q - lo_q \/ e == hi' - lo')%Q /\
             round64 e = Some d').
  { destruct hi as [zh | xh], lo as [zl | xl];
      pose proof (number_value _ _ _ Hlo Qlo) as Vl;
      pose proof (number_value _ _ _ Hhi Qhi) as Vh; cbn in Vl, Vh.
    - cbn in Hd. injection Hd as <-. cbn in Hd'.
      destruct (round64 (inject_Z (zh - zl))) as [r |] eqn:R; [| discriminate].
      injection Hd' as <-.
      exists (nearest lo_q), (nearest hi_q), (inject_Z (zh - zl)).
      repeat split; try reflexivity; [| exact R].
      left. subst. unfold Zminus. rewrite inject_Z_plus, inject_Z_opp.
      reflexivity.
    - unfold Live.py_sub, Live.float_op in Hd.
      destruct (Live.to_float (Live.Int zh)) as [h' | |] eqn:Th; try discriminate.
      cbn [obind Live.to_float] in Hd. unfold Live.float_result in Hd.
      destruct (round64 (h' - xl)) as [r |] eqn:R; [| discriminate].
      injection Hd as <-. cbn in Hd'. injection Hd' as <-.
      destruct (to_float_nearest _ _ _ _ Fo Hhi Qhi Th) as [_ Eh].
      destruct (to_float_nearest osta (Live.Float xl) lo_q xl Fa Hlo Qlo eq_refl)
        as [_ El].
      exists xl, h', (h' - xl)%Q. repeat split; try assumption.
      right. reflexivity.
    - unfold Live.py_sub, Live.float_op in Hd. cbn [Live.to_float obind] in Hd.
      destruct (round64 (inject_Z zl)) as [l' |] eqn:Tl; [| discriminate].
      cbn [obind] in Hd. unfold Live.float_result in Hd.
      destruct (round64 (xh - l')) as [r |] eqn:R; [| discriminate].
      injection Hd as <-. cbn in Hd'. injection Hd' as <-.
      destruct (to_float_nearest osto (Live.Float xh) hi_q xh Fo Hhi Qhi eq_refl)
        as [_ Eh].
      assert (Tl' : Live.to_float (Live.Int zl) = Ok l') by (cbn; rewrite Tl; reflexivity).
      destruct (to_float_nearest _ _ _ _ Fa Hlo Qlo Tl') as [_ El].
      exists l', xh, (xh - l')%Q. repeat split; try assumption.
      right. reflexivity.
    - unfold Live.py_sub, Live.float_op in Hd. cbn [Live.to_float obind] in Hd.
      unfold Live.float_result in Hd.
      destruct (round64 (xh - xl)) as [r |] eqn:R; [| discriminate].
      injection Hd as <-. cbn in Hd'. injection Hd' as <-.
      destruct (to_float_nearest osto (Live.Float xh) hi_q xh Fo Hhi Qhi eq_refl)
        as [_ Eh].
      destruct (to_float_nearest osta (Live.Float xl) lo_q xl Fa Hlo Qlo eq_refl)
        as [_ El].
      exists xl, xh, (xh - xl)%Q. repeat split; try assumption.
      right. reflexivity. }
  destruct S as (lo' & hi' & e & El & Eh & Ee & R).
  pose proof (round64_value _ _ R) as V.
  split; [eapply round64_is_double; exact R |].
  split; [| split].
  - intros H. rewrite V. apply nearest_nonneg.
    destruct Ee as [-> | ->].
    + rewrite <- (Qplus_opp_r lo_q). apply Qplus_le_compat; [exact H | apply Qle_refl].
    + rewrite El, Eh. rewrite <- (Qplus_opp_r (nearest lo_q)).
      apply Qplus_le_compat; [apply nearest_mono; exact H | apply Qle_refl].
  - intros H. rewrite V. apply nearest_nonpos.
    destruct Ee as [-> | ->].
    + rewrite <- (Qplus_opp_r lo_q). apply Qplus_le_compat; [exact H | apply Qle_refl].
    + rewrite El, Eh. rewrite <- (Qplus_opp_r (nearest lo_q)).
      apply Qplus_le_compat; [apply nearest_mono; exact H | apply Qle_refl].
  - intros Rl Rh Rd. unfold representable in *. rewrite V.
    assert (E : (e == hi_q - lo_q)%Q).
    { destruct Ee as [-> | ->]; [reflexivity |]. rewrite El, Eh, Rl, Rh. reflexivity. }
    rewrite (nearest_comp _ _ E). exact Rd.
Qed.

Lemma round64_zero (q : Q) : (q == 0)%Q -> round64 q = Some 0%Q.
Proof. intros E. rewrite (round64_comp q 0 E). reflexivity. Qed.

Lemma round64_one (q : Q) : (q == 1)%Q -> round64 q = Some 1%Q.
Proof. intros E. rewrite (round64_comp q 1 E). reflexivity. Qed.

Lemma midi_ratio_le (v1 v2 : Z) :
  v1 <= v2 ->
  (inject_Z (v1 - 0) / inject_Z (127 - 0) <=
   inject_Z (v2 - 0) / inject_Z (127 - 0))%Q.
Proof.
  intros H. unfold Qdiv. apply Qmult_le_compat_r.
  - rewrite <- Zle_Qle. lia.
  - discriminate.
Qed.





(** *** The scaled value stays between the bounds *)

Lemma midi_ratio_unit (v : Z) (f : Q) :
  0 <= v <= 127 ->
  round64 (inject_Z (v - 0) / inject_Z (127 - 0)) = Some f ->
  (0 <= f <= 1)%Q.
Proof.
  intros Hv Hf. split.
  - apply (round64_mono (inject_Z (0 - 0) / inject_Z (127 - 0))
             (inject_Z (v - 0) / inject_Z (127 - 0)) 0 f);
      [apply round64_zero; reflexivity | exact Hf |].
    apply midi_ratio_le. lia.
  - apply (round64_mono (inject_Z (v - 0) / inject_Z (127 - 0))
             (inject_Z (127 - 0) / inject_Z (127 - 0)) f 1);
      [exact Hf | apply round64_one; reflexivity |].
    apply midi_ratio_le. lia.
Qed.

Lemma scaled_between (v : Z) (osta osto : pyvalue) (lo hi r : Q) :
  finite_number osta -> finite_number osto ->
  as_number osta = Some lo -> as_number osto = Some hi ->
  representable lo -> representable hi -> representable (hi - lo) ->
  0 <= v <= 127 ->
  Live.map_scale (VInt v) (VInt 0) (VInt 127) osta osto = Ok (VFloat r) ->
  ((lo <= hi)%Q -> (lo <= r <= hi)%Q) /\
  ((hi <= lo)%Q -> (hi <= r <= lo)%Q).
Proof.
  intros Fa Fo Qlo Qhi Rl Rh Rd Hv H.
  apply map_scale_shape in H. destruct H as
    (_ & nlo & nhi & d & d' & lo' & f & p & q &
     Hlo & Hhi & Hd & Hd' & Hlo' & Hf & Hp & Hq & E).
  injection E as ->.
  destruct (to_float_nearest _ _ _ _ Fa Hlo Qlo Hlo') as [_ N].
  destruct (span_sign _ _ _ _ _ _ _ _ Fa Fo Hlo Hhi Qlo Qhi Hd Hd')
    as (Dd & _ & _ & Ex).
  specialize (Ex Rl Rh Rd). unfold representable in *. rewrite Rl in N.
  destruct (midi_ratio_unit v f Hv Hf) as [F0 F1].
  pose proof (round64_value _ _ Hp) as Vp.
  pose proof (round64_value _ _ Hq) as Vq.
  assert (Nd : (nearest d' == d')%Q) by (apply round64_fixed; exact Dd).
  assert (Lo : forall u, (lo <= u)%Q -> (lo <= nearest u)%Q).
  { intros u Hu. apply Qle_trans with (nearest lo);
      [rewrite Rl; apply Qle_refl | apply nearest_mono; exact Hu]. }
  assert (Lo' : forall u, (u <= lo)%Q -> (nearest u <= lo)%Q).
  { intros u Hu. apply Qle_trans with (nearest lo);
      [apply nearest_mono; exact Hu | rewrite Rl; apply Qle_refl]. }
  assert (Hi : forall u, (u <= hi)%Q -> (nearest u <= hi)%Q).
  { intros u Hu. apply Qle_trans with (nearest hi);
      [apply nearest_mono; exact Hu | rewrite Rh; apply Qle_refl]. }
  assert (Hi' : forall u, (hi <= u)%Q -> (hi <= nearest u)%Q).
  { intros u Hu. apply Qle_trans with (nearest hi);
      [rewrite Rh; apply Qle_refl | apply nearest_mono; exact Hu]. }
  assert (Sum : (lo + d' == hi)%Q) by (rewrite Ex; ring).
  split; intros Hle.
  - assert (D0 : (0 <= d')%Q).
    { rewrite Ex. rewrite <- (Qplus_opp_r lo).
      apply Qplus_le_compat; [exact Hle | apply Qle_refl]. }
    assert (P0 : (0 <= p)%Q).
    { rewrite Vp. apply nearest_nonneg. apply Qmult_le_0_compat; assumption. }
    assert (P1 : (p <= d')%Q).
    { apply Qle_trans with (nearest d'); [| rewrite Nd; apply Qle_refl].
      rewrite Vp. apply nearest_mono.
      rewrite <- (Qmult_1_r d') at 2. rewrite !(Qmult_comm d').
      apply Qmult_le_compat_r; assumption. }
    rewrite Vq. split.
    + apply Lo. rewrite N. rewrite <- (Qplus_0_r lo) at 1.
      apply Qplus_le_compat; [apply Qle_refl | exact P0].
    + apply Hi. rewrite N, <- Sum.
      apply Qplus_le_compat; [apply Qle_refl | exact P1].
  - assert (D0 : (0 <= - d')%Q).
    { rewrite Ex. setoid_replace (- (hi - lo))%Q with (lo - hi)%Q by ring.
      rewrite <- (Qplus_opp_r hi).
      apply Qplus_le_compat; [exact Hle | apply Qle_refl]. }
    assert (P0 : (p <= 0)%Q).
    { rewrite Vp. apply nearest_nonpos.
      setoid_replace (d' * f)%Q with (- ((- d') * f))%Q by ring.
      setoid_replace 0%Q with (- 0)%Q by reflexivity.
      apply Qopp_le_compat. apply Qmult_le_0_compat; assumption. }
    assert (P1 : (d' <= p)%Q).
    { apply Qle_trans with (nearest d'); [rewrite Nd; apply Qle_refl |].
      rewrite Vp. apply nearest_mono.
      setoid_replace d' with (- ((- d') * 1))%Q at 1 by ring.
      setoid_replace (d' * f)%Q with (- ((- d') * f))%Q by ring.
      apply Qopp_le_compat. rewrite !(Qmult_comm (- d')).
      apply Qmult_le_compat_r; assumption. }
    rewrite Vq. split.
    + apply Hi'. rewrite N, <- Sum.
      apply Qplus_le_compat; [apply Qle_refl | exact P1].
    + apply Lo'. rewrite N. rewrite <- (Qplus_0_r lo) at 2.
      apply Qplus_le_compat; [apply Qle_refl | exact P0].
Qed.

(** *** The scaler returns *)

Lemma to_float_bounded (v : pyvalue) (n : Live.number) (q : Q) (k : Z) :
  finite_number v ->
  Live.number_of v = Some n -> as_number v = Some q ->
  -1074 <= k < 1024 -> (Qabs q <= 2 ^ k)%Q ->
  exists q', Live.to_float n = Ok q' /\ (Qabs q' <= 2 ^ k)%Q.
Proof.
  intros F Hn Hq Hk B. pose proof (number_value v n q Hn Hq) as V.
  destruct n as [z | x]; subst q; cbn [Live.to_float].
  - destruct (round64_below _ k Hk B) as (r & R & Br).
    rewrite R. exists r. split; [reflexivity | exact Br].
  - exists x. split; [reflexivity | exact B].
Qed.

Lemma Qabs_minus_le (x y bx bye : Q) :
  (Qabs x <= bx)%Q -> (Qabs y <= bye)%Q -> (Qabs (x - y) <= bx + bye)%Q.
Proof.
  intros Hx Hy. eapply Qle_trans; [apply Qabs_triangle |].
  rewrite Qabs_opp. apply Qplus_le_compat; assumption.
Qed.

Lemma Qabs_plus_le (x y bx bye : Q) :
  (Qabs x <= bx)%Q -> (Qabs y <= bye)%Q -> (Qabs (x + y) <= bx + bye)%Q.
Proof.
  intros Hx Hy. eapply Qle_trans; [apply Qabs_triangle |].
  apply Qplus_le_compat; assumption.
Qed.

Lemma two_double (k : Z) : (2 ^ k + 2 ^ k == 2 ^ (k + 1))%Q.
Proof. rewrite two_plus. change (2 ^ 1)%Q with 2%Q. ring. Qed.

Lemma span_bounded (osta osto : pyvalue) (lo hi : Live.number)
  (lo_q hi_q : Q) :
  finite_number osta -> finite_number osto ->
  Live.number_of osta = Some lo -> Live.number_of osto = Some hi ->
  as_number osta = Some lo_q -> as_number osto = Some hi_q ->
  (Qabs lo_q <= 2 ^ 1022)%Q -> (Qabs hi_q <= 2 ^ 1022)%Q ->
  exists d d', Live.py_sub hi lo = Ok d /\ Live.to_float d = Ok d' /\
               (Qabs d' <= 2 ^ 1023)%Q.
Proof.
  intros Fa Fo Hlo Hhi Qlo Qhi Bl Bh.
  assert (K : -1074 <= 1022 < 1024) by lia.
  assert (K' : -1074 <= 1023 < 1024) by lia.
  destruct (to_float_bounded _ _ _ _ Fa Hlo Qlo K Bl) as (l' & Tl & Bl').
  destruct (to_float_bounded _ _ _ _ Fo Hhi Qhi K Bh) as (h' & Th & Bh').
  assert (Bd : (Qabs (h' - l') <= 2 ^ 1023)%Q).
  { rewrite <- (two_double 1022). apply Qabs_minus_le; assumption. }
  destruct (round64_below _ _ K' Bd) as (r & R & Br).
  pose proof (number_value _ _ _ Hlo Qlo) as Vl.
  pose proof (number_value _ _ _ Hhi Qhi) as Vh.
  destruct hi as [zh | xh], lo as [zl | xl].
  - subst. cbn [Live.py_sub].
    assert (Bz : (Qabs (inject_Z (zh - zl)) <= 2 ^ 1023)%Q).
    { unfold Zminus. rewrite inject_Z_plus, inject_Z_opp.
      rewrite <- (two_double 1022). apply Qabs_minus_le; assumption. }
    destruct (round64_below _ _ K' Bz) as (rz & Rz & Brz).
    exists (Live.Int (zh - zl)), rz. cbn [Live.to_float]. rewrite Rz.
    repeat split; [exact Brz].
  - exists (Live.Float r), r. unfold Live.py_sub, Live.float_op.
    rewrite Th, Tl. cbn [obind]. unfold Live.float_result. rewrite R.
    repeat split; exact Br.
  - exists (Live.Float r), r. unfold Live.py_sub, Live.float_op.
    rewrite Th, Tl. cbn [obind]. unfold Live.float_result. rewrite R.
    repeat split; exact Br.
  - exists (Live.Float r), r. unfold Live.py_sub, Live.float_op.
    rewrite Th, Tl. cbn [obind]. unfold Live.float_result. rewrite R.
    repeat split; exact Br.
Qed.

Lemma three_representable : (nearest (inject_Z 3 * 2 ^ 1022) == inject_Z 3 * 2 ^ 1022)%Q.
Proof.
  apply (nearest_coarse _ 3 1022); [reflexivity |]. vm_compute. discriminate.
Qed.

(** For bounds within [2^1022] in magnitude and a value of the MIDI range
    the scaler returns a double. *)
Lemma map_scale_returns (v : Z) (osta osto : pyvalue) (lo hi : Q) :
  finite_number osta -> finite_number osto ->
  as_number osta = Some lo -> as_number osto = Some hi ->
  (Qabs lo <= 2 ^ 1022)%Q -> (Qabs hi <= 2 ^ 1022)%Q ->
  0 <= v <= 127 ->
  exists q,
    Live.map_scale (VInt v) (VInt 0) (VInt 127) osta osto = Ok (VFloat q).
Proof.
  intros Fa Fo Qlo Qhi Bl Bh Hv.
  assert (Nl : exists nlo, Live.number_of osta = Some nlo).
  { destruct osta; cbn in Qlo |- *; try discriminate; eauto. }
  assert (Nh : exists nhi, Live.number_of osto = Some nhi).
  { destruct osto; cbn in Qhi |- *; try discriminate; eauto. }
  destruct Nl as [nlo Hlo]. destruct Nh as [nhi Hhi].
  destruct (span_bounded _ _ _ _ _ _ Fa Fo Hlo Hhi Qlo Qhi Bl Bh)
    as (d & d' & Hd & Hd' & Bd).
  destruct (to_float_bounded _ _ _ 1022 Fa Hlo Qlo ltac:(lia) Bl)
    as (lo' & Hlo' & Bl').
  assert (Bf : (Qabs (inject_Z (v - 0) / inject_Z (127 - 0)) <= 2 ^ 0)%Q).
  { apply Qabs_Qle_condition. split.
    - apply Qle_trans with 0%Q; [discriminate |].
      apply Qle_shift_div_l; [reflexivity |]. rewrite Qmult_0_l.
      change 0%Q with (inject_Z 0). rewrite <- Zle_Qle. lia.
    - apply Qle_shift_div_r; [reflexivity |]. rewrite Qmult_1_l.
      rewrite <- Zle_Qle. lia. }
  destruct (round64_below _ 0 ltac:(lia) Bf) as (f & Hf & Bf').
  assert (Bp : (Qabs (d' * f) <= 2 ^ 1023)%Q).
  { rewrite Qabs_Qmult. rewrite <- (Qmult_1_r (2 ^ 1023)).
    apply Qmult_le_compat_nonneg; split;
      [apply Qabs_nonneg | exact Bd | apply Qabs_nonneg | exact Bf']. }
  destruct (round64_below _ 1023 ltac:(lia) Bp) as (p & Hp & Bp').
  assert (Bq : (Qabs (lo' + p) <= inject_Z 3 * 2 ^ 1022)%Q).
  { setoid_replace (inject_Z 3 * 2 ^ 1022)%Q with (2 ^ 1022 + 2 ^ 1023)%Q
      by reflexivity.
    apply Qabs_plus_le; assumption. }
  destruct (round64_le _ _ three_representable ltac:(reflexivity) Bq)
    as (q & Hq & _).
  exists q. apply (map_scale_steps v 0 127 osta osto nlo nhi d d' lo' f p q);
    try assumption. lia.
Qed.


Lemma representable_double (q : Q) : is_double q -> representable q.
Proof. apply round64_fixed. Qed.




(** ** The handlers and the connection *)

Section LiveHandlers.

Variable py_repr : pyvalue -> string.
Variable float_pow3 : Q -> outcome Q.

(** What [%] returns is a text. *)
Lemma py_mod_text (lhs : pyvalue) (rhs : operand) (m : pyvalue) :
  py_mod py_repr lhs rhs = Ok m -> exists s, m = VStr s.
Proof.
  unfold py_mod. destruct lhs; try discriminate;
    try (destruct (is_numeric rhs); discriminate).
  destruct (format_go py_repr s (operand_args rhs)) as [[text unused] | e |];
    try discriminate.
  destruct unused; [| destruct (is_mapping rhs); [| discriminate]];
    intros [= <-]; eexists; reflexivity.
Qed.

Lemma follow_up_text (payload template kind m : pyvalue) :
  follow_up py_repr payload template kind = Ok (Some m) ->
  exists s, m = VStr s.
Proof.
  unfold follow_up.
  destruct (eq_str kind "ToggleSourceVisibility").
  - destruct (getitem payload "visible") as [visible | e |];
      cbn [obind]; try discriminate.
    destruct (py_mod py_repr template _) as [x | e |] eqn:E;
      cbn [obind]; try discriminate.
    intros [= <-]. eapply py_mod_text, E.
  - destruct (eq_str kind "ReloadBrowserSource"); [| discriminate].
    destruct (getitem payload "sourceSettings") as [settings | e |];
      cbn [obind]; try discriminate.
    destruct (getitem settings "url") as [source | e |];
      cbn [obind]; try discriminate.
    destruct (last_item source) as [final | e |];
      cbn [obind]; try discriminate.
    destruct (if eq_str final "#" then slice_init source
              else add_str source "#") as [target | e |];
      cbn [obind]; try discriminate.
    destruct (py_mod py_repr template _) as [x | e |] eqn:E;
      cbn [obind]; try discriminate.
    intros [= <-]. eapply py_mod_text, E.
Qed.

(** With the connection open and texts to transmit, the methods are the
    ones over the outbox. *)
Lemma send_action_connected (b : document) (self : MidiHandler) :
  textual (dict_get b "action") = true ->
  Live.send_action py_repr true b self = send_action py_repr b self.
Proof.
  intros Ht. unfold Live.send_action, send_action.
  destruct (truthy (dict_get b "action")) eqn:Ha; [| reflexivity].
  cbn [negb].
  destruct (dict_get b "action") as [| x | n | q | action | l | d] eqn:E;
    cbn [textual] in Ht; try (rewrite Ha in Ht; discriminate Ht).
  destruct (negb (truthy (dict_get b "request"))); [reflexivity |].
  unfold bind, eval.
  destruct (TEMPLATES_get (dict_get b "request")) as [template | e |];
    try reflexivity.
  destruct (negb (truthy template)); [reflexivity |].
  destruct (negb (truthy (dict_get b "target"))); [reflexivity |].
  cbn [append fst snd].
  destruct (py_mod py_repr template _) as [m | e |] eqn:Em; try reflexivity.
  destruct (py_mod_text _ _ _ Em) as [s ->]. reflexivity.
Qed.

Lemma button_loop_connected (results : list document) (self : MidiHandler) :
  Forall (fun b => textual (dict_get b "action") = true) results ->
  Live.button_loop py_repr true results self = button_loop py_repr results self.
Proof.
  intros H. revert self.
  induction H as [|b rest Hb _ IH]; intros self; [reflexivity|].
  cbn [Live.button_loop button_loop]. unfold bind.
  rewrite (send_action_connected b self Hb).
  destruct (send_action py_repr b self) as [[[|] | e |] s];
    try reflexivity. apply IH.
Qed.

Lemma resolve_loop_connected (payload : pyvalue) (pending : list entry)
  (self : MidiHandler) :
  Live.resolve_loop py_repr true payload pending self =
  resolve_loop py_repr payload pending self.
Proof.
  revert self.
  induction pending as [|[[buffered_id template] kind] rest IH];
    intros self; [reflexivity|].
  cbn [Live.resolve_loop resolve_loop]. unfold bind, eval.
  destruct (getitem payload "message-id") as [message_id | e |];
    try reflexivity.
  destruct (py_int message_id) as [n | e |]; try reflexivity.
  destruct (negb (buffered_id =? n)); [apply IH |].
  destruct (follow_up py_repr payload template kind) as [[m|] | e |] eqn:F;
    try reflexivity.
  destruct (follow_up_text _ _ _ _ F) as [s ->]. reflexivity.
Qed.

Lemma handle_obs_message_connected (payload : pyvalue) (self : MidiHandler) :
  Live.handle_obs_message py_repr true payload self =
  handle_obs_message py_repr payload self.
Proof.
  unfold Live.handle_obs_message, handle_obs_message.
  unfold bind, eval.
  destruct (py_in "error" payload) as [[|] | e |]; try reflexivity.
  destruct (getitem payload "message-id") as [message_id | e |];
    try reflexivity.
  apply resolve_loop_connected.
Qed.

(** *** [send_action] on an open connection *)

Lemma live_send_action_tracked (b : document) (self : MidiHandler)
  (request template : string) :
  truthy (dict_get b "action") = true ->
  dict_get b "request" = VStr request ->
  assoc request TEMPLATES = Some template ->
  truthy (dict_get b "target") = true ->
  exists text,
    envelope_of request (decimal (_action_counter self))
      (py_str py_repr (dict_get b "target")) = Some text /\
    Live.send_action py_repr true b self =
    (Ok true,
     tracked self (dict_get b "action") (VStr request) (VStr text)).
Proof.
  intros Ha Hr Ht Hg.
  destruct (TEMPLATES_format py_repr request template
              (_action_counter self) (dict_get b "target") Ht)
    as [text [Henv Hfmt]].
  exists text. split; [exact Henv|].
  unfold Live.send_action. rewrite Ha, Hr.
  assert (Hreq : truthy (VStr request) = true).
  { destruct request; [discriminate Ht | reflexivity]. }
  rewrite Hreq. cbn [negb]. unfold bind, eval. cbn [TEMPLATES_get].
  rewrite Ht, (template_truthy _ _ Ht), Hg. cbn [negb append Live.send fst snd].
  cbn [_action_counter]. rewrite Hfmt. reflexivity.
Qed.

(** Every outcome of [send_action] on an open connection: refused without
    effect, raised without effect, an action that is not a text, the action
    transmitted, or a tracked request registered and transmitted. *)
Lemma send_action_open_shape (b : document) (self : MidiHandler) :
  Live.send_action py_repr true b self = (Ok false, self) \/
  (Live.send_action py_repr true b self = (Raise TypeError, self) /\
   hashable (dict_get b "request") = false) \/
  (Live.send_action py_repr true b self = (Unmodelled, self) /\
   textual (dict_get b "action") = false) \/
  (exists s,
     Live.send_action py_repr true b self =
     (Ok true, transmitted self (VStr s))) \/
  (exists action request template text,
     truthy action = true /\
     assoc request TEMPLATES = Some template /\
     Live.send_action py_repr true b self =
     (Ok true, tracked self action (VStr request) (VStr text))).
Proof.
  destruct (truthy (dict_get b "action")) eqn:Ha;
    [| left; unfold Live.send_action; rewrite Ha; reflexivity].
  destruct (truthy (dict_get b "request")) eqn:Hr.
  2:{ unfold Live.send_action. rewrite Ha, Hr. cbn [negb].
      unfold bind, Live.send, ret.
      destruct (dict_get b "action") as [| x | n | q | action | l | d] eqn:E;
        cbn in Ha |- *;
        first [ right; right; right; left; eexists; reflexivity
              | right; right; left; split; [reflexivity | cbn; rewrite ?Ha; reflexivity ] ]. }
  destruct (dict_get b "request") as [| x | n | q | request | l | d] eqn:Hreq;
    try (left; unfold Live.send_action; rewrite Ha, Hreq, Hr; reflexivity).
  - destruct (assoc request TEMPLATES) as [template|] eqn:Ht.
    + destruct (truthy (dict_get b "target")) eqn:Hg.
      * right; right; right; right.
        destruct (live_send_action_tracked b self request template
                    Ha Hreq Ht Hg) as [text [_ H]].
        exists (dict_get b "action"), request, template, text. auto.
      * left. unfold Live.send_action. rewrite Ha, Hreq, Hr.
        cbn [negb]. unfold bind, eval. cbn [TEMPLATES_get].
        rewrite Ht, (template_truthy _ _ Ht), Hg. reflexivity.
    + left. unfold Live.send_action. rewrite Ha, Hreq, Hr.
      cbn [negb]. unfold bind, eval. cbn [TEMPLATES_get].
      rewrite Ht. reflexivity.
  - right; left. split; [| reflexivity].
    unfold Live.send_action. rewrite Ha, Hreq, Hr. reflexivity.
  - right; left. split; [| reflexivity].
    unfold Live.send_action. rewrite Ha, Hreq, Hr. reflexivity.
Qed.

(** *** [send_action] while the connection is closed *)

Lemma send_action_closed_verbatim (b : document) (self : MidiHandler) :
  truthy (dict_get b "action") = true ->
  truthy (dict_get b "request") = false ->
  Live.send_action py_repr false b self =
  (Raise WebSocketConnectionClosedException, self).
Proof.
  intros Ha Hr. unfold Live.send_action. rewrite Ha, Hr. reflexivity.
Qed.

(** The entry is appended before the transmission is tried, the counter is
    advanced after it: a transmission that raises leaves the entry in the
    buffer under an id the counter still holds. *)
Lemma send_action_closed_tracked (b : document) (self : MidiHandler)
  (request template : string) :
  truthy (dict_get b "action") = true ->
  dict_get b "request" = VStr request ->
  assoc request TEMPLATES = Some template ->
  truthy (dict_get b "target") = true ->
  Live.send_action py_repr false b self =
  (Raise WebSocketConnectionClosedException,
   stranded self (dict_get b "action") (VStr request)).
Proof.
  intros Ha Hr Ht Hg.
  destruct (TEMPLATES_format py_repr request template
              (_action_counter self) (dict_get b "target") Ht)
    as [text [Henv Hfmt]].
  unfold Live.send_action. rewrite Ha, Hr.
  assert (Hreq : truthy (VStr request) = true).
  { destruct request; [discriminate Ht | reflexivity]. }
  rewrite Hreq. cbn [negb]. unfold bind, eval. cbn [TEMPLATES_get].
  rewrite Ht, (template_truthy _ _ Ht), Hg. cbn [negb append Live.send fst snd].
  cbn [_action_counter]. rewrite Hfmt. reflexivity.
Qed.

(** Every outcome of [send_action] while the connection is closed. *)
Lemma send_action_closed_shape (b : document) (self : MidiHandler) :
  Live.send_action py_repr false b self = (Ok false, self) \/
  Live.send_action py_repr false b self = (Raise TypeError, self) \/
  Live.send_action py_repr false b self =
  (Raise WebSocketConnectionClosedException, self) \/
  (exists action request template,
     truthy action = true /\
     assoc request TEMPLATES = Some template /\
     Live.send_action py_repr false b self =
     (Raise WebSocketConnectionClosedException,
      stranded self action (VStr request))).
Proof.
  destruct (truthy (dict_get b "action")) eqn:Ha;
    [| left; unfold Live.send_action; rewrite Ha; reflexivity].
  destruct (truthy (dict_get b "request")) eqn:Hr;
    [| right; right; left; apply send_action_closed_verbatim; assumption].
  destruct (dict_get b "request") as [| x | n | q | request | l | d] eqn:Hreq;
    try (left; unfold Live.send_action; rewrite Ha, Hreq, Hr; reflexivity).
  - destruct (assoc request TEMPLATES) as [template|] eqn:Ht.
    + destruct (truthy (dict_get b "target")) eqn:Hg.
      * right; right; right. exists (dict_get b "action"), request, template.
        split; [exact Ha|]. split; [exact Ht|].
        eapply send_action_closed_tracked; eassumption.
      * left. unfold Live.send_action. rewrite Ha, Hreq, Hr.
        cbn [negb]. unfold bind, eval. cbn [TEMPLATES_get].
        rewrite Ht, (template_truthy _ _ Ht), Hg. reflexivity.
    + left. unfold Live.send_action. rewrite Ha, Hreq, Hr.
      cbn [negb]. unfold bind, eval. cbn [TEMPLATES_get].
      rewrite Ht. reflexivity.
  - right; left. unfold Live.send_action. rewrite Ha, Hreq, Hr. reflexivity.
  - right; left. unfold Live.send_action. rewrite Ha, Hreq, Hr. reflexivity.
Qed.

(** *** The scan of [handle_midi_fader] *)

Lemma live_handle_midi_fader_loop (connected : bool) (control value : Z)
  (self : MidiHandler) :
  Live.handle_midi_fader py_repr float_pow3 connected control value self =
  Live.fader_loop py_repr float_pow3 connected value
    (search "control_change" control self) self.
Proof.
  unfold Live.handle_midi_fader.
  destruct (search "control_change" control self); reflexivity.
Qed.

Lemma live_handle_midi_button_loop (connected : bool) (type : string)
  (note : Z) (self : MidiHandler) :
  Live.handle_midi_button py_repr connected type note self =
  Live.button_loop py_repr connected (search type note self) self.
Proof.
  unfold Live.handle_midi_button.
  destruct (search type note self); reflexivity.
Qed.

(** A candidate without [action]: [result["action"]] is read before the
    kind of the binding is looked at. *)
Lemma live_fader_loop_no_action (connected : bool) (b : document)
  (rest : list document) (value : Z) (self : MidiHandler) (kind : pyvalue) :
  lookup "input_type" b = Some kind ->
  lookup "action" b = None ->
  Live.fader_loop py_repr float_pow3 connected value (b :: rest) self =
  (Raise KeyError, self).
Proof.
  intros Hk Ha. cbn [Live.fader_loop].
  unfold bind at 1, eval at 1, doc_item. rewrite Hk.
  unfold bind at 1, eval at 1. rewrite Ha. reflexivity.
Qed.

(** The same candidate in the button chain: [send_action] refuses it and
    the scan goes on. *)
Lemma live_button_loop_no_action (connected : bool) (b : document)
  (rest : list document) (self : MidiHandler) :
  lookup "action" b = None ->
  Live.button_loop py_repr connected (b :: rest) self =
  Live.button_loop py_repr connected rest self.
Proof.
  intros Ha. cbn [Live.button_loop]. unfold bind.
  unfold Live.send_action, dict_get. rewrite Ha. reflexivity.
Qed.

Lemma live_fader_loop_button (connected : bool) (b : document)
  (rest : list document) (value : Z) (self : MidiHandler) :
  button_binding b ->
  Live.fader_loop py_repr float_pow3 connected value (b :: rest) self =
  if value =? 127 then
    (sent <- Live.send_action py_repr connected b ;;
     if sent then ret tt
     else Live.fader_loop py_repr float_pow3 connected value rest) self
  else (Ok tt, self).
Proof.
  intros [[kind [Hk Hkind]] [action Ha]]. cbn [Live.fader_loop].
  unfold bind at 1, eval at 1, doc_item. rewrite Hk.
  unfold bind at 1, eval at 1. rewrite Ha, Hkind.
  destruct (value =? 127); reflexivity.
Qed.


End LiveHandlers.

(** ** Effects, by the state of the connection *)

Section LiveEffects.

Variable py_repr : pyvalue -> string.
Variable float_pow3 : Q -> outcome Q.

Lemma live_effect_refl (connected : bool) (self : MidiHandler) :
  live_effect connected self self.
Proof. destruct connected; left; reflexivity. Qed.

Lemma live_effect_send (connected : bool) (m : pyvalue) (self : MidiHandler) :
  live_effect connected self (snd (Live.send connected m self)).
Proof.
  destruct connected; [destruct m |]; cbn;
    first [left; reflexivity | right; left; eexists; reflexivity].
Qed.

(** [send_action] either refuses without effect, or ends the scan: with a
    transmission or a tracked request when the connection is open, with an
    exception otherwise. *)
Lemma live_send_action_effect (connected : bool) (b : document)
  (self : MidiHandler) :
  Live.send_action py_repr connected b self = (Ok false, self) \/
  (fst (Live.send_action py_repr connected b self) <> Ok false /\
   live_effect connected self (snd (Live.send_action py_repr connected b self))).
Proof.
  destruct connected.
  - destruct (send_action_open_shape py_repr b self)
      as [H | [[H _] | [[H _] | [[m H] | (a & r & t & x & Ha & Ht & H)]]]];
      rewrite H.
    + left. reflexivity.
    + right. split; [discriminate | left; reflexivity].
    + right. split; [discriminate | left; reflexivity].
    + right. split; [discriminate |]. right; left. eexists. reflexivity.
    + right. split; [discriminate |]. right; right. exists a, r, t, x. auto.
  - destruct (send_action_closed_shape py_repr b self)
      as [H | [H | [H | (a & r & t & Ha & Ht & H)]]]; rewrite H.
    + left. reflexivity.
    + right. split; [discriminate | left; reflexivity].
    + right. split; [discriminate | left; reflexivity].
    + right. split; [discriminate |]. right. exists a, r, t. auto.
Qed.

Lemma live_button_loop_effect (connected : bool) (results : list document)
  (self : MidiHandler) :
  live_effect connected self
    (snd (Live.button_loop py_repr connected results self)).
Proof.
  induction results as [|b rest IH]; cbn [Live.button_loop].
  - apply live_effect_refl.
  - unfold bind.
    destruct (live_send_action_effect connected b self) as [H | [Hf He]].
    + rewrite H. exact IH.
    + destruct (Live.send_action py_repr connected b self) as [o s].
      cbn in Hf, He. destruct o as [[|] | e |]; try exact He. contradiction.
Qed.

Lemma live_fader_loop_effect (connected : bool) (value : Z)
  (results : list document) (self : MidiHandler) :
  live_effect connected self
    (snd (Live.fader_loop py_repr float_pow3 connected value results self)).
Proof.
  induction results as [|b rest IH]; cbn [Live.fader_loop].
  - apply live_effect_refl.
  - destruct (doc_item b "input_type") as [kind | e |]; cbn [bind eval];
      [| apply live_effect_refl ..].
    destruct (doc_item b "action") as [action | e |]; cbn [bind eval];
      [| apply live_effect_refl ..].
    destruct (eq_str kind "button").
    + destruct (value =? 127); [| apply live_effect_refl].
      unfold bind.
      destruct (live_send_action_effect connected b self) as [H | [Hf He]].
      * rewrite H. exact IH.
      * destruct (Live.send_action py_repr connected b self) as [o s].
        cbn in Hf, He. destruct o as [[|] | e |]; try exact He. contradiction.
    + destruct (eq_str kind "fader"); [| exact IH].
      destruct (Live.fader_message py_repr float_pow3 b action value)
        as [[m|] | e |]; cbn [bind eval].
      * apply live_effect_send.
      * exact IH.
      * apply live_effect_refl.
      * apply live_effect_refl.
Qed.

Lemma live_handle_midi_input_effect (connected : bool) (msg : message)
  (self : MidiHandler) :
  live_effect connected self
    (snd (Live.handle_midi_input py_repr float_pow3 connected msg self)).
Proof.
  destruct msg as [note velocity | program | control value | type];
    cbn [Live.handle_midi_input].
  - rewrite live_handle_midi_button_loop. apply live_button_loop_effect.
  - rewrite live_handle_midi_button_loop. apply live_button_loop_effect.
  - rewrite live_handle_midi_fader_loop. apply live_fader_loop_effect.
  - apply live_effect_refl.
Qed.

(** A reply: the follow-up that cannot be transmitted raises before the
    entry is removed. *)
Lemma live_resolve_loop_effect (connected : bool) (payload : pyvalue)
  (pending : list entry) (self : MidiHandler) :
  incl pending (_action_buffer self) ->
  reply_effect self
    (snd (Live.resolve_loop py_repr connected payload pending self)).
Proof.
  induction pending as [|[[i template] kind] rest IH]; intros Hincl;
    cbn [Live.resolve_loop].
  - left; reflexivity.
  - destruct (getitem payload "message-id") as [message_id | e |];
      cbn [bind eval]; [| left; reflexivity ..].
    destruct (py_int message_id) as [n | e |]; cbn [bind eval];
      [| left; reflexivity ..].
    destruct (negb (i =? n)).
    { apply IH. intros x Hx. apply Hincl. right. exact Hx. }
    assert (Hin : In (i, template, kind) (_action_buffer self))
      by (apply Hincl; left; reflexivity).
    destruct (list_remove_present _ _ Hin) as [l Hl].
    destruct (follow_up py_repr payload template kind) as [[m|] | e |];
      cbn [bind eval ret].
    + destruct connected; unfold bind, Live.send; cbn iota.
      * destruct m as [| x | z | q | s | vs | kv]; try (left; reflexivity).
        unfold remove. cbn [transmitted _action_buffer]. rewrite Hl.
        right. exists (i, template, kind), l. split; [exact Hl|].
        right. eexists. reflexivity.
      * left; reflexivity.
    + unfold remove. rewrite Hl.
      right. exists (i, template, kind), l. split; [exact Hl|].
      left. reflexivity.
    + left; reflexivity.
    + left; reflexivity.
Qed.

Lemma live_handle_obs_message_effect (connected : bool) (payload : pyvalue)
  (self : MidiHandler) :
  reply_effect self
    (snd (Live.handle_obs_message py_repr connected payload self)).
Proof.
  unfold Live.handle_obs_message.
  destruct (py_in "error" payload) as [[|] | e |]; cbn [bind eval];
    [| | left; reflexivity ..].
  - destruct (getitem payload "error"); cbn [bind eval ret]; left; reflexivity.
  - destruct (getitem payload "message-id") as [message_id | e |];
      cbn [bind eval]; [| left; reflexivity ..].
    apply live_resolve_loop_effect, incl_refl.
Qed.

(** While the connection is closed, a MIDI event that changed the handler
    ended in the exception of [send]. *)
Lemma closed_button_loop_outcome (results : list document)
  (self : MidiHandler) :
  snd (Live.button_loop py_repr false results self) = self \/
  fst (Live.button_loop py_repr false results self) =
  Raise WebSocketConnectionClosedException.
Proof.
  induction results as [|b rest IH]; cbn [Live.button_loop].
  - left; reflexivity.
  - unfold bind.
    destruct (send_action_closed_shape py_repr b self)
      as [H | [H | [H | (a & r & t & Ha & Ht & H)]]]; rewrite H.
    + exact IH.
    + left; reflexivity.
    + left; reflexivity.
    + right; reflexivity.
Qed.

Lemma closed_fader_loop_outcome (value : Z) (results : list document)
  (self : MidiHandler) :
  snd (Live.fader_loop py_repr float_pow3 false value results self) = self \/
  fst (Live.fader_loop py_repr float_pow3 false value results self) =
  Raise WebSocketConnectionClosedException.
Proof.
  induction results as [|b rest IH]; cbn [Live.fader_loop].
  - left; reflexivity.
  - destruct (doc_item b "input_type") as [kind | e |]; cbn [bind eval];
      [| left; reflexivity ..].
    destruct (doc_item b "action") as [action | e |]; cbn [bind eval];
      [| left; reflexivity ..].
    destruct (eq_str kind "button").
    + destruct (value =? 127); [| left; reflexivity].
      unfold bind.
      destruct (send_action_closed_shape py_repr b self)
        as [H | [H | [H | (a & r & t & Ha & Ht & H)]]]; rewrite H.
      * exact IH.
      * left; reflexivity.
      * left; reflexivity.
      * right; reflexivity.
    + destruct (eq_str kind "fader"); [| exact IH].
      destruct (Live.fader_message py_repr float_pow3 b action value)
        as [[m|] | e |]; cbn [bind eval].
      * left; reflexivity.
      * exact IH.
      * left; reflexivity.
      * left; reflexivity.
Qed.

Lemma closed_handle_midi_input_outcome (msg : message) (self : MidiHandler) :
  snd (Live.handle_midi_input py_repr float_pow3 false msg self) = self \/
  fst (Live.handle_midi_input py_repr float_pow3 false msg self) =
  Raise WebSocketConnectionClosedException.
Proof.
  destruct msg as [note velocity | program | control value | type];
    cbn [Live.handle_midi_input].
  - rewrite live_handle_midi_button_loop. apply closed_button_loop_outcome.
  - rewrite live_handle_midi_button_loop. apply closed_button_loop_outcome.
  - rewrite live_handle_midi_fader_loop. apply closed_fader_loop_outcome.
  - left; reflexivity.
Qed.

End LiveEffects.

(** A property kept by a transmission, by a tracked request and by a
    removal is kept along every run during which the connection is open. *)
Section LiveStable.

Variable py_repr : pyvalue -> string.
Variable float_pow3 : Q -> outcome Q.
Variable P : MidiHandler -> Prop.

Hypothesis P_transmitted : forall self m, P self -> P (transmitted self m).

Hypothesis P_tracked :
  forall self action request template text,
    P self ->
    truthy action = true ->
    assoc request TEMPLATES = Some template ->
    P (tracked self action (VStr request) (VStr text)).

Hypothesis P_removed :
  forall self e l,
    P self ->
    list_remove e (_action_buffer self) = Some l ->
    P (with_buffer self l).

Lemma live_stable_dispatch (i : input) (self : MidiHandler) :
  P self -> P (snd (Live.dispatch py_repr float_pow3 true i self)).
Proof.
  intros H. destruct i as [msg | payload]; cbn [Live.dispatch].
  - destruct (live_handle_midi_input_effect py_repr float_pow3 true msg self)
      as [-> | [[m ->] | (a & r & t & x & Ha & Ht & ->)]].
    + exact H.
    + apply P_transmitted, H.
    + eapply P_tracked; eassumption.
  - destruct (live_handle_obs_message_effect py_repr true payload self)
      as [-> | (e & l & Hl & [-> | [m ->]])].
    + exact H.
    + eapply P_removed; eassumption.
    + apply (P_removed (transmitted self m) e l).
      * apply P_transmitted, H.
      * exact Hl.
Qed.

Lemma live_stable_run (steps : list (bool * input)) (self self' : MidiHandler) :
  Forall (fun s => fst s = true) steps ->
  Live.run py_repr float_pow3 steps self = Some self' ->
  P self -> P self'.
Proof.
  intros Hc. revert self. induction Hc as [|[c i] rest Hci _ IH];
    intros self Hrun H; cbn [Live.run] in Hrun.
  - injection Hrun as <-. exact H.
  - cbn in Hci. subst c.
    pose proof (live_stable_dispatch i self H) as H'.
    destruct (Live.dispatch py_repr float_pow3 true i self) as [[[] | e |] s];
      [| | discriminate]; apply (IH s); assumption.
Qed.

End LiveStable.

Section LiveClaims.

Variable py_repr : pyvalue -> string.
Variable float_pow3 : Q -> outcome Q.

(** ** A controller used as a button *)

(** C1, where the code departs from it: [handle_midi_fader] reads
    [result["action"]] before it looks at the kind of the binding.  On a
    [control_change] event whose first candidate is of kind button and has
    no [action] field, [handle_midi_input] raises [KeyError] at every
    value, 127 or not, open connection or not, and the candidates behind it
    are not tried; the button chain, at such a candidate of a [note_on]
    event, goes on to the next one.  For a candidate of kind button that
    has the field, a value other than 127 returns with nothing done, and
    127 hands the candidate to [send_action] and goes on to the next
    candidate when it is refused. *)
Theorem control_button_reads_action_first (connected : bool)
  (b : document) (rest : list document) (control value : Z)
  (self : MidiHandler) (kind : pyvalue)
  (Hsearch : search "control_change" control self = b :: rest)
  (Hkind : lookup "input_type" b = Some kind)
  (Hbutton : eq_str kind "button" = true) :
  (lookup "action" b = None ->
   Live.handle_midi_input py_repr float_pow3 connected
     (control_change control value) self = (Raise KeyError, self)) /\
  (forall note velocity b' rest',
     search "note_on" note self = b' :: rest' ->
     lookup "action" b' = None ->
     Live.handle_midi_input py_repr float_pow3 connected
       (note_on note velocity) self =
     Live.button_loop py_repr connected rest' self) /\
  (forall action,
     lookup "action" b = Some action ->
     value <> 127 ->
     Live.handle_midi_input py_repr float_pow3 connected
       (control_change control value) self = (Ok tt, self)) /\
  (forall action,
     lookup "action" b = Some action ->
     value = 127 ->
     Live.handle_midi_input py_repr float_pow3 connected
       (control_change control value) self =
     (sent <- Live.send_action py_repr connected b ;;
      if sent then ret tt
      else Live.fader_loop py_repr float_pow3 connected 127 rest) self).
Proof.
  assert (Hb : forall action, lookup "action" b = Some action ->
                              button_binding b).
  { intros action Ha. split; [exists kind | exists action]; auto. }
  split; [| split; [| split]].
  - intros Ha. cbn [Live.handle_midi_input].
    rewrite live_handle_midi_fader_loop, Hsearch.
    apply (live_fader_loop_no_action _ _ _ _ _ _ _ kind Hkind Ha).
  - intros note velocity b' rest' Hs Ha. cbn [Live.handle_midi_input].
    rewrite live_handle_midi_button_loop, Hs.
    apply live_button_loop_no_action, Ha.
  - intros action Ha Hv. cbn [Live.handle_midi_input].
    rewrite live_handle_midi_fader_loop, Hsearch.
    rewrite (live_fader_loop_button _ _ _ _ _ _ _ (Hb action Ha)).
    apply Z.eqb_neq in Hv. rewrite Hv. reflexivity.
  - intros action Ha ->. cbn [Live.handle_midi_input].
    rewrite live_handle_midi_fader_loop, Hsearch.
    rewrite (live_fader_loop_button _ _ _ _ _ _ _ (Hb action Ha)).
    reflexivity.
Qed.

(** ** A controller used as a fader *)


End LiveClaims.

(** A controller whose first binding lost its action, before a working
    one: [KeyError] at 64 and at 127, with the connection open or closed,
    and the working binding is never tried.  The pad in the same situation
    transmits the action of the working binding. *)
Lemma control_button_reads_action_first_witness :
  let self :=
    init [actionless_mute; mute_control; broken_button; scene_button] in
  Live.handle_midi_input sample_repr nearest_pow3 true
    (control_change 7 64) self = (Raise KeyError, self) /\
  Live.handle_midi_input sample_repr nearest_pow3 true
    (control_change 7 127) self = (Raise KeyError, self) /\
  Live.handle_midi_input sample_repr nearest_pow3 false
    (control_change 7 127) self = (Raise KeyError, self) /\
  Live.handle_midi_input sample_repr nearest_pow3 true (note_on 36 100) self =
  (Ok tt, transmitted self (VStr "scene")).
Proof.
  intros self.
  pose proof (fun connected value =>
    control_button_reads_action_first sample_repr nearest_pow3 connected
      actionless_mute [mute_control] 7 value self (VStr "button")
      eq_refl eq_refl eq_refl) as H.
  split; [apply (H true 64), eq_refl |].
  split; [apply (H true 127), eq_refl |].
  split; [apply (H false 127), eq_refl |].
  destruct (H true 0) as (_ & Hpad & _).
  rewrite (Hpad 36 100 broken_button [scene_button] eq_refl eq_refl).
  reflexivity.
Defined.



Section LiveTracker.

Variable py_repr : pyvalue -> string.
Variable float_pow3 : Q -> outcome Q.

(** ** Correlation ids and the connection *)

(** C8, where the code departs from it: [send_action] appends the entry,
    then transmits, then advances the counter.  The reload pad hit while
    the connection is closed leaves its entry in the buffer and the counter
    at 2; hit again once the connection is open, it registers a second
    entry under the same id 2.  The ids assigned are [2, 2]: not distinct,
    not increasing, and two pending entries share an id. *)
Theorem pending_id_reused_after_closed_send :
  exists self,
    Live.run py_repr float_pow3
      [(false, Midi (note_on 40 100)); (true, Midi (note_on 40 100))]
      (init [reload_button]) = Some self /\
    ids (history self) = [2; 2] /\
    ids (_action_buffer self) = [2; 2] /\
    ~ NoDup (ids (_action_buffer self)) /\
    ~ StronglySorted Z.lt (ids (history self)) /\
    _action_counter self = 3.
Proof.
  eexists. split; [reflexivity |]. cbn.
  split; [reflexivity |]. split; [reflexivity |]. split; [| split].
  - intros H. inversion H as [| x l Hin _]; subst. apply Hin. left. reflexivity.
  - intros H. inversion H as [| x l _ Hall]; subst.
    inversion Hall as [| y l' Hlt _]; subst. lia.
  - reflexivity.
Qed.

(** C10, where the code departs from it: the counter starts at 2 and the
    first tracked request is registered under the id 2; when its
    transmission raises because the connection is closed, the counter stays
    at 2, and the second tracked request is registered and transmitted
    under the id 2 again, not 3.  The reply that carries the id 2 then
    resolves the entry of the first request, which was never transmitted,
    and the entry of the second stays. *)
Theorem second_request_repeats_first_id :
  _action_counter (init [reload_button]) = 2 /\
  Live.dispatch py_repr float_pow3 false (Midi (note_on 40 100))
    (init [reload_button]) =
  (Raise WebSocketConnectionClosedException,
   stranded (init [reload_button]) (VStr "tpl%s") (VStr "ReloadBrowserSource")) /\
  exists self,
    Live.run py_repr float_pow3
      [(false, Midi (note_on 40 100)); (true, Midi (note_on 40 100))]
      (init [reload_button]) = Some self /\
    nth_error (ids (history self)) 1 = Some 2 /\
    obs_socket self =
    [VStr (envelope "GetSourceSettings" "sourceName" "2" "cam")] /\
    exists self',
      Live.run py_repr float_pow3
        [(true, Reply (settings_reply "2" "http://x"))] self = Some self' /\
      _action_buffer self' = [(2, VStr "tpl%s", VStr "ReloadBrowserSource")] /\
      obs_socket self' =
      [VStr (envelope "GetSourceSettings" "sourceName" "2" "cam");
       VStr "tplhttp://x#"].
Proof.
  split; [reflexivity |]. split; [reflexivity |].
  eexists. split; [reflexivity |]. cbn.
  split; [reflexivity |]. split; [reflexivity |].
  eexists. split; [reflexivity |]. split; reflexivity.
Qed.

(** ** Effects of a MIDI event, by the state of the connection *)

(** X4: one MIDI event has at most one effect.  With the connection open
    it transmits at most one message and registers at most one entry, under
    the id the counter holds, together with a transmission and an advance
    of the counter.  With the connection closed it transmits nothing and
    never advances the counter, and it can leave one entry registered under
    the id the counter keeps.  It removes no pending entry. *)
Theorem midi_event_effect_by_connection (connected : bool) (msg : message)
  (self : MidiHandler) :
  let self' :=
    snd (Live.handle_midi_input py_repr float_pow3 connected msg self) in
  live_effect connected self self' /\
  (connected = true ->
   (obs_socket self' = obs_socket self \/
    exists m, obs_socket self' = (obs_socket self ++ [m])%list) /\
   (_action_buffer self' = _action_buffer self /\
    _action_counter self' = _action_counter self \/
    exists e m,
      _action_buffer self' = (_action_buffer self ++ [e])%list /\
      entry_id e = _action_counter self /\
      _action_counter self' = _action_counter self + 1 /\
      obs_socket self' = (obs_socket self ++ [m])%list)) /\
  (connected = false ->
   obs_socket self' = obs_socket self /\
   _action_counter self' = _action_counter self /\
   (_action_buffer self' = _action_buffer self \/
    exists e,
      _action_buffer self' = (_action_buffer self ++ [e])%list /\
      entry_id e = _action_counter self /\
      fst (Live.handle_midi_input py_repr float_pow3 connected msg self) =
      Raise WebSocketConnectionClosedException)).
Proof.
  intros self'.
  pose proof (live_handle_midi_input_effect py_repr float_pow3 connected msg
                self) as H.
  fold self' in H. split; [exact H |]. split; intros ->; cbn in H.
  - destruct H as [-> | [[m ->] | (a & r & t & x & _ & _ & ->)]].
    + split; left; auto.
    + split; [right; exists m; reflexivity | left; auto].
    + split; [right; eexists; reflexivity |].
      right. do 2 eexists. repeat split.
  - destruct H as [E | (a & r & t & _ & _ & E)].
    + rewrite E. repeat split. left. reflexivity.
    + destruct (closed_handle_midi_input_outcome py_repr float_pow3 msg self)
        as [O | O].
      * fold self' in O. rewrite O. repeat split. left. reflexivity.
      * rewrite E. repeat split. right. eexists. repeat split. exact O.
Qed.

End LiveTracker.

Section LiveInvariants.

Variable py_repr : pyvalue -> string.
Variable float_pow3 : Q -> outcome Q.

(** Along a run during which the connection is open the tracker keeps its
    invariant and the pending ids stay increasing and below the counter. *)
Lemma connected_run_invariant (steps : list (bool * input))
  (self self' : MidiHandler) :
  Forall (fun s => fst s = true) steps ->
  Live.run py_repr float_pow3 steps self = Some self' ->
  tracker_invariant self /\
  StronglySorted Z.lt (ids (_action_buffer self)) /\
  Forall (fun id => id < _action_counter self) (ids (_action_buffer self)) ->
  tracker_invariant self' /\
  StronglySorted Z.lt (ids (_action_buffer self')) /\
  Forall (fun id => id < _action_counter self') (ids (_action_buffer self')).
Proof.
  intros Hc Hrun.
  apply (live_stable_run py_repr float_pow3
           (fun s => tracker_invariant s /\
                     StronglySorted Z.lt (ids (_action_buffer s)) /\
                     Forall (fun id => id < _action_counter s)
                       (ids (_action_buffer s)))) with (steps := steps);
    try assumption.
  - intros s m (Hi & Hs). split; [| exact Hs].
    eapply invariant_evolves; [apply evolves_transmit | exact Hi].
  - intros s a r t x (Hi & Hs & Hb) _ _. split.
    { eapply invariant_evolves; [apply evolves_track | exact Hi]. }
    cbn [tracked _action_buffer _action_counter].
    unfold ids in *. rewrite map_app. cbn [map entry_id fst]. split.
    + apply sorted_snoc; assumption.
    + apply Forall_app. split.
      * eapply Forall_impl; [| exact Hb]. cbn. intros; lia.
      * repeat constructor. lia.
  - intros s e l (Hi & Hs & Hb) Hl. split.
    { eapply invariant_evolves; [| exact Hi].
      apply evolves_discard, (list_remove_incl e _ _ Hl). }
    cbn [with_buffer _action_buffer _action_counter].
    split; [apply (list_remove_ids_sorted e _ _ Hs Hl) |].
    apply Forall_forall. intros y Hy. rewrite Forall_forall in Hb.
    apply Hb. apply (ids_incl l (_action_buffer s)); [| exact Hy].
    apply Forall_forall. intros z Hz.
    apply (list_remove_incl e _ l Hl), Hz.
Qed.

(** X6: as long as the connection is open, in every state a handler
    reaches the ids handed out are [2, 3, ...] in this order, and the ids
    of the pending entries are strictly increasing in buffer order and
    below the counter: no two pending entries share an id, so the first
    entry a reply matches is the only one. *)
Theorem pending_ids_increasing_while_connected (config : list document)
  (steps : list (bool * input)) (self : MidiHandler)
  (Hconnected : Forall (fun s => fst s = true) steps)
  (Hrun : Live.run py_repr float_pow3 steps (init config) = Some self) :
  _action_counter self = Z.of_nat (length (history self)) + 2 /\
  ids (history self) = first_ids (length (history self)) /\
  StronglySorted Z.lt (ids (_action_buffer self)) /\
  NoDup (ids (_action_buffer self)) /\
  Forall (fun id => id < _action_counter self) (ids (_action_buffer self)).
Proof.
  destruct (connected_run_invariant steps (init config) self Hconnected Hrun)
    as ((Hc & Hi & _) & Hs & Hb).
  { split; [apply invariant_init |]. split; constructor. }
  repeat split; try assumption. apply increasing_NoDup, Hs.
Qed.

(** X2: when no pending entry carries the id the counter holds, as in
    every state reached while the connection was open, a tracked request
    followed by the reply that carries its id, the text of the counter,
    resolves exactly this request: the reply's follow-up is transmitted and
    the buffer is again what it was before the request. *)
Theorem request_reply_round_trip (self : MidiHandler) (b : document)
  (request template : string) (d : document) (m : pyvalue)
  (Hfresh : Forall (fun e => entry_id e <> _action_counter self)
              (_action_buffer self))
  (Haction : truthy (dict_get b "action") = true)
  (Hrequest : dict_get b "request" = VStr request)
  (Htemplate : assoc request TEMPLATES = Some template)
  (Htarget : truthy (dict_get b "target") = true)
  (Herror : lookup "error" d = None)
  (Hid : lookup "message-id" d =
         Some (VStr (decimal (_action_counter self))))
  (Hfollow : follow_up py_repr (VDict d) (dict_get b "action") (VStr request) =
             Ok (Some m)) :
  (exists text,
     let pending :=
       tracked self (dict_get b "action") (VStr request) (VStr text) in
     Live.send_action py_repr true b self = (Ok true, pending) /\
     Live.handle_obs_message py_repr true (VDict d) pending =
     (Ok tt, with_buffer (transmitted pending m) (_action_buffer self))) /\
  (forall config steps reached,
     Forall (fun s => fst s = true) steps ->
     Live.run py_repr float_pow3 steps (init config) = Some reached ->
     Forall (fun e => entry_id e <> _action_counter reached)
       (_action_buffer reached)).
Proof.
  split.
  - destruct (live_send_action_tracked py_repr b self request template
                Haction Hrequest Htemplate Htarget) as [text [_ Hsend]].
    exists text. cbv zeta.
    split; [exact Hsend |]. rewrite handle_obs_message_connected.
    rewrite (handle_obs_message_matched py_repr d
               (VStr (decimal (_action_counter self))) (_action_counter self)
               (_action_buffer self) [] (dict_get b "action") (VStr request) m
               (tracked self (dict_get b "action") (VStr request) (VStr text))
               Herror Hid (int_of_str_decimal _) eq_refl Hfresh Hfollow).
    rewrite app_nil_r. reflexivity.
  - intros config steps reached Hc Hrun.
    destruct (connected_run_invariant steps (init config) reached Hc Hrun)
      as (_ & _ & Hb).
    { split; [apply invariant_init |]. split; constructor. }
    apply Forall_forall. intros e He Heq.
    rewrite Forall_forall in Hb.
    specialize (Hb (entry_id e) (in_map entry_id _ e He)). lia.
Qed.

(** ** Errors *)





End LiveInvariants.

(** ** The scaled value and the bounds *)

(** X9: when the bounds and their difference are doubles, so that the
    subtraction [osto - osta] does not round, the scaler returns on the
    whole MIDI range a double between the bounds, in whichever order they
    come.  (Where the difference rounds up, the value at 127 can exceed the
    upper bound.) *)
Theorem map_scale_within_range (v : Z) (osta osto : pyvalue) (lo hi : Q)
  (Fa : finite_number osta) (Fo : finite_number osto)
  (Hlo : as_number osta = Some lo) (Hhi : as_number osto = Some hi)
  (Rl : representable lo) (Rh : representable hi)
  (Rd : representable (hi - lo))
  (Bl : (Qabs lo <= 2 ^ 1022)%Q) (Bh : (Qabs hi <= 2 ^ 1022)%Q)
  (Hv : 0 <= v <= 127) :
  exists r,
    Live.map_scale (VInt v) (VInt 0) (VInt 127) osta osto = Ok (VFloat r) /\
    is_double r /\
    ((lo <= hi)%Q -> (lo <= r <= hi)%Q) /\
    ((hi <= lo)%Q -> (hi <= r <= lo)%Q).
Proof.
  destruct (map_scale_returns v osta osto lo hi Fa Fo Hlo Hhi Bl Bh Hv)
    as [r Hr].
  exists r. split; [exact Hr |]. split.
  - destruct (map_scale_shape _ _ _ _ _ _ Hr) as
      (_ & nlo & nhi & d & d' & lo' & f & p & q & _ & _ & _ & _ & _ & _ & _ &
       Hq & E).
    injection E as ->. eapply round64_is_double; exact Hq.
  - apply (scaled_between v osta osto lo hi r); assumption.
Qed.

(** X10: for integer bounds [low <= high] below [2^52] in magnitude,
    [int(scaled)], the value sent for a rotation, a duration or an offset,
    is an integer between the bounds, at every value of the MIDI range. *)
Theorem integer_transform_within_bounds (v low high : Z)
  (Hl : Z.abs low < 2 ^ 52) (Hh : Z.abs high < 2 ^ 52)
  (Hle : low <= high) (Hv : 0 <= v <= 127) :
  exists q n,
    Live.map_scale (VInt v) (VInt 0) (VInt 127) (VInt low) (VInt high) =
    Ok (VFloat q) /\
    Live.to_int (VFloat q) = Ok (VInt n) /\
    n = Qtrunc q /\
    low <= n <= high.
Proof.
  assert (P : 2 ^ 53 = 2 * 2 ^ 52) by reflexivity.
  assert (B : forall n, Z.abs n < 2 ^ 52 ->
                        (Qabs (inject_Z n) <= 2 ^ 1022)%Q).
  { intros n Hn. change (Qabs (inject_Z n)) with (inject_Z (Z.abs n)).
    apply Qle_trans with (2 ^ 52)%Q.
    - rewrite (two_inject 52) by lia. rewrite <- Zle_Qle. lia.
    - apply two_le. lia. }
  assert (Rd : representable (inject_Z high - inject_Z low)).
  { unfold representable.
    assert (E : (inject_Z high - inject_Z low == inject_Z (high - low))%Q).
    { unfold Zminus. rewrite inject_Z_plus, inject_Z_opp. reflexivity. }
    rewrite (nearest_comp _ _ E), E. apply nearest_Z. lia. }
  destruct (map_scale_returns v (VInt low) (VInt high)
              (inject_Z low) (inject_Z high) I I eq_refl eq_refl
              (B low Hl) (B high Hh) Hv) as [q Hq].
  destruct (scaled_between v (VInt low) (VInt high)
              (inject_Z low) (inject_Z high) q I I eq_refl eq_refl
              (nearest_Z low ltac:(lia)) (nearest_Z high ltac:(lia)) Rd Hv Hq)
    as [Hin _].
  destruct Hin as [H1 H2]; [rewrite <- Zle_Qle; exact Hle |].
  exists q, (Qtrunc q). split; [exact Hq |]. split; [reflexivity |].
  split; [reflexivity |]. apply Qtrunc_between; assumption.
Qed.

(** The rotation between 0 and 381 at the value 67: [200], within bounds
    although the exact interpolation is 201. *)
Lemma integer_transform_within_bounds_witness :
  exists q n,
    Live.map_scale (VInt 67) (VInt 0) (VInt 127) (VInt 0) (VInt 381) =
    Ok (VFloat q) /\
    Live.to_int (VFloat q) = Ok (VInt n) /\
    n = Qtrunc q /\
    0 <= n <= 381.
Proof.
  apply (integer_transform_within_bounds 67 0 381); cbn; lia.
Defined.

(** An opacity between the doubles of [0.25] and [0.75], whose difference
    is a double. *)
Lemma map_scale_within_range_witness :
  exists r,
    Live.map_scale (VInt 64) (VInt 0) (VInt 127)
      (VFloat (1 # 4)) (VFloat (3 # 4)) = Ok (VFloat r) /\
    is_double r /\
    ((1 # 4 <= 3 # 4)%Q -> (1 # 4 <= r <= 3 # 4)%Q) /\
    ((3 # 4 <= 1 # 4)%Q -> (3 # 4 <= r <= 1 # 4)%Q).
Proof.
  apply (map_scale_within_range 64 (VFloat (1 # 4)) (VFloat (3 # 4))
           (1 # 4) (3 # 4)); try reflexivity; try (vm_compute; discriminate).
  lia.
Defined.

(** Two tracked requests and a reply while the connection is open. *)
Lemma pending_ids_increasing_while_connected_witness :
  exists self,
    Live.run sample_repr nearest_pow3
      [(true, Midi (note_on 40 100)); (true, Midi (note_on 41 100));
       (true, Reply (settings_reply "2" "http://x"))]
      (init [reload_button; toggle_button]) = Some self /\
    ids (history self) = [2; 3] /\
    ids (_action_buffer self) = [3] /\
    NoDup (ids (_action_buffer self)) /\
    _action_counter self = 4.
Proof.
  eexists. split; [reflexivity |].
  destruct (pending_ids_increasing_while_connected sample_repr nearest_pow3
              [reload_button; toggle_button]
              [(true, Midi (note_on 40 100)); (true, Midi (note_on 41 100));
               (true, Reply (settings_reply "2" "http://x"))] _
              ltac:(repeat constructor) eq_refl)
    as (Hc & Hi & _ & Hn & _).
  split; [exact Hi |]. split; [reflexivity |]. split; [exact Hn | exact Hc].
Defined.

(** The reload pad, then the settings of the source under the id 2. *)
Lemma request_reply_round_trip_witness :
  exists text,
    let pending :=
      tracked (init [reload_button]) (VStr "tpl%s")
        (VStr "ReloadBrowserSource") (VStr text) in
    Live.send_action sample_repr true reload_button (init [reload_button]) =
    (Ok true, pending) /\
    Live.handle_obs_message sample_repr true (settings_reply "2" "http://x#")
      pending =
    (Ok tt, with_buffer (transmitted pending (VStr "tplhttp://x")) []).
Proof.
  exact (proj1 (request_reply_round_trip sample_repr nearest_pow3
                  (init [reload_button]) reload_button "ReloadBrowserSource" _
                  (settings "2" "http://x#") (VStr "tplhttp://x")
                  (Forall_nil _)
                  eq_refl eq_refl eq_refl eq_refl eq_refl eq_refl eq_refl)).
Defined.

